(** * Camlistore: the mutable FUSE view (pkg/fs/mut.go) and the localdisk
      directory lock registry (pkg/blobserver/localdisk/dirlock.go)

    A shallow embedding of the two Go files and the properties their
    specification states about them.

    Conventions used throughout:
    - Go pointers to heap objects are addresses ([positive]) into finite
      maps ([gmap]); a fresh object gets an address outside the domain of
      its heap, so two pointers are equal exactly when they denote the
      same object.
    - [int64] values are [Z] with the two's complement wrap-around written
      out ([wrap64]); [uint64] values are [Z] reduced modulo [2^64].
    - A node mutex ([n.mu], [dirLockMu]) delimits a critical section; each
      modelled function runs such a section to completion, so the
      embedding is the sequential (interleaving) semantics at the
      granularity of whole calls. For dirlock.go, whose calls block on
      each other, the callers running side by side are modelled as well,
      event by event: a critical section of [dirLockMu] or one method
      of a lock at a time. *)

From stdpp Require Import gmap strings list fin_maps.
From Stdlib Require Import ZArith Lia.

Local Open Scope Z_scope.

(** ** Machine integers *)

Definition wrap64 (z : Z) : Z := (z + 2 ^ 63) mod 2 ^ 64 - 2 ^ 63.
Definition to_uint64 (z : Z) : Z := z mod 2 ^ 64.
Definition int64_range (z : Z) : Prop := - 2 ^ 63 <= z < 2 ^ 63.

(** * pkg/blobserver/localdisk/dirlock.go *)

Module Localdisk.

(** A [*sync.RWMutex]: the address of a lock object. *)
Definition lockref := positive.

(** The state of a [sync.RWMutex]. Package [sync] is the Go standard
    library; the lock is modelled from its documentation: it is held by
    any number of readers or by one writer; [Lock] blocks while the lock
    is held for reading or writing, and a blocked [Lock] call excludes new
    readers from acquiring the lock; [RUnlock] and [Unlock] of a lock that
    is not held that way are run-time errors. A call that blocks is
    counted in the lock until it returns. The zero value, which
    [new(sync.RWMutex)] yields, is unlocked with nobody blocked. *)
Record RWMutex := {
  readers : nat;          (* callers that hold the lock for reading *)
  writer : bool;          (* a caller holds the lock for writing *)
  blocked_readers : nat;  (* callers blocked inside [RLock] *)
  blocked_writers : nat;  (* callers blocked inside [Lock] *)
}.

Definition new_RWMutex : RWMutex :=
  {| readers := 0; writer := false; blocked_readers := 0; blocked_writers := 0 |}.

(** The package-level variables guarded by [dirLockMu], together with the
    heap of lock objects that [new] has allocated so far. *)
Record Registry := {
  locksOut : Z;
  dirLocks : gmap string lockref;
  mutexes : gmap lockref RWMutex;
}.

Definition initial : Registry :=
  {| locksOut := 0; dirLocks := ∅; mutexes := ∅ |}.

Definition set_mutex (mu : lockref) (m : RWMutex) (st : Registry) : Registry :=
  {| locksOut := locksOut st; dirLocks := dirLocks st;
     mutexes := <[mu := m]> (mutexes st) |}.

(** [getDirLock]: count the acquisition, then look the directory up,
    allocating and recording a lock when it has none. *)
Definition getDirLock (dir : string) (st : Registry) : lockref * Registry :=
  let n := wrap64 (locksOut st + 1) in
  match dirLocks st !! dir with
  | Some l => (l, {| locksOut := n; dirLocks := dirLocks st; mutexes := mutexes st |})
  | None =>
      let l := fresh (dom (mutexes st)) in
      (l, {| locksOut := n;
             dirLocks := <[dir := l]> (dirLocks st);
             mutexes := <[l := new_RWMutex]> (mutexes st) |})
  end.

(** [unlockDirLock]: uncount, and start over with an empty map when no
    acquisition is outstanding. *)
Definition unlockDirLock (st : Registry) : Registry :=
  let n := wrap64 (locksOut st - 1) in
  {| locksOut := n;
     dirLocks := if decide (n = 0) then ∅ else dirLocks st;
     mutexes := mutexes st |}.

(** *** The methods of [sync.RWMutex] that the file calls

    A call of [RLock] or [Lock] either returns at once or blocks and
    returns later. [RLock] and [Lock] give the state after a call that
    returns at once, and [None] where the call blocks; [RLock_block] and
    [Lock_block] record the blocked call in the lock; [RLock_return] and
    [Lock_return] give the state after a blocked call has returned, and
    [None] where it cannot return yet. [RUnlock] and [RWUnlock] give
    [None] where the Go runtime stops the program (unlock of a lock that
    is not held that way). *)

(** A new reader gets in when no writer holds the lock and no [Lock] call
    is blocked. *)
Definition RLock (mu : lockref) (st : Registry) : option Registry :=
  m ← mutexes st !! mu;
  if writer m then None
  else match blocked_writers m with
       | O => Some (set_mutex mu {| readers := S (readers m); writer := false;
                                    blocked_readers := blocked_readers m;
                                    blocked_writers := O |} st)
       | S _ => None
       end.

Definition RLock_block (mu : lockref) (st : Registry) : Registry :=
  match mutexes st !! mu with
  | Some m => set_mutex mu {| readers := readers m; writer := writer m;
                              blocked_readers := S (blocked_readers m);
                              blocked_writers := blocked_writers m |} st
  | None => st
  end.

(** A blocked reader gets in once no writer holds the lock. *)
Definition RLock_return (mu : lockref) (st : Registry) : option Registry :=
  m ← mutexes st !! mu;
  if writer m then None
  else match blocked_readers m with
       | O => None
       | S k => Some (set_mutex mu {| readers := S (readers m); writer := false;
                                      blocked_readers := k;
                                      blocked_writers := blocked_writers m |} st)
       end.

(** A new writer gets in when nobody holds the lock and nobody is
    blocked on it. Where the lock is free while callers are blocked on
    it, who gets it next is the runtime's choice: the new call is then
    recorded as blocked like the others, and any blocked call that the
    lock admits may return. *)
Definition Lock (mu : lockref) (st : Registry) : option Registry :=
  m ← mutexes st !! mu;
  if writer m then None
  else match readers m, blocked_readers m, blocked_writers m with
       | O, O, O => Some (set_mutex mu {| readers := O; writer := true;
                                          blocked_readers := O;
                                          blocked_writers := O |} st)
       | _, _, _ => None
       end.

Definition Lock_block (mu : lockref) (st : Registry) : Registry :=
  match mutexes st !! mu with
  | Some m => set_mutex mu {| readers := readers m; writer := writer m;
                              blocked_readers := blocked_readers m;
                              blocked_writers := S (blocked_writers m) |} st
  | None => st
  end.

(** A blocked writer gets in once nobody holds the lock. *)
Definition Lock_return (mu : lockref) (st : Registry) : option Registry :=
  m ← mutexes st !! mu;
  if writer m then None
  else match readers m, blocked_writers m with
       | O, S k => Some (set_mutex mu {| readers := O; writer := true;
                                         blocked_readers := blocked_readers m;
                                         blocked_writers := k |} st)
       | _, _ => None
       end.

Definition RUnlock (mu : lockref) (st : Registry) : option Registry :=
  m ← mutexes st !! mu;
  match readers m with
  | O => None
  | S k => Some (set_mutex mu {| readers := k; writer := writer m;
                                 blocked_readers := blocked_readers m;
                                 blocked_writers := blocked_writers m |} st)
  end.

Definition RWUnlock (mu : lockref) (st : Registry) : option Registry :=
  m ← mutexes st !! mu;
  if writer m then Some (set_mutex mu {| readers := readers m; writer := false;
                                         blocked_readers := blocked_readers m;
                                         blocked_writers := blocked_writers m |} st)
  else None.

(** The two implementations of the [unlocker] interface. *)
Inductive unlocker :=
  | keepLock (mu : lockref)
  | deleteLock (mu : lockref).

Definition unlocker_mu (u : unlocker) : lockref :=
  match u with keepLock mu | deleteLock mu => mu end.

(** [keepDirectoryLock] and [deleteDirectoryLock], run without another
    caller in between. The registry is updated by [getDirLock] before the
    caller takes the lock itself, so a caller that blocks (result [None])
    is already counted; it is then blocked inside [mu.RLock()] or
    [mu.Lock()]. *)
Definition keepDirectoryLock (dir : string) (st : Registry) : option unlocker * Registry :=
  let '(mu, st1) := getDirLock dir st in
  match RLock mu st1 with
  | Some st2 => (Some (keepLock mu), st2)
  | None => (None, RLock_block mu st1)
  end.

Definition deleteDirectoryLock (dir : string) (st : Registry) : option unlocker * Registry :=
  let '(mu, st1) := getDirLock dir st in
  match Lock mu st1 with
  | Some st2 => (Some (deleteLock mu), st2)
  | None => (None, Lock_block mu st1)
  end.

(** [keepLock.Unlock] and [deleteLock.Unlock], run without another caller
    in between: release the lock, then [unlockDirLock]. *)
Definition Unlock (u : unlocker) (st : Registry) : option Registry :=
  match u with
  | keepLock mu => unlockDirLock <$> RUnlock mu st
  | deleteLock mu => unlockDirLock <$> RWUnlock mu st
  end.


(** Nobody holds the lock [m] and nobody is blocked on it. *)
Definition idle (m : RWMutex) : Prop :=
  readers m = O /\ writer m = false /\ blocked_readers m = O /\ blocked_writers m = O.

(** *** Callers running side by side

    [dirLockMu] makes [getDirLock] and [unlockDirLock] critical sections,
    and each method of a lock is one event; between them other callers
    run. A caller is in one of four places: it has come out of
    [getDirLock] and is about to call [mu.RLock()] or [mu.Lock()]; it is
    blocked inside that call; the acquisition has returned and it holds
    the unlocker; or it is inside [Unlock], past [mu.RUnlock()] or
    [mu.Unlock()] and before [unlockDirLock]. *)
Inductive mode := keep | delete.

Inductive phase := registered | blocked | holding | releasing.

Record Caller := {
  c_dir : string;   (* the directory it asked for *)
  c_mu : lockref;   (* the lock [getDirLock] gave it *)
  c_mode : mode;
  c_phase : phase;
}.

Definition with_phase (ph : phase) (c : Caller) : Caller :=
  {| c_dir := c_dir c; c_mu := c_mu c; c_mode := c_mode c; c_phase := ph |}.

Definition unlocker_of (c : Caller) : unlocker :=
  match c_mode c with
  | keep => keepLock (c_mu c)
  | delete => deleteLock (c_mu c)
  end.

(** The lock methods by the kind of acquisition. *)
Definition mutex_lock (md : mode) : lockref -> Registry -> option Registry :=
  match md with keep => RLock | delete => Lock end.
Definition mutex_block (md : mode) : lockref -> Registry -> Registry :=
  match md with keep => RLock_block | delete => Lock_block end.
Definition mutex_return (md : mode) : lockref -> Registry -> option Registry :=
  match md with keep => RLock_return | delete => Lock_return end.
Definition mutex_unlock (md : mode) : lockref -> Registry -> option Registry :=
  match md with keep => RUnlock | delete => RWUnlock end.

(** The package variables and the callers that are between their
    [getDirLock] and their [unlockDirLock]. *)
Record System := { registry : Registry; callers : list Caller }.

(** One event of one caller. Callers keep to the contract of the
    comments of the file: a caller unlocks the unlocker it got, once. An
    unlock that the runtime stops is no step. *)
Inductive step : System -> System -> Prop :=
  | step_getDirLock dir md st cs mu st1 :
      getDirLock dir st = (mu, st1) ->
      step {| registry := st; callers := cs |}
           {| registry := st1;
              callers := cs ++ [{| c_dir := dir; c_mu := mu; c_mode := md;
                                   c_phase := registered |}] |}
  | step_lock st l1 c l2 st1 :
      c_phase c = registered ->
      mutex_lock (c_mode c) (c_mu c) st = Some st1 ->
      step {| registry := st; callers := l1 ++ c :: l2 |}
           {| registry := st1; callers := l1 ++ with_phase holding c :: l2 |}
  | step_block st l1 c l2 :
      c_phase c = registered ->
      mutex_lock (c_mode c) (c_mu c) st = None ->
      step {| registry := st; callers := l1 ++ c :: l2 |}
           {| registry := mutex_block (c_mode c) (c_mu c) st;
              callers := l1 ++ with_phase blocked c :: l2 |}
  | step_return st l1 c l2 st1 :
      c_phase c = blocked ->
      mutex_return (c_mode c) (c_mu c) st = Some st1 ->
      step {| registry := st; callers := l1 ++ c :: l2 |}
           {| registry := st1; callers := l1 ++ with_phase holding c :: l2 |}
  | step_release st l1 c l2 st1 :
      c_phase c = holding ->
      mutex_unlock (c_mode c) (c_mu c) st = Some st1 ->
      step {| registry := st; callers := l1 ++ c :: l2 |}
           {| registry := st1; callers := l1 ++ with_phase releasing c :: l2 |}
  | step_unlockDirLock st l1 c l2 :
      c_phase c = releasing ->
      step {| registry := st; callers := l1 ++ c :: l2 |}
           {| registry := unlockDirLock st; callers := l1 ++ l2 |}.

(** The states the package can be in while never more than [N] callers
    are between their [getDirLock] and their [unlockDirLock]. *)
Inductive reaches (N : nat) : System -> Prop :=
  | reaches_initial : reaches N {| registry := initial; callers := [] |}
  | reaches_step s s' :
      reaches N s -> step s s' -> (length (callers s') <= N)%nat -> reaches N s'.

(** How many of the callers [cs] are on lock [mu] in mode [md] and phase
    [ph]. *)
Definition mode_eqb (a b : mode) : bool :=
  match a, b with
  | keep, keep | delete, delete => true
  | _, _ => false
  end.

Definition phase_eqb (a b : phase) : bool :=
  match a, b with
  | registered, registered | blocked, blocked
  | holding, holding | releasing, releasing => true
  | _, _ => false
  end.

Definition at_lock (mu : lockref) (md : mode) (ph : phase) (c : Caller) : bool :=
  Pos.eqb (c_mu c) mu && mode_eqb (c_mode c) md && phase_eqb (c_phase c) ph.

Fixpoint number_of (p : Caller -> bool) (cs : list Caller) : nat :=
  match cs with
  | [] => O
  | c :: cs => ((if p c then 1 else 0) + number_of p cs)%nat
  end.

(** The lock [m] at [mu] is held and waited for by the callers [cs], and
    by nobody else. *)
Definition lock_matches (mu : lockref) (m : RWMutex) (cs : list Caller) : Prop :=
  readers m = number_of (at_lock mu keep holding) cs /\
  (if writer m then 1%nat else O) = number_of (at_lock mu delete holding) cs /\
  blocked_readers m = number_of (at_lock mu keep blocked) cs /\
  blocked_writers m = number_of (at_lock mu delete blocked) cs.

(** What holds of the package in every state it reaches: the count is
    the number of callers between their [getDirLock] and their
    [unlockDirLock]; every lock is held and waited for by those callers
    and by nobody else, and never by a writer and a reader at once; the
    map still has, for the directory of each of those callers, the lock
    that caller was given; and every lock of the map exists. *)
Definition consistent (s : System) : Prop :=
  locksOut (registry s) = Z.of_nat (length (callers s)) /\
  (forall mu m, mutexes (registry s) !! mu = Some m ->
     lock_matches mu m (callers s) /\ (writer m = true -> readers m = O)) /\
  (forall c, c ∈ callers s -> dirLocks (registry s) !! c_dir c = Some (c_mu c)) /\
  (forall dir mu, dirLocks (registry s) !! dir = Some mu ->
     is_Some (mutexes (registry s) !! mu)).

(** The registry after one [keepDirectoryLock "d"] from the initial state:
    one acquisition outstanding, ["d"] mapped to the first lock, which has
    one reader. *)
Definition reg_one_reader : Registry :=
  {| locksOut := 1;
     dirLocks := {[ "d" := 1%positive ]};
     mutexes := {[ 1%positive := {| readers := 1; writer := false;
                                    blocked_readers := 0; blocked_writers := 0 |} ]} |}.

(** The one reader of [reg_one_reader]. *)
Definition one_reader : Caller :=
  {| c_dir := "d"; c_mu := 1%positive; c_mode := keep; c_phase := holding |}.

(** On the way to [reg_one_reader]: the reader has come out of
    [getDirLock] and not yet called [mu.RLock()]. *)
Definition reg_registered : Registry :=
  {| locksOut := 1;
     dirLocks := {[ "d" := 1%positive ]};
     mutexes := {[ 1%positive := new_RWMutex ]} |}.

(** Two readers hold the lock of ["d"]. *)
Definition reg_two_readers : Registry :=
  {| locksOut := 2;
     dirLocks := {[ "d" := 1%positive ]};
     mutexes := {[ 1%positive := {| readers := 2; writer := false;
                                    blocked_readers := 0; blocked_writers := 0 |} ]} |}.

(** The one reader has called [mu.RUnlock()] and not yet
    [unlockDirLock]: the lock is free and still counted. *)
Definition reg_releasing : Registry :=
  {| locksOut := 1;
     dirLocks := {[ "d" := 1%positive ]};
     mutexes := {[ 1%positive := new_RWMutex ]} |}.

End Localdisk.

(** * pkg/fs/mut.go *)

Module Fs.

(** ** Values from the Go standard library *)

(** [time.Time] as nanoseconds since the zero time, so that [IsZero] is
    comparison with [0]; [time.Duration] is nanoseconds too. *)
Definition Time := Z.
Definition Time_IsZero (t : Time) : bool := t =? 0.
Definition Time_Add (t : Time) (d : Z) : Time := t + d.
Definition Time_After (t u : Time) : bool := u <? t.

Definition Second : Z := 1000000000.

(** How often to refresh directory nodes by reading from the blobstore. *)
Definition populateInterval : Z := 30 * Second.

(** The [os.FileMode] bit of a symbolic link. *)
Definition ModeSymlink : Z := Z.shiftl 1 27.

(** Go's [error] values are opaque here: only their being nil or not
    decides control flow, the text is what gets logged. *)
Definition error := string.

Inductive fuse_Error := EIO | ENOENT.

(** [url.Values]: a [map[string][]string]. The list stands for the map
    together with the order in which one [range] over it happens to visit
    the entries; [Values_Get] is [url.Values.Get]. *)
Definition Values := list (string * list string).

Fixpoint Values_lookup (key : string) (v : Values) : option (list string) :=
  match v with
  | [] => None
  | (k, vs) :: rest => if String.eqb k key then Some vs else Values_lookup key rest
  end.

Definition Values_Get (v : Values) (key : string) : string :=
  match Values_lookup key v with
  | Some (x :: _) => x
  | _ => ""
  end.

(** [k[len(p):]] for a string [k] at least as long as [p]. *)
Definition string_from (i : nat) (k : string) : string :=
  String.substring i (String.length k - i) k.

(** ** Computations: state passing, with panics *)

(** A call either returns or panics; either way it leaves a state
    behind. [W] is the type of states ([World] below). *)
Inductive result (A : Type) :=
  | Ok (a : A)
  | Panic (msg : string).
Arguments Ok {A} a.
Arguments Panic {A} msg.

Definition M (W A : Type) : Type := W -> result A * W.

Definition ret {W A} (a : A) : M W A := fun w => (Ok a, w).

Definition bind {W A B} (c : M W A) (k : A -> M W B) : M W B :=
  fun w =>
    match c w with
    | (Ok a, w1) => k a w1
    | (Panic msg, w1) => (Panic msg, w1)
    end.

Definition panic {W A} (msg : string) : M W A := fun w => (Panic msg, w).

Declare Scope go_scope.
Delimit Scope go_scope with go.
Notation "x <- c ;; k" := (bind c (fun x => k))
  (at level 100, c at next level, right associativity) : go_scope.
Notation "c ;; k" := (bind c (fun _ => k))
  (at level 100, right associativity) : go_scope.

(** [for _, x := range l { f x }] *)
Fixpoint forM_ {W A} (l : list A) (f : A -> M W unit) : M W unit :=
  match l with
  | [] => ret tt
  | x :: rest => bind (f x) (fun _ => forM_ rest f)
  end.

(** ** The collaborating packages *)

(** Modelled from the spec: package [blobref] is not among the sources.
    A permanode identity is an opaque, stable blob reference with a
    serialized form and a deterministic 64-bit projection. [BlobRef] is
    the referenced struct, a [*blobref.BlobRef] is an [option BlobRef]
    ([None] for nil), and the three operations used by mut.go are taken
    as given on pointers. *)
Class Blobref := {
  BlobRef : Type;
  BlobRef_eq_dec :: EqDecision BlobRef;
  Parse : string -> option BlobRef;
  BlobRef_String : option BlobRef -> string;
  AsUint64 : option BlobRef -> Z;
}.

Section WithBlobref.
Context `{Blobref}.

(** Modelled from the spec: package [search] is not among the sources.
    Describe returns a meta map from blob reference string to a record
    containing [Permanode.Attr], [CamliType] and, for file types,
    [File.Size]. The [Permanode] and [File] parts are pointers: an absent
    part is [None] and reading through it panics. *)
Record FileInfo := { Size : Z }.
Record DescribedPermanode := { Attr : Values }.
Record DescribedBlob := {
  CamliType : string;
  Permanode : option DescribedPermanode;
  File : option FileInfo;
}.
Record DescribeResponse := { Meta : gmap string DescribedBlob }.
Record DescribeRequest := { req_BlobRef : option BlobRef; Depth : Z }.

(** Modelled from the spec: package [schema] is not among the sources.
    The claim kinds consumed are set-attribute (permanode, key, value) and
    del-attribute (permanode, key), each optionally carrying a claim
    date. *)
Inductive claimKind := SetAttribute | DelAttribute.

Record Claim := {
  claimType : claimKind;
  claimPermanode : option BlobRef;
  attribute : string;
  value : string;
  claimDate : option Time;
}.

Definition NewSetAttributeClaim (p : option BlobRef) (attr val : string) : Claim :=
  {| claimType := SetAttribute; claimPermanode := p; attribute := attr;
     value := val; claimDate := None |}.

Definition NewDelAttributeClaim (p : option BlobRef) (attr : string) : Claim :=
  {| claimType := DelAttribute; claimPermanode := p; attribute := attr;
     value := ""; claimDate := None |}.

Definition SetClaimDate (t : Time) (c : Claim) : Claim :=
  {| claimType := claimType c; claimPermanode := claimPermanode c;
     attribute := attribute c; value := value c; claimDate := Some t |}.

(** ** Nodes *)

Definition addr := positive.

(** [mutFileOrDir]: a [*mutFile] or a [*mutDir]. *)
Inductive mutFileOrDir :=
  | DirNode (a : addr)
  | FileNode (a : addr).

#[export] Instance mutFileOrDir_eq_dec : EqDecision mutFileOrDir.
Proof. solve_decision. Defined.

(** A [fuse.Node]: one of this file's nodes, or a node of another kind. *)
Inductive fuse_Node :=
  | MutNode (c : mutFileOrDir)
  | ForeignNode.

(** [mutDir]. [children] is [None] for a nil map. The [fs] field is left
    out: every node of a mount shares the one file system, whose client
    is the environment below. *)
Record mutDir := {
  d_permanode : option BlobRef;
  d_parent : option addr;
  d_name : string;
  lastPop : Time;
  children : option (gmap string mutFileOrDir);
}.

(** [mutFile]: a mutable file, or symlink. *)
Record mutFile := {
  f_permanode : option BlobRef;
  f_parent : option addr;
  f_name : string;
  symLink : bool;
  target : string;
  content : option BlobRef;
  size : Z;
  mtime : Time;
  atime : Time;
}.

(** [mutFileHandle]: [tmp] is [None] once released. *)
Record mutFileHandle := {
  h_f : addr;
  h_tmp : option addr;
}.

(** An [*os.File] for a temporary file: whether the descriptor is open,
    whether the name still exists in the temp directory, the bytes and the
    offset of the descriptor. *)
Record osFile := {
  is_open : bool;
  is_linked : bool;
  data : list Byte.byte;
  offset : nat;
}.

Record fuse_Attr := {
  Inode : Z;
  Mode : Z;
  Uid : Z;
  Gid : Z;
  a_Size : Z;
  Blocks : Z;
  Mtime : Time;
  Atime : Time;
  Ctime : Time;
  Crtime : Time;
}.

Record RenameRequest := { OldName : string; NewName : string }.

(** ** The world *)

(** What the process cannot decide: the clock, the identity of the
    mounting user, and the answer of every call to the blob/claim client,
    the describe service and the local temp directory. Answers are
    indexed by the number of such calls made before ([tick]), so that any
    sequence of answers is some environment. *)
Record Env := {
  serverStart : Time;
  Getuid : Z;
  Getgid : Z;
  time_Now : nat -> Time;
  client_Describe : nat -> DescribeRequest -> error + DescribeResponse;
  client_UploadAndSignBlob : nat -> Claim -> option error;
  schema_WriteFileFromReader : nat -> string -> list Byte.byte -> error + option BlobRef;
  ioutil_TempFile : nat -> option error;
  io_Copy : nat -> list Byte.byte -> option (nat * error);
  file_Seek : nat -> option error;
}.

(** The heaps of the objects of this file, and the history of what was
    sent out: [described] lists the requests made to [Describe] and
    [signed] every claim handed to [UploadAndSignBlob], in order, whether
    or not the call succeeded; [logged] lists the format strings given to
    package [log]. *)
Record World := {
  dirs : gmap addr mutDir;
  files : gmap addr mutFile;
  handles : gmap addr mutFileHandle;
  tmpfiles : gmap addr osFile;
  tick : nat;
  described : list DescribeRequest;
  signed : list Claim;
  logged : list string;
}.

Definition with_dirs (f : gmap addr mutDir -> gmap addr mutDir) (w : World) : World :=
  {| dirs := f (dirs w); files := files w; handles := handles w;
     tmpfiles := tmpfiles w; tick := tick w; described := described w;
     signed := signed w; logged := logged w |}.
Definition with_files (f : gmap addr mutFile -> gmap addr mutFile) (w : World) : World :=
  {| dirs := dirs w; files := f (files w); handles := handles w;
     tmpfiles := tmpfiles w; tick := tick w; described := described w;
     signed := signed w; logged := logged w |}.
Definition with_handles (f : gmap addr mutFileHandle -> gmap addr mutFileHandle) (w : World) : World :=
  {| dirs := dirs w; files := files w; handles := f (handles w);
     tmpfiles := tmpfiles w; tick := tick w; described := described w;
     signed := signed w; logged := logged w |}.
Definition with_tmpfiles (f : gmap addr osFile -> gmap addr osFile) (w : World) : World :=
  {| dirs := dirs w; files := files w; handles := handles w;
     tmpfiles := f (tmpfiles w); tick := tick w; described := described w;
     signed := signed w; logged := logged w |}.
Definition next_tick (w : World) : World :=
  {| dirs := dirs w; files := files w; handles := handles w;
     tmpfiles := tmpfiles w; tick := S (tick w); described := described w;
     signed := signed w; logged := logged w |}.
Definition with_signed (c : Claim) (w : World) : World :=
  {| dirs := dirs w; files := files w; handles := handles w;
     tmpfiles := tmpfiles w; tick := tick w; described := described w;
     signed := signed w ++ [c]; logged := logged w |}.
Definition with_described (r : DescribeRequest) (w : World) : World :=
  {| dirs := dirs w; files := files w; handles := handles w;
     tmpfiles := tmpfiles w; tick := tick w; described := described w ++ [r];
     signed := signed w; logged := logged w |}.
Definition with_logged (s : string) (w : World) : World :=
  {| dirs := dirs w; files := files w; handles := handles w;
     tmpfiles := tmpfiles w; tick := tick w; described := described w;
     signed := signed w; logged := logged w ++ [s] |}.

Local Open Scope go_scope.

Section WithEnv.
Context (env : Env).

(** *** Heap access *)

(** Reading through a pointer; a nil (or dangling) pointer panics. *)
Definition deref {A} (p : option A) : M World A :=
  match p with
  | Some a => ret a
  | None => panic "invalid memory address or nil pointer dereference"
  end.

Definition get_dir (n : addr) : M World mutDir := fun w => deref (dirs w !! n) w.
Definition get_file (n : addr) : M World mutFile := fun w => deref (files w !! n) w.
Definition get_handle (h : addr) : M World mutFileHandle := fun w => deref (handles w !! h) w.

Definition modify_dir (n : addr) (f : mutDir -> mutDir) : M World unit :=
  _ <- get_dir n ;; fun w => (Ok tt, with_dirs (alter f n) w).
Definition modify_file (n : addr) (f : mutFile -> mutFile) : M World unit :=
  _ <- get_file n ;; fun w => (Ok tt, with_files (alter f n) w).
Definition modify_handle (h : addr) (f : mutFileHandle -> mutFileHandle) : M World unit :=
  _ <- get_handle h ;; fun w => (Ok tt, with_handles (alter f h) w).

(** [&mutDir{...}], [&mutFile{...}], [&mutFileHandle{...}]: a new object at
    an address no object of its heap has. *)
Definition new_mutDir (d : mutDir) : M World addr := fun w =>
  let a := fresh (dom (dirs w)) in (Ok a, with_dirs (insert a d) w).
Definition new_mutFile (f : mutFile) : M World addr := fun w =>
  let a := fresh (dom (files w)) in (Ok a, with_files (insert a f) w).
Definition new_mutFileHandle (h : mutFileHandle) : M World addr := fun w =>
  let a := fresh (dom (handles w)) in (Ok a, with_handles (insert a h) w).

(** *** Field updates *)

Definition set_lastPop (t : Time) (d : mutDir) : mutDir :=
  {| d_permanode := d_permanode d; d_parent := d_parent d; d_name := d_name d;
     lastPop := t; children := children d |}.
Definition set_children (c : option (gmap string mutFileOrDir)) (d : mutDir) : mutDir :=
  {| d_permanode := d_permanode d; d_parent := d_parent d; d_name := d_name d;
     lastPop := lastPop d; children := c |}.
Definition set_content_size (br : option BlobRef) (sz : Z) (f : mutFile) : mutFile :=
  {| f_permanode := f_permanode f; f_parent := f_parent f; f_name := f_name f;
     symLink := symLink f; target := target f; content := br; size := sz;
     mtime := mtime f; atime := atime f |}.
Definition set_size (sz : Z) (f : mutFile) : mutFile :=
  {| f_permanode := f_permanode f; f_parent := f_parent f; f_name := f_name f;
     symLink := symLink f; target := target f; content := content f; size := sz;
     mtime := mtime f; atime := atime f |}.
Definition set_tmp (t : option addr) (h : mutFileHandle) : mutFileHandle :=
  {| h_f := h_f h; h_tmp := t |}.

(** *** Go maps *)

(** [m[name]], also on a nil map. *)
Definition map_index (m : option (gmap string mutFileOrDir)) (name : string)
  : option mutFileOrDir :=
  m ≫= (.!! name).

(** [delete(m, name)]: nothing on a nil map. *)
Definition map_delete (name : string) (m : option (gmap string mutFileOrDir))
  : option (gmap string mutFileOrDir) :=
  delete name <$> m.

(** [n.children[name] = c]: panics on a nil map. *)
Definition assign_child (n : addr) (name : string) (c : mutFileOrDir) : M World unit :=
  d <- get_dir n ;;
  match children d with
  | None => panic "assignment to entry in nil map"
  | Some m => modify_dir n (set_children (Some (<[name := c]> m)))
  end.

(** [if n.children == nil { n.children = make(map[string]mutFileOrDir) }] *)
Definition make_children (n : addr) : M World unit :=
  d <- get_dir n ;;
  match children d with
  | None => modify_dir n (set_children (Some ∅))
  | Some _ => ret tt
  end.

(** *** Calls out of the process *)

Definition log_Printf (fmt : string) : M World unit :=
  fun w => (Ok tt, with_logged fmt w).

Definition Now : M World Time :=
  fun w => (Ok (time_Now env (tick w)), next_tick w).

Definition Describe (req : DescribeRequest) : M World (error + DescribeResponse) :=
  fun w => (Ok (client_Describe env (tick w) req), next_tick (with_described req w)).

Definition UploadAndSignBlob (c : Claim) : M World (option error) :=
  fun w => (Ok (client_UploadAndSignBlob env (tick w) c), next_tick (with_signed c w)).

(** [ioutil.TempFile("", "camli-")]: a new, open, empty file, or nil and
    an error. *)
Definition TempFile : M World (option addr * option error) := fun w =>
  match ioutil_TempFile env (tick w) with
  | Some e => (Ok (None, Some e), next_tick w)
  | None =>
      let t := fresh (dom (tmpfiles w)) in
      (Ok (Some t, None),
       next_tick (with_tmpfiles
         (insert t {| is_open := true; is_linked := true; data := []; offset := 0 |}) w))
  end.

Definition set_data (bs : list Byte.byte) (o : nat) (f : osFile) : osFile :=
  {| is_open := is_open f; is_linked := is_linked f; data := bs; offset := o |}.
Definition set_offset (o : nat) (f : osFile) : osFile :=
  {| is_open := is_open f; is_linked := is_linked f; data := data f; offset := o |}.
Definition set_closed (f : osFile) : osFile :=
  {| is_open := false; is_linked := is_linked f; data := data f; offset := offset f |}.
Definition set_unlinked (f : osFile) : osFile :=
  {| is_open := is_open f; is_linked := false; data := data f; offset := offset f |}.

(** [io.Copy(tmp, body)] into a file that was just created: all of [body]
    arrives, or a prefix of it and an error. *)
Definition Copy (tmp : option addr) (body : list Byte.byte) : M World (option error) :=
  t <- deref tmp ;;
  fun w =>
    match io_Copy env (tick w) body with
    | None =>
        (Ok None, next_tick (with_tmpfiles (alter (set_data body (length body)) t) w))
    | Some (k, e) =>
        (Ok (Some e),
         next_tick (with_tmpfiles (alter (set_data (take k body) (length (take k body))) t) w))
    end.

(** [tmp.Seek(0, 0)] *)
Definition Seek0 (t : addr) : M World (option error) := fun w =>
  match file_Seek env (tick w) with
  | Some e => (Ok (Some e), next_tick w)
  | None => (Ok None, next_tick (with_tmpfiles (alter (set_offset 0) t) w))
  end.

(** [tmp.Close()] and [os.Remove(tmp.Name())]; mut.go ignores what they
    return. *)
Definition Close (t : addr) : M World unit :=
  fun w => (Ok tt, with_tmpfiles (alter set_closed t) w).
Definition os_Remove (t : addr) : M World unit :=
  fun w => (Ok tt, with_tmpfiles (alter set_unlinked t) w).

(** [schema.WriteFileFromReader(client, name, CountingReader{tmp, &n})]:
    consumes the file from its offset on; on success the result is the
    new file blob and [n], the number of bytes read. *)
Definition WriteFileFromReader (name : string) (t : addr)
  : M World (error + (option BlobRef * Z)) :=
  f <- (fun w => deref (tmpfiles w !! t) w) ;;
  fun w =>
    let bs := drop (offset f) (data f) in
    match schema_WriteFileFromReader env (tick w) name bs with
    | inl e => (Ok (inl e), next_tick w)
    | inr br =>
        (Ok (inr (br, Z.of_nat (length bs))),
         next_tick (with_tmpfiles (alter (set_offset (length (data f))) t) w))
    end.

(** ** mutDir *)

(** The body of the loop of [populate], for one attribute [k] with values
    [v] of the described directory permanode. *)
Definition populate_attr (n : addr) (res : DescribeResponse) (kv : string * list string)
  : M World unit :=
  let '(k, v) := kv in
  let p := "camliPath:" in
  if negb (String.prefix p k) || (length v <? 1)%nat then ret tt
  else
    let name := string_from (String.length p) k in
    match v with
    | [] => panic "index out of range"
    | childRef :: _ =>
    match Meta res !! childRef with
    | None => log_Printf "child not described: %v"
    | Some child =>
        cp <- deref (Permanode child) ;;
        let target := Values_Get (Attr cp) "camliSymlinkTarget" in
        if negb (String.eqb target "") then
          (* This is a symlink. *)
          a <- new_mutFile {| f_permanode := Parse childRef; f_parent := Some n;
                              f_name := name; symLink := true; target := target;
                              content := None; size := 0; mtime := 0; atime := 0 |} ;;
          assign_child n name (FileNode a)
        else
          let contentRef := Values_Get (Attr cp) "camliContent" in
          if negb (String.eqb contentRef "") then
            (* This is a file. *)
            match Meta res !! contentRef with
            | None => log_Printf "child content not described: %v"
            | Some content =>
                if negb (String.eqb (CamliType content) "file") then
                  log_Printf "child not a file: %v"
                else
                  fi <- deref (File content) ;;
                  a <- new_mutFile {| f_permanode := Parse childRef; f_parent := Some n;
                                      f_name := name; symLink := false; target := "";
                                      content := Parse contentRef; size := Size fi;
                                      mtime := 0; atime := 0 |} ;;
                  assign_child n name (FileNode a)
            end
          else
            (* This is a directory. *)
            a <- new_mutDir {| d_permanode := Parse childRef; d_parent := Some n;
                               d_name := name; lastPop := 0; children := None |} ;;
            assign_child n name (DirNode a)
    end
    end.

(** [populate] hits the blobstore to populate the map of child nodes. Its
    result is the Go [error]: [None] for nil. *)
Definition populate (n : addr) : M World (option error) :=
  d <- get_dir n ;;
  (* Only re-populate if we haven't done so recently. *)
  now <- Now ;;
  if Time_After (Time_Add (lastPop d) populateInterval) now then ret None
  else
    modify_dir n (set_lastPop now) ;;
    r <- Describe {| req_BlobRef := d_permanode d; Depth := 3 |} ;;
    match r with
    | inl _ => log_Printf "mutDir.paths:" ;; ret None
    | inr res =>
        match Meta res !! BlobRef_String (d_permanode d) with
        | None => ret (Some "dir blobref not described")
        | Some db =>
            (* Find all child permanodes and stick them in n.children *)
            make_children n ;;
            dp <- deref (Permanode db) ;;
            forM_ (Attr dp) (populate_attr n res) ;;
            ret None
        end
    end.

(** [Remove]: the result is the [fuse.Error], [None] for nil. *)
Definition Remove (n : addr) (name : string) : M World (option fuse_Error) :=
  d <- get_dir n ;;
  (* Remove the camliPath:name attribute from the directory permanode. *)
  let claim := NewDelAttributeClaim (d_permanode d) ("camliPath:" +:+ name) in
  err <- UploadAndSignBlob claim ;;
  match err with
  | Some _ => log_Printf "mutDir.Create:" ;; ret (Some EIO)
  | None =>
      (* Remove child from map. *)
      modify_dir n (fun d => set_children (map_delete name (children d)) d) ;;
      ret None
  end.

(** [permanodeString] of a [mutFileOrDir]. *)
Definition permanodeString (c : mutFileOrDir) : M World string :=
  match c with
  | DirNode a => d <- get_dir a ;; ret (BlobRef_String (d_permanode d))
  | FileNode a => f <- get_file a ;; ret (BlobRef_String (f_permanode f))
  end.

Definition Rename (n : addr) (req : RenameRequest) (newDir : fuse_Node)
  : M World (option fuse_Error) :=
  match newDir with
  | MutNode (DirNode n2) =>
      e <- populate n ;;
      match e with
      | Some _ => log_Printf "*mutDir.Rename src dir populate = %v" ;; ret (Some EIO)
      | None =>
      e2 <- populate n2 ;;
      match e2 with
      | Some _ => log_Printf "*mutDir.Rename dst dir populate = %v" ;; ret (Some EIO)
      | None =>
      d <- get_dir n ;;
      match map_index (children d) (OldName req) with
      | None => log_Printf "*mutDir.Rename src name %q isn't known" ;; ret (Some ENOENT)
      | Some target =>
      now <- Now ;;
      (* Add a camliPath:name attribute to the dest permanode before
         unlinking it from the source. *)
      d2 <- get_dir n2 ;;
      ps <- permanodeString target ;;
      let claim := SetClaimDate now
                     (NewSetAttributeClaim (d_permanode d2)
                        ("camliPath:" +:+ NewName req) ps) in
      err <- UploadAndSignBlob claim ;;
      match err with
      | Some _ => log_Printf "Upload rename link error: %v" ;; ret (Some EIO)
      | None =>
      let delClaim := SetClaimDate now
                        (NewDelAttributeClaim (d_permanode d)
                           ("camliPath:" +:+ OldName req)) in
      err <- UploadAndSignBlob delClaim ;;
      match err with
      | Some _ => log_Printf "Upload rename src unlink error: %v" ;; ret (Some EIO)
      | None =>
      d <- get_dir n ;;
      if decide (map_index (children d) (OldName req) = Some target) then
        modify_dir n (fun d => set_children (map_delete (OldName req) (children d)) d) ;;
        assign_child n2 (NewName req) target ;;
        ret None
      else panic "Race."
      end end end end end
  | _ =>
      log_Printf "*mutDir newDir node isn't a *mutDir; is a %T; can't handle. returning EIO." ;;
      ret (Some EIO)
  end.

(** ** mutFile *)

Definition modTime (n : addr) : M World Time :=
  f <- get_file n ;;
  if negb (Time_IsZero (mtime f)) then ret (mtime f)
  else ret (serverStart env).

Definition accessTime (n : addr) : M World Time :=
  f <- get_file n ;;
  if negb (Time_IsZero (atime f)) then ret (atime f)
  else modTime n.

Definition mutFile_Attr (n : addr) : M World fuse_Attr :=
  let mode := 384 (* 0600, writable *) in
  f <- get_file n ;;
  let size := size f in
  let blocks := if 0 <? size then to_uint64 (to_uint64 size / 512 + 1) else 0 in
  let inode := AsUint64 (f_permanode f) in
  let mode := if symLink f then Z.lor mode ModeSymlink else mode in
  mt <- modTime n ;;
  at_ <- accessTime n ;;
  ret {| Inode := inode;
         Mode := mode;
         Uid := Getuid env mod 2 ^ 32;
         Gid := Getgid env mod 2 ^ 32;
         a_Size := to_uint64 size;
         Blocks := blocks;
         Mtime := mt;
         Atime := at_;
         Ctime := serverStart env;
         Crtime := serverStart env |}.

(** [setContent]: the result is the Go [error] of the claim upload. *)
Definition setContent (n : addr) (br : option BlobRef) (sz : Z) : M World (option error) :=
  modify_file n (set_content_size br sz) ;;
  f <- get_file n ;;
  let claim := NewSetAttributeClaim (f_permanode f) "camliContent" (BlobRef_String br) in
  UploadAndSignBlob claim.

Definition setSizeAtLeast (n : addr) (sz : Z) : M World unit :=
  f <- get_file n ;;
  log_Printf "mutFile.setSizeAtLeast(%d). old size = %d" ;;
  if size f <? sz then modify_file n (set_size sz)
  else ret tt.

(** [newHandle]: [body] is what the reader yields, [None] for a nil
    reader. The result is the new [*mutFileHandle] or the [fuse.Error]. *)
Definition newHandle (n : addr) (body : option (list Byte.byte))
  : M World (fuse_Error + addr) :=
  r <- TempFile ;;
  let '(tmp, err) := r in
  err <- match err, body with
         | None, Some b => Copy tmp b
         | _, _ => ret err
         end ;;
  match err with
  | Some _ =>
      log_Printf "mutFile.newHandle: %v" ;;
      match tmp with
      | Some t => Close t ;; os_Remove t
      | None => ret tt
      end ;;
      ret (inl EIO)
  | None =>
      h <- new_mutFileHandle {| h_f := n; h_tmp := tmp |} ;;
      ret (inr h)
  end.

(** ** mutFileHandle *)

Definition Release (h : addr) : M World (option fuse_Error) :=
  hd <- get_handle h ;;
  match h_tmp hd with
  | None =>
      log_Printf "Release called on camli mutFileHandle without a tempfile set" ;;
      ret (Some EIO)
  | Some t =>
      log_Printf "mutFileHandle release." ;;
      err <- Seek0 t ;;
      match err with
      | Some _ => log_Printf "mutFileHandle.Release:" ;; ret (Some EIO)
      | None =>
          f <- get_file (h_f hd) ;;
          r <- WriteFileFromReader (f_name f) t ;;
          match r with
          | inl _ => log_Printf "mutFileHandle.Release:" ;; ret (Some EIO)
          | inr (br, n) =>
              _ <- setContent (h_f hd) br n ;;
              Close t ;;
              os_Remove t ;;
              modify_handle h (set_tmp None) ;;
              ret None
          end
      end
  end.

End WithEnv.

(** ** Observations on a world *)

(** The children map of the directory at [n] ([None] for nil, or when
    there is no such directory). *)
Definition children_of (w : World) (n : addr) : option (gmap string mutFileOrDir) :=
  dirs w !! n ≫= children.

(** [n.children[name]] in world [w]. *)
Definition child_of (w : World) (n : addr) (name : string) : option mutFileOrDir :=
  map_index (children_of w n) name.

Definition lastPop_of (w : World) (n : addr) : option Time :=
  lastPop <$> dirs w !! n.

Definition size_of (w : World) (n : addr) : option Z :=
  size <$> files w !! n.

Definition content_of (w : World) (n : addr) : option (option BlobRef) :=
  content <$> files w !! n.

(** The handle at [h] is released: its [tmp] is nil. *)
Definition released (w : World) (h : addr) : Prop :=
  exists hd, handles w !! h = Some hd /\ h_tmp hd = None.

(** The scratch file [t] is closed and gone from the temp directory. *)
Definition scratch_freed (w : World) (t : addr) : Prop :=
  exists f, tmpfiles w !! t = Some f /\ is_open f = false /\ is_linked f = false.

(** The scratch file [t] is still open and still in the temp directory. *)
Definition scratch_leaked (w : World) (t : addr) : Prop :=
  exists f, tmpfiles w !! t = Some f /\ is_open f = true /\ is_linked f = true.

(** The node [c] does not exist in [w]: it is allocated later. *)
Definition is_new (w : World) (c : mutFileOrDir) : Prop :=
  match c with
  | DirNode a => dirs w !! a = None
  | FileNode a => files w !! a = None
  end.

(** The response [res] describes [childRef] well enough for [populate] to
    make a node for it: the child is described as a permanode, and it is
    a symlink, or a file whose content is described as a file, or neither
    (then it is taken for a directory). *)
Definition described_as_node (res : DescribeResponse) (childRef : string) : bool :=
  match Meta res !! childRef with
  | None => false
  | Some child =>
      match Permanode child with
      | None => false
      | Some cp =>
          if negb (String.eqb (Values_Get (Attr cp) "camliSymlinkTarget") "") then true
          else if negb (String.eqb (Values_Get (Attr cp) "camliContent") "") then
            match Meta res !! Values_Get (Attr cp) "camliContent" with
            | None => false
            | Some content =>
                String.eqb (CamliType content) "file" && bool_decide (is_Some (File content))
            end
          else true
      end
  end.

(** [populate] is due at time [now]: the last one is at least
    [populateInterval] old, so this call describes. *)
Definition populate_due (d : mutDir) (now : Time) : Prop :=
  Time_After (Time_Add (lastPop d) populateInterval) now = false.

(** From [w] to [w1] nothing was sent out, no time has passed on the
    call counter, and no handle or scratch file was touched. *)
Definition same_outside (w w1 : World) : Prop :=
  handles w1 = handles w /\ tmpfiles w1 = tmpfiles w /\ tick w1 = tick w /\
  described w1 = described w /\ signed w1 = signed w.

(** Every file node of [w], and every directory node of [w] other than
    [n], is in [w1] as it was. *)
Definition extends (n : addr) (w w1 : World) : Prop :=
  (forall b x, files w !! b = Some x -> files w1 !! b = Some x) /\
  (forall b x, b <> n -> dirs w !! b = Some x -> dirs w1 !! b = Some x).

(** [c.permanodeString()] in world [w], when the node exists. *)
Definition permanode_of (w : World) (c : mutFileOrDir) : option string :=
  match c with
  | DirNode a => (fun d => BlobRef_String (d_permanode d)) <$> dirs w !! a
  | FileNode a => (fun f => BlobRef_String (f_permanode f)) <$> files w !! a
  end.

(** A run of [setSizeAtLeast] calls on one file, for sizes [ns] in turn. *)
Definition setSizeAtLeast_all (n : addr) (ns : list Z) : M World unit :=
  forM_ ns (setSizeAtLeast n).


(** ** The other operations of mut.go *)

(** Modelled from the spec: package [fuse] is not among the sources. The
    bits of a [SetattrRequest]'s valid-mask that mut.go tests and the
    direct-I/O bit of an open response are taken as given. *)
Record FuseConsts := {
  SetattrSize : Z;
  SetattrAtime : Z;
  SetattrMtime : Z;
  OpenDirectIO : Z;
}.

(** Further answers from outside the process, for the calls the
    operations below make: the new permanode (the [BlobRef] of the put
    result) or an error; the bytes a file reader over a content blob
    yields, or an error; and whether a read, a write (after how many
    bytes) or a truncate of a scratch file fails. Indexed by [tick], like
    [Env]. *)
Record EnvIO := {
  client_UploadNewPermanode : nat -> error + option BlobRef;
  schema_NewFileReader : nat -> option BlobRef -> error + list Byte.byte;
  file_ReadAt : nat -> option error;
  file_WriteAt : nat -> option (nat * error);
  file_Truncate : nat -> option error;
}.

Inductive nodeType := fileType | dirType | symlinkType.

(** [os.ModeDir] *)
Definition ModeDir : Z := Z.shiftl 1 31.

(** The errors of a read: [io.EOF] or another one. *)
Inductive read_error :=
  | io_EOF
  | io_failed (e : error).

Record Dirent := { Name : string; Dirent_Inode : Z }.

Record SetattrRequest := {
  Valid : Z;
  req_Size : Z;
  req_Atime : Time;
  req_Mtime : Time;
}.

(** A [fuse.Handle] as [Open] returns it: a read-only reader over a
    content blob (a [nodeReader], which is not of this file), or a
    [*mutFileHandle]. *)
Inductive fuse_Handle :=
  | NodeReader (content : option BlobRef) (fr : list Byte.byte)
  | MutFileHandle (h : addr).

(** Modelled from the spec: the counters [mutFileOpen], [mutFileOpenError],
    [mutFileOpenRO] and [mutFileOpenRW] are declared outside the sources;
    they are increment-only counters for the open paths. *)
Record Stats := {
  mutFileOpen : nat;
  mutFileOpenError : nat;
  mutFileOpenRO : nat;
  mutFileOpenRW : nat;
}.

Definition set_symlink (t : string) (f : mutFile) : mutFile :=
  {| f_permanode := f_permanode f; f_parent := f_parent f; f_name := f_name f;
     symLink := true; target := t; content := content f; size := size f;
     mtime := mtime f; atime := atime f |}.
Definition set_mtime (t : Time) (f : mutFile) : mutFile :=
  {| f_permanode := f_permanode f; f_parent := f_parent f; f_name := f_name f;
     symLink := symLink f; target := target f; content := content f; size := size f;
     mtime := t; atime := atime f |}.
Definition set_atime (t : Time) (f : mutFile) : mutFile :=
  {| f_permanode := f_permanode f; f_parent := f_parent f; f_name := f_name f;
     symLink := symLink f; target := target f; content := content f; size := size f;
     mtime := mtime f; atime := t |}.
Definition set_file_data (bs : list Byte.byte) (f : osFile) : osFile :=
  {| is_open := is_open f; is_linked := is_linked f; data := bs; offset := offset f |}.

(** [k] zero bytes: what a file is filled with where nothing was
    written. *)
Definition zeros (k : nat) : list Byte.byte := replicate k Byte.x00.

(** The bytes of a file after [bs] was written at offset [off]; writing
    nothing changes nothing. *)
Definition write_at (off : nat) (bs data : list Byte.byte) : list Byte.byte :=
  match bs with
  | [] => data
  | _ => take off data ++ zeros (off - length data) ++ bs ++ drop (off + length bs) data
  end.

(** The bytes of a file cut or zero-filled to length [k]. *)
Definition resize (k : nat) (data : list Byte.byte) : list Byte.byte :=
  take k data ++ zeros (k - length data).

(** [for _, x := range l { ys = append(ys, f x) }] *)
Fixpoint mapM {W A B} (f : A -> M W B) (l : list A) : M W (list B) :=
  match l with
  | [] => ret []
  | x :: rest => y <- f x ;; ys <- mapM f rest ;; ret (y :: ys)
  end.

(** [defer d] around [c]: [d] runs when [c] has returned and also when it
    has panicked. *)
Definition deferring {W A} (d : M W unit) (c : M W A) : M W A := fun w =>
  let '(r, w1) := c w in
  let '(_, w2) := d w1 in
  (r, w2).

Section MoreOps.
Context (env : Env) (io : EnvIO) (fc : FuseConsts).

(** *** Calls out of the process *)

Definition UploadNewPermanode : M World (error + option BlobRef) :=
  fun w => (Ok (client_UploadNewPermanode io (tick w)), next_tick w).

Definition NewFileReader (br : option BlobRef) : M World (error + list Byte.byte) :=
  fun w => (Ok (schema_NewFileReader io (tick w) br), next_tick w).

(** [tmp.ReadAt(buf, off)] for a buffer of [sz] bytes: the bytes read and
    the error. Short of [sz] bytes the error is [io.EOF]; an empty buffer
    reads nothing without error; a negative offset or a closed file is an
    error. *)
Definition ReadAt (t : addr) (sz : nat) (off : Z)
  : M World (list Byte.byte * option read_error) :=
  f <- (fun w => deref (tmpfiles w !! t) w) ;;
  fun w =>
    if (off <? 0) || negb (is_open f) then
      (Ok ([], Some (io_failed "invalid argument")), next_tick w)
    else
      match file_ReadAt io (tick w) with
      | Some e => (Ok ([], Some (io_failed e)), next_tick w)
      | None =>
          let bs := take sz (drop (Z.to_nat off) (data f)) in
          (Ok (bs, if (length bs <? sz)%nat then Some io_EOF else None), next_tick w)
      end.

(** [tmp.WriteAt(bs, off)]: the number of bytes written and the error. *)
Definition WriteAt (t : addr) (bs : list Byte.byte) (off : Z)
  : M World (nat * option error) :=
  f <- (fun w => deref (tmpfiles w !! t) w) ;;
  fun w =>
    if (off <? 0) || negb (is_open f) then
      (Ok (O, Some "invalid argument"), next_tick w)
    else
      match file_WriteAt io (tick w) with
      | Some (k, e) =>
          let written := take k bs in
          (Ok (length written, Some e),
           next_tick (with_tmpfiles
             (alter (fun f => set_file_data (write_at (Z.to_nat off) written (data f)) f) t) w))
      | None =>
          (Ok (length bs, None),
           next_tick (with_tmpfiles
             (alter (fun f => set_file_data (write_at (Z.to_nat off) bs (data f)) f) t) w))
      end.

(** [tmp.Truncate(size)] for an [int64] size. *)
Definition File_Truncate (t : addr) (sz : Z) : M World (option error) :=
  f <- (fun w => deref (tmpfiles w !! t) w) ;;
  fun w =>
    if (sz <? 0) || negb (is_open f) then (Ok (Some "invalid argument"), next_tick w)
    else
      match file_Truncate io (tick w) with
      | Some e => (Ok (Some e), next_tick w)
      | None =>
          (Ok None,
           next_tick (with_tmpfiles
             (alter (fun f => set_file_data (resize (Z.to_nat sz) (data f)) f) t) w))
      end.

(** *** mutDir *)

Definition mutDir_Attr (n : addr) : M World fuse_Attr :=
  d <- get_dir n ;;
  ret {| Inode := AsUint64 (d_permanode d);
         Mode := Z.lor ModeDir 448 (* 0700 *);
         Uid := Getuid env mod 2 ^ 32;
         Gid := Getgid env mod 2 ^ 32;
         a_Size := 0;
         Blocks := 0;
         Mtime := 0;
         Atime := 0;
         Ctime := 0;
         Crtime := 0 |}.

(** [c.Attr()] for a child [c], a [*mutDir] or a [*mutFile]. *)
Definition node_Attr (c : mutFileOrDir) : M World fuse_Attr :=
  match c with
  | DirNode a => mutDir_Attr a
  | FileNode a => mutFile_Attr env a
  end.

(** The inode [ReadDir] reports for a child. *)
Definition child_inode (c : mutFileOrDir) : M World Z :=
  match c with
  | DirNode a => d <- get_dir a ;; ret (AsUint64 (d_permanode d))
  | FileNode a => f <- get_file a ;; ret (AsUint64 (f_permanode f))
  end.

(** [ReadDir]: [range] over the children map visits the entries in an
    order of its own choosing; here it is the order of [map_to_list]. *)
Definition ReadDir (n : addr) : M World (fuse_Error + list Dirent) :=
  e <- populate env n ;;
  match e with
  | Some _ => log_Printf "populate:" ;; ret (inl EIO)
  | None =>
      d <- get_dir n ;;
      ents <- mapM (fun '(name, childNode) =>
                      ino <- child_inode childNode ;;
                      log_Printf "mutDir(%q) appending inode %x, %+v" ;;
                      ret {| Name := name; Dirent_Inode := ino |})
                   (map_to_list (default ∅ (children d))) ;;
      ret (inr ents)
  end.

Definition Lookup (n : addr) (name : string) : M World (fuse_Error + mutFileOrDir) :=
  deferring (log_Printf "mutDir(%q).Lookup(%q) = %#v, %v")
    (e <- populate env n ;;
     match e with
     | Some _ => log_Printf "populate:" ;; ret (inl EIO)
     | None =>
         d <- get_dir n ;;
         match map_index (children d) name with
         | Some n2 => ret (inr n2)
         | None => ret (inl ENOENT)
         end
     end).

Definition creat (n : addr) (name : string) (typ : nodeType)
  : M World (error + mutFileOrDir) :=
  d <- get_dir n ;;
  (* Create a Permanode for the file/directory. *)
  pr <- UploadNewPermanode ;;
  match pr with
  | inl e => ret (inl e)
  | inr br =>
      (* Add a camliPath:name attribute to the directory permanode. *)
      let claim := NewSetAttributeClaim (d_permanode d) ("camliPath:" +:+ name)
                     (BlobRef_String br) in
      err <- UploadAndSignBlob env claim ;;
      match err with
      | Some e => ret (inl e)
      | None =>
          (* Add a child node to this node. *)
          child <- match typ with
                   | dirType =>
                       a <- new_mutDir {| d_permanode := br; d_parent := Some n;
                                          d_name := name; lastPop := 0;
                                          children := None |} ;;
                       ret (DirNode a)
                   | fileType | symlinkType =>
                       a <- new_mutFile {| f_permanode := br; f_parent := Some n;
                                           f_name := name; symLink := false; target := "";
                                           content := None; size := 0;
                                           mtime := 0; atime := 0 |} ;;
                       ret (FileNode a)
                   end ;;
          make_children n ;;
          assign_child n name child ;;
          ret (inr child)
      end
  end.

(** The type assertion of a child to [*mutFile]: it panics on a
    [*mutDir]. *)
Definition as_mutFile (c : mutFileOrDir) : M World addr :=
  match c with
  | FileNode a => ret a
  | DirNode _ => panic "interface conversion: fuse.Node is *fs.mutDir, not *fs.mutFile"
  end.

(** [Create]: on success the node, the handle and the flags of the open
    response, given the flags it had. *)
Definition Create (n : addr) (name : string) (res_Flags : Z)
  : M World (fuse_Error + (mutFileOrDir * addr * Z)) :=
  r <- creat n name fileType ;;
  match r with
  | inl _ => log_Printf "mutDir.Create(%q): %v" ;; ret (inl EIO)
  | inr child =>
      (* Create and return a file handle. *)
      mf <- as_mutFile child ;;
      h <- newHandle env mf None ;;
      match h with
      | inl ferr => ret (inl ferr)
      | inr h => ret (inr (child, h, Z.ldiff res_Flags (OpenDirectIO fc)))
      end
  end.

Definition Mkdir (n : addr) (name : string) : M World (fuse_Error + mutFileOrDir) :=
  r <- creat n name dirType ;;
  match r with
  | inl _ => log_Printf "mutDir.Mkdir(%q): %v" ;; ret (inl EIO)
  | inr child => ret (inr child)
  end.

Definition Symlink (n : addr) (newName target : string)
  : M World (fuse_Error + mutFileOrDir) :=
  r <- creat n newName symlinkType ;;
  match r with
  | inl _ => log_Printf "mutDir.Symlink(%q): %v" ;; ret (inl EIO)
  | inr node =>
      mf <- as_mutFile node ;;
      modify_file mf (set_symlink target) ;;
      f <- get_file mf ;;
      let claim := NewSetAttributeClaim (f_permanode f) "camliSymlinkTarget" target in
      err <- UploadAndSignBlob env claim ;;
      match err with
      | Some _ => log_Printf "mutDir.Symlink(%q) upload error: %v" ;; ret (inl EIO)
      | None => ret (inr node)
      end
  end.

(** *** mutFile *)

Definition Readlink (n : addr) : M World (fuse_Error + string) :=
  f <- get_file n ;;
  if negb (symLink f) then
    log_Printf "mutFile.Readlink on node that's not a symlink?" ;; ret (inl EIO)
  else ret (inr (target f)).

(** [Setattr] never fails; the result is the response: the validity of
    the attributes and the attributes. *)
Definition Setattr (n : addr) (req : SetattrRequest) : M World (Z * fuse_Attr) :=
  log_Printf "mutFile.Setattr on %q: %#v" ;;
  (if negb (Z.land (Valid req) (SetattrMtime fc) =? 0)
   then modify_file n (set_mtime (req_Mtime req)) else ret tt) ;;
  (if negb (Z.land (Valid req) (SetattrAtime fc) =? 0)
   then modify_file n (set_atime (req_Atime req)) else ret tt) ;;
  (if negb (Z.land (Valid req) (SetattrSize fc) =? 0)
   then modify_file n (set_size (wrap64 (req_Size req))) else ret tt) ;;
  a <- mutFile_Attr env n ;;
  ret (60 * Second, a).

Definition Fsync (n : addr) : M World (option fuse_Error) :=
  log_Printf "mutFile.Fsync: TODO" ;; ret None.

(** *** mutFileHandle *)

Definition Read (h : addr) (sz : Z) (off : Z) : M World (fuse_Error + list Byte.byte) :=
  hd <- get_handle h ;;
  match h_tmp hd with
  | None =>
      log_Printf "Read called on camli mutFileHandle without a tempfile set" ;;
      ret (inl EIO)
  | Some t =>
      if sz <? 0 then panic "makeslice: len out of range"
      else
        r <- ReadAt t (Z.to_nat sz) off ;;
        let '(bs, err) := r in
        let err := match err with Some io_EOF => None | _ => err end in
        match err with
        | Some _ => log_Printf "mutFileHandle.Read: %v" ;; ret (inl EIO)
        | None => ret (inr bs)
        end
  end.

(** [Write]: on success the [Size] of the response. *)
Definition Write (h : addr) (bs : list Byte.byte) (off : Z) : M World (fuse_Error + nat) :=
  hd <- get_handle h ;;
  match h_tmp hd with
  | None =>
      log_Printf "Write called on camli mutFileHandle without a tempfile set" ;;
      ret (inl EIO)
  | Some t =>
      r <- WriteAt t bs off ;;
      let '(n, err) := r in
      log_Printf "mutFileHandle.Write(%q, at %d, flags %v, %q) = %d, %v" ;;
      match err with
      | Some _ => log_Printf "mutFileHandle.Write:" ;; ret (inl EIO)
      | None =>
          setSizeAtLeast (h_f hd) (wrap64 (off + Z.of_nat n)) ;;
          ret (inr n)
      end
  end.

(** [Truncate] for a [uint64] size. *)
Definition Truncate (h : addr) (sz : Z) : M World (option fuse_Error) :=
  hd <- get_handle h ;;
  match h_tmp hd with
  | None =>
      log_Printf "Truncate called on camli mutFileHandle without a tempfile set" ;;
      ret (Some EIO)
  | Some t =>
      log_Printf "mutFileHandle.Truncate(%q) to size %d" ;;
      err <- File_Truncate t (wrap64 sz) ;;
      match err with
      | Some _ => log_Printf "mutFileHandle.Truncate:" ;; ret (Some EIO)
      | None => ret None
      end
  end.

(** *** Open, with its counters *)

Definition lift {A} (c : M World A) : M (World * Stats) A := fun ws =>
  let '(r, w') := c ws.1 in (r, (w', ws.2)).

Definition Incr (f : Stats -> Stats) : M (World * Stats) unit :=
  fun ws => (Ok tt, (ws.1, f ws.2)).

Definition incr_Open (s : Stats) : Stats :=
  {| mutFileOpen := S (mutFileOpen s); mutFileOpenError := mutFileOpenError s;
     mutFileOpenRO := mutFileOpenRO s; mutFileOpenRW := mutFileOpenRW s |}.
Definition incr_OpenError (s : Stats) : Stats :=
  {| mutFileOpen := mutFileOpen s; mutFileOpenError := S (mutFileOpenError s);
     mutFileOpenRO := mutFileOpenRO s; mutFileOpenRW := mutFileOpenRW s |}.
Definition incr_OpenRO (s : Stats) : Stats :=
  {| mutFileOpen := mutFileOpen s; mutFileOpenError := mutFileOpenError s;
     mutFileOpenRO := S (mutFileOpenRO s); mutFileOpenRW := mutFileOpenRW s |}.
Definition incr_OpenRW (s : Stats) : Stats :=
  {| mutFileOpen := mutFileOpen s; mutFileOpenError := mutFileOpenError s;
     mutFileOpenRO := mutFileOpenRO s; mutFileOpenRW := S (mutFileOpenRW s) |}.

(** [Open]: on success the handle and the flags of the response, given
    the flags of the request and those the response had. *)
Definition Open (n : addr) (req_Flags res_Flags : Z)
  : M (World * Stats) (fuse_Error + (fuse_Handle * Z)) :=
  Incr incr_Open ;;
  f <- lift (get_file n) ;;
  lift (log_Printf "mutFile.Open: %v: content: %v dir=%v flags=%v mode=%v") ;;
  r <- lift (NewFileReader (content f)) ;;
  match r with
  | inl _ =>
      Incr incr_OpenError ;;
      lift (log_Printf "mutFile.Open: %v") ;;
      ret (inl EIO)
  | inr body =>
      (* Turn off the OpenDirectIO bit, else append operations don't work. *)
      let flags := Z.ldiff res_Flags (OpenDirectIO fc) in
      (* Read-only. *)
      if req_Flags =? 0 then
        Incr incr_OpenRO ;;
        lift (log_Printf "mutFile.Open returning read-only file") ;;
        ret (inr (NodeReader (content f) body, flags))
      else
        Incr incr_OpenRW ;;
        lift (log_Printf "mutFile.Open returning read-write filehandle") ;;
        h <- lift (newHandle env n (Some body)) ;;
        match h with
        | inl ferr => ret (inl ferr)
        | inr h => ret (inr (MutFileHandle h, flags))
        end
  end.

End MoreOps.

(** The bytes of the scratch file of handle [h], when it has one. *)
Definition scratch_of (w : World) (h : addr) : option (list Byte.byte) :=
  hd ← handles w !! h; t ← h_tmp hd; data <$> tmpfiles w !! t.

(** The 64-bit projection of the permanode of node [c], when the node
    exists. *)
Definition inode_of (w : World) (c : mutFileOrDir) : option Z :=
  match c with
  | DirNode a => (fun d => AsUint64 (d_permanode d)) <$> dirs w !! a
  | FileNode a => (fun f => AsUint64 (f_permanode f)) <$> files w !! a
  end.

(** The handle [h] is open on a scratch file that is open. *)
Definition handle_open (w : World) (h : addr) : Prop :=
  exists hd t tf, handles w !! h = Some hd /\ h_tmp hd = Some t /\
                  tmpfiles w !! t = Some tf /\ is_open tf = true.

End WithBlobref.
End Fs.

(** * Concrete inputs *)

(** A model of package [blobref] and a few small worlds, used to run the
    code on concrete inputs. *)
Module FsExamples.
Import Fs.
Local Open Scope string_scope.

(** Blob references as their serialized form; the empty string does not
    parse. *)
Definition string_blobref : Blobref :=
  {| BlobRef := string;
     Parse := fun s => if String.eqb s "" then None else Some s;
     BlobRef_String := fun p => match p with Some s => s | None => "<nil>" end;
     AsUint64 := fun p => match p with
                          | Some s => Z.of_nat (String.length s)
                          | None => 0%Z
                          end |}.
#[local] Existing Instance string_blobref.

Definition now0 : Time := (100 * Second)%Z.

(** An environment in which the clock always reads [now0] and the calls
    out of the process answer as given. *)
Definition mk_env (describe : error + DescribeResponse) (sign : option error)
    (upload : error + option BlobRef) (seek : option error) : Env :=
  {| serverStart := 9%Z;
     Getuid := 1000%Z;
     Getgid := 1000%Z;
     time_Now := fun _ => now0;
     client_Describe := fun _ _ => describe;
     client_UploadAndSignBlob := fun _ _ => sign;
     schema_WriteFileFromReader := fun _ _ _ => upload;
     ioutil_TempFile := fun _ => None;
     io_Copy := fun _ _ => None;
     file_Seek := fun _ => seek |}.

Definition permanode_blob (attr : Values) : DescribedBlob :=
  {| CamliType := "permanode"; Permanode := Some {| Attr := attr |}; File := None |}.

Definition file_blob (sz : Z) : DescribedBlob :=
  {| CamliType := "file"; Permanode := None; File := Some {| Size := sz |} |}.

(** The store's view of the directory [sha1-dir]: one entry [x], a file
    of three bytes. *)
Definition res_x : DescribeResponse :=
  {| Meta := {[ "sha1-dir" := permanode_blob [("camliPath:x", ["sha1-x"])];
                "sha1-x" := permanode_blob [("camliContent", ["sha1-old"])];
                "sha1-old" := file_blob 3 ]} |}.

Definition file_node (name : string) (sz : Z) (mt at_ : Time) : mutFile :=
  {| f_permanode := Some "sha1-x"; f_parent := Some 1%positive; f_name := name;
     symLink := false; target := ""; content := None; size := sz;
     mtime := mt; atime := at_ |}.

Definition dir_with (last : Time) (name : string) : mutDir :=
  {| d_permanode := Some "sha1-dir"; d_parent := None; d_name := "";
     lastPop := last;
     children := Some {[ name := FileNode 1%positive ]} |}.

(** One directory (address 1) holding one file node (address 1) under
    [name]; the file has [sz] bytes written locally, and a write handle
    (address 1) with scratch file (address 1) is open on it. *)
Definition world_with (last : Time) (name : string) (sz : Z) : World :=
  {| dirs := {[ 1%positive := dir_with last name ]};
     files := {[ 1%positive := file_node name sz 0 0 ]};
     handles := {[ 1%positive := {| h_f := 1%positive; h_tmp := Some 1%positive |} ]};
     tmpfiles := {[ 1%positive := {| is_open := true; is_linked := true;
                                     data := [Byte.x68; Byte.x65; Byte.x6c; Byte.x6c; Byte.x6f];
                                     offset := 5 |} ]};
     tick := 0;
     described := [];
     signed := [];
     logged := [] |}.

(** Never populated: the next [populate] describes. *)
Definition w_stale : World := world_with 0 "x" 5.

(** Populated just now: [populate] returns at once. *)
Definition w_recent : World := world_with now0 "a" 5.

Definition env_described : Env := mk_env (inr res_x) None (inr (Some "sha1-new")) None.
Definition env_describe_fails : Env :=
  mk_env (inl "describe: connection refused") None (inr (Some "sha1-new")) None.
Definition env_sign_fails : Env :=
  mk_env (inr res_x) (Some "sign: connection refused") (inr (Some "sha1-new")) None.
Definition env_upload_fails : Env :=
  mk_env (inr res_x) None (inl "upload: connection refused") None.
Definition env_seek_fails : Env :=
  mk_env (inr res_x) None (inr (Some "sha1-new")) (Some "seek: bad file descriptor").

(** The file's mtime was set to 5; its atime never was. *)
Definition w_mtime_only : World :=
  {| dirs := {[ 1%positive := dir_with 0 "x" ]};
     files := {[ 1%positive := file_node "x" 5 5 0 ]};
     handles := ∅;
     tmpfiles := ∅;
     tick := 0;
     described := [];
     signed := [];
     logged := [] |}.

(** The file's atime was set to 7; its mtime never was. *)
Definition w_atime_only : World :=
  {| dirs := {[ 1%positive := dir_with 0 "x" ]};
     files := {[ 1%positive := file_node "x" 5 0 7 ]};
     handles := ∅;
     tmpfiles := ∅;
     tick := 0;
     described := [];
     signed := [];
     logged := [] |}.

(** As [w_recent], but the file node says 7 bytes while the scratch file
    holds 5 (seven bytes were written, then the handle was truncated). *)
Definition w_truncated : World := world_with now0 "a" 7.

(** The describe request [populate] makes for the directory. *)
Definition req_dir : DescribeRequest :=
  {| req_BlobRef := Some "sha1-dir"; Depth := 3 |}.

(** The two claims of renaming [a] to [b] inside the directory, dated
    [now0]. *)
Definition claim_link : Claim :=
  {| claimType := SetAttribute; claimPermanode := Some "sha1-dir";
     attribute := "camliPath:b"; value := "sha1-x"; claimDate := Some now0 |}.
Definition claim_unlink : Claim :=
  {| claimType := DelAttribute; claimPermanode := Some "sha1-dir";
     attribute := "camliPath:a"; value := ""; claimDate := Some now0 |}.

(** The bits of the FUSE protocol. *)
Definition fuse_consts : FuseConsts :=
  {| SetattrSize := 8; SetattrAtime := 16; SetattrMtime := 32; OpenDirectIO := 1 |}.

Definition hello : list Byte.byte := [Byte.x68; Byte.x65; Byte.x6c; Byte.x6c; Byte.x6f].

(** Answers for the further calls: scratch files never fail; the new
    permanode and the file reader answer as given. *)
Definition mk_io (permanode : error + option BlobRef) (reader : error + list Byte.byte)
  : EnvIO :=
  {| client_UploadNewPermanode := fun _ => permanode;
     schema_NewFileReader := fun _ _ => reader;
     file_ReadAt := fun _ => None;
     file_WriteAt := fun _ => None;
     file_Truncate := fun _ => None |}.

Definition io_ok : EnvIO := mk_io (inr (Some "sha1-y")) (inr hello).
Definition io_fails : EnvIO :=
  mk_io (inl "put: connection refused") (inl "fetch: connection refused").

(** Every write to a scratch file stops after two bytes. *)
Definition io_short_write : EnvIO :=
  {| client_UploadNewPermanode := fun _ => inr (Some "sha1-y");
     schema_NewFileReader := fun _ _ => inr hello;
     file_ReadAt := fun _ => None;
     file_WriteAt := fun _ => Some (2%nat, "write: no space left on device");
     file_Truncate := fun _ => None |}.

(** As [w_recent], after the handle was released: its [tmp] is nil and
    the scratch file closed and removed. *)
Definition w_released : World :=
  with_tmpfiles (fun _ => {[ 1%positive := {| is_open := false; is_linked := false;
                                              data := hello; offset := 5 |} ]})
    (with_handles (fun _ => {[ 1%positive := {| h_f := 1%positive; h_tmp := None |} ]})
       w_recent).

(** The third call out of the process, a claim upload, fails; the others
    succeed. *)
Definition env_third_call_fails : Env :=
  {| serverStart := 9%Z;
     Getuid := 1000%Z;
     Getgid := 1000%Z;
     time_Now := fun _ => now0;
     client_Describe := fun _ _ => inr res_x;
     client_UploadAndSignBlob := fun t _ =>
       if (t =? 2)%nat then Some "sign: connection refused" else None;
     schema_WriteFileFromReader := fun _ _ _ => inr (Some "sha1-new");
     ioutil_TempFile := fun _ => None;
     io_Copy := fun _ _ => None;
     file_Seek := fun _ => None |}.

(** The directory of [w_recent] with a second entry ["sub"], a
    directory (address 2) as [Mkdir] leaves it: its children map nil,
    last populated at [last], never when that is zero. *)
Definition dir_top : mutDir :=
  {| d_permanode := Some "sha1-dir"; d_parent := None; d_name := "";
     lastPop := now0;
     children := Some {[ "a" := FileNode 1%positive; "sub" := DirNode 2%positive ]} |}.
Definition dir_sub (last : Time) : mutDir :=
  {| d_permanode := Some "sha1-sub"; d_parent := Some 1%positive;
     d_name := "sub"; lastPop := last; children := None |}.
Definition w_subdir : World :=
  with_dirs (fun _ => {[ 1%positive := dir_top; 2%positive := dir_sub 0 ]}) w_recent.

(** No temp file can be made. *)
Definition env_tempfile_fails : Env :=
  {| serverStart := 9%Z;
     Getuid := 1000%Z;
     Getgid := 1000%Z;
     time_Now := fun _ => now0;
     client_Describe := fun _ _ => inr res_x;
     client_UploadAndSignBlob := fun _ _ => None;
     schema_WriteFileFromReader := fun _ _ _ => inr (Some "sha1-new");
     ioutil_TempFile := fun _ => Some "open /tmp/camli-1: too many open files";
     io_Copy := fun _ _ => None;
     file_Seek := fun _ => None |}.

Definition no_opens : Stats :=
  {| mutFileOpen := 0; mutFileOpenError := 0; mutFileOpenRO := 0; mutFileOpenRW := 0 |}.

End FsExamples.

(** * Properties *)

(** ** Machine integers *)

Lemma wrap64_id z : int64_range z -> wrap64 z = z.
Proof.
  unfold int64_range, wrap64. intros Hz.
  rewrite Z.mod_small by lia. lia.
Qed.

Lemma wrap64_to_uint64 z : int64_range z -> wrap64 (to_uint64 z) = z.
Proof.
  unfold int64_range, wrap64, to_uint64. intros Hz.
  destruct (Z_lt_le_dec z 0) as [Hneg | Hpos].
  - replace (z mod 2 ^ 64) with (z + 2 ^ 64).
    + replace (z + 2 ^ 64 + 2 ^ 63) with (z + 2 ^ 63 + 1 * 2 ^ 64) by lia.
      rewrite Z.mod_add by lia. rewrite Z.mod_small by lia. lia.
    + apply Z.mod_unique with (q := -1); lia.
  - rewrite (Z.mod_small z) by lia. rewrite Z.mod_small by lia. lia.
Qed.

Lemma to_uint64_nonneg z : 0 <= z -> int64_range z -> to_uint64 z = z.
Proof.
  unfold int64_range, to_uint64. intros H0 Hz.
  apply Z.mod_small. lia.
Qed.

(** ** The directory lock registry *)

Module LocaldiskSpec.
Import Localdisk.

(** What [getDirLock] does to the registry, by whether the directory
    already has a lock. *)
Lemma getDirLock_spec dir st mu st' :
  getDirLock dir st = (mu, st') ->
  locksOut st' = wrap64 (locksOut st + 1) /\
  dirLocks st' !! dir = Some mu /\
  (forall l, dirLocks st !! dir = Some l ->
     mu = l /\ dirLocks st' = dirLocks st /\ mutexes st' = mutexes st) /\
  (dirLocks st !! dir = None ->
     mutexes st !! mu = None /\
     dirLocks st' = <[dir := mu]> (dirLocks st) /\
     mutexes st' = <[mu := new_RWMutex]> (mutexes st)).
Proof.
  unfold getDirLock. destruct (dirLocks st !! dir) as [l|] eqn:Hl; intros [= <- <-]; simpl.
  - split; [done|]. split; [done|]. split; [|done].
    intros l' [= <-]. done.
  - split; [done|]. split; [apply lookup_insert_eq|]. split; [done|].
    intros _. split; [|done]. apply not_elem_of_dom, is_fresh.
Qed.

(** A method of a lock that goes through changes that lock and nothing
    else: neither the count nor the map nor another lock. *)
Lemma mutex_op_registry (op : lockref -> Registry -> option Registry) mu st st' :
  op = RLock \/ op = Lock \/ op = RUnlock \/ op = RWUnlock \/
  op = RLock_return \/ op = Lock_return ->
  op mu st = Some st' ->
  locksOut st' = locksOut st /\ dirLocks st' = dirLocks st /\
  dom (mutexes st') = dom (mutexes st) /\ is_Some (mutexes st !! mu) /\
  (forall l, l <> mu -> mutexes st' !! l = mutexes st !! l).
Proof.
  intros Hop Hrun.
  assert (forall m, is_Some (mutexes st !! mu) ->
            dom (<[mu := m]> (mutexes st)) = dom (mutexes st)) as Hdom.
  { intros m0 Hsome. by apply dom_insert_lookup_L. }
  assert (forall m l, l <> mu -> <[mu := m]> (mutexes st) !! l = mutexes st !! l) as Hne.
  { intros m0 l Hl. by rewrite lookup_insert_ne. }
  destruct Hop as [-> | [-> | [-> | [-> | [-> | ->]]]]];
    unfold RLock, Lock, RUnlock, RWUnlock, RLock_return, Lock_return in Hrun;
    destruct (mutexes st !! mu) as [m|] eqn:Hm; simpl in Hrun; try discriminate;
    destruct (writer m), (readers m), (blocked_readers m), (blocked_writers m);
    simpl in Hrun; try discriminate;
    injection Hrun as <-; simpl;
    (split; [done | split; [done | split; [apply Hdom | split; [|apply Hne]]]]); eauto.
Qed.

(** A call that blocks is recorded in its lock and changes nothing
    else. *)
Lemma mutex_block_registry (op : lockref -> Registry -> Registry) mu st :
  op = RLock_block \/ op = Lock_block ->
  locksOut (op mu st) = locksOut st /\ dirLocks (op mu st) = dirLocks st /\
  dom (mutexes (op mu st)) = dom (mutexes st) /\
  (forall l, l <> mu -> mutexes (op mu st) !! l = mutexes st !! l).
Proof.
  intros [-> | ->]; unfold RLock_block, Lock_block;
    destruct (mutexes st !! mu) as [m|] eqn:Hm; simpl; try done;
    (split; [done | split; [done | split]]);
    [ by apply dom_insert_lookup_L | intros l Hl; by rewrite lookup_insert_ne
    | by apply dom_insert_lookup_L | intros l Hl; by rewrite lookup_insert_ne ].
Qed.

Lemma unlockDirLock_spec st :
  locksOut (unlockDirLock st) = wrap64 (locksOut st - 1) /\
  (locksOut (unlockDirLock st) = 0 -> dirLocks (unlockDirLock st) = ∅) /\
  (locksOut (unlockDirLock st) <> 0 -> dirLocks (unlockDirLock st) = dirLocks st) /\
  mutexes (unlockDirLock st) = mutexes st.
Proof.
  unfold unlockDirLock; simpl. repeat split; intros; case_decide; done.
Qed.








Example reg_one_reader_reached :
  keepDirectoryLock "d" initial = (Some (keepLock 1%positive), reg_one_reader).
Proof. vm_compute. reflexivity. Qed.


End LocaldiskSpec.

(** ** The mutable file system *)

Module FsSpec.
Import Fs.
Local Open Scope go_scope.

(** *** Running the primitives *)

Lemma bind_Ok {W A B} (c : M W A) (k : A -> M W B) w a w1 :
  c w = (Ok a, w1) -> bind c k w = k a w1.
Proof. unfold bind. by intros ->. Qed.

(** The two ways a [bind] can have run. *)
Lemma bind_inv {W A B} (c : M W A) (k : A -> M W B) w r w' :
  bind c k w = (r, w') ->
  (exists a w1, c w = (Ok a, w1) /\ k a w1 = (r, w')) \/
  (exists msg, c w = (Panic msg, w') /\ r = Panic msg).
Proof.
  unfold bind. destruct (c w) as [[a | msg] w1]; intros Hrun.
  - left. eauto.
  - right. injection Hrun as <- <-. eauto.
Qed.

Section Run.
Context `{Blobref}.

Lemma get_dir_Some n w d : dirs w !! n = Some d -> get_dir n w = (Ok d, w).
Proof. unfold get_dir. by intros ->. Qed.

Lemma get_file_Some n w f : files w !! n = Some f -> get_file n w = (Ok f, w).
Proof. unfold get_file. by intros ->. Qed.

Lemma get_handle_Some h w hd : handles w !! h = Some hd -> get_handle h w = (Ok hd, w).
Proof. unfold get_handle. by intros ->. Qed.

Lemma modify_dir_Some n g w d :
  dirs w !! n = Some d ->
  modify_dir n g w = (Ok tt, with_dirs (alter g n) w).
Proof. intros Hd. unfold modify_dir. by rewrite (bind_Ok _ _ _ _ _ (get_dir_Some _ _ _ Hd)). Qed.

Lemma modify_file_Some n g w f :
  files w !! n = Some f ->
  modify_file n g w = (Ok tt, with_files (alter g n) w).
Proof. intros Hf. unfold modify_file. by rewrite (bind_Ok _ _ _ _ _ (get_file_Some _ _ _ Hf)). Qed.

Lemma modify_handle_Some h g w hd :
  handles w !! h = Some hd ->
  modify_handle h g w = (Ok tt, with_handles (alter g h) w).
Proof.
  intros Hh. unfold modify_handle.
  by rewrite (bind_Ok _ _ _ _ _ (get_handle_Some _ _ _ Hh)).
Qed.

(** *** setSizeAtLeast *)

Lemma setSizeAtLeast_run n sz w f :
  files w !! n = Some f ->
  exists w',
    setSizeAtLeast n sz w = (Ok tt, w') /\
    files w' !! n = Some (set_size (Z.max (size f) sz) f) /\
    ((size f <? sz) = false ->
       w' = with_logged "mutFile.setSizeAtLeast(%d). old size = %d" w).
Proof.
  intros Hf. unfold setSizeAtLeast.
  rewrite (bind_Ok _ _ _ _ _ (get_file_Some _ _ _ Hf)).
  unfold bind at 1. unfold log_Printf at 1.
  destruct (size f <? sz) eqn:Hlt.
  - eexists. split; [by eapply modify_file_Some|]. split; [|done].
    simpl. rewrite lookup_alter_eq, Hf. simpl.
    apply Z.ltb_lt in Hlt. by rewrite Z.max_r by lia.
  - eexists. split; [done|]. split; [|done].
    simpl. rewrite Hf. apply Z.ltb_ge in Hlt. rewrite Z.max_l by lia.
    by destruct f.
Qed.

Lemma foldl_max_le (ns : list Z) (s : Z) : s <= foldl Z.max s ns.
Proof.
  revert s. induction ns as [|x ns IH]; intros s; simpl; [lia|].
  specialize (IH (Z.max s x)). lia.
Qed.

Lemma setSizeAtLeast_all_run n ns w f :
  files w !! n = Some f ->
  exists w',
    setSizeAtLeast_all n ns w = (Ok tt, w') /\
    size_of w' n = Some (foldl Z.max (size f) ns).
Proof.
  revert w f. induction ns as [|x ns IH]; intros w f Hf.
  - exists w. split; [done|]. unfold size_of. by rewrite Hf.
  - destruct (setSizeAtLeast_run n x w f Hf) as (w1 & Hrun & Hf1 & _).
    destruct (IH w1 _ Hf1) as (w' & Hruns & Hsz).
    exists w'. split; [|done].
    unfold setSizeAtLeast_all in *. simpl. by rewrite (bind_Ok _ _ _ _ _ Hrun).
Qed.

End Run.

(** C6. [setSizeAtLeast(n)] sets the size of a file node to the maximum
    of its size and [n]; over any run of calls the size ends at the
    maximum of the start size and all arguments, hence never below where
    it started; and a second call with the same argument changes nothing
    but the log, to which it adds its line. *)
Theorem setSizeAtLeast_max `{Blobref} (n : addr) (w : World) (f : mutFile) :
  files w !! n = Some f ->
  (forall sz, exists w',
     setSizeAtLeast n sz w = (Ok tt, w') /\
     size_of w' n = Some (Z.max (size f) sz)) /\
  (forall ns, exists w',
     setSizeAtLeast_all n ns w = (Ok tt, w') /\
     size_of w' n = Some (foldl Z.max (size f) ns) /\
     size f <= foldl Z.max (size f) ns) /\
  (forall sz, exists w1 w2,
     setSizeAtLeast n sz w = (Ok tt, w1) /\
     setSizeAtLeast n sz w1 = (Ok tt, w2) /\
     w2 = with_logged "mutFile.setSizeAtLeast(%d). old size = %d" w1 /\
     files w2 = files w1 /\ size_of w2 n = size_of w1 n).
Proof.
  intros Hf. split; [|split].
  - intros sz. destruct (setSizeAtLeast_run n sz w f Hf) as (w' & Hrun & Hf' & _).
    exists w'. split; [done|]. unfold size_of. by rewrite Hf'.
  - intros ns. destruct (setSizeAtLeast_all_run n ns w f Hf) as (w' & Hrun & Hsz).
    exists w'. split; [done|]. split; [done|]. apply foldl_max_le.
  - intros sz. destruct (setSizeAtLeast_run n sz w f Hf) as (w1 & Hrun1 & Hf1 & _).
    destruct (setSizeAtLeast_run n sz w1 _ Hf1) as (w2 & Hrun2 & Hf2 & Hsame).
    assert (w2 = with_logged "mutFile.setSizeAtLeast(%d). old size = %d" w1) as ->.
    { apply Hsame. simpl. apply Z.ltb_ge. lia. }
    eexists w1, _. repeat split; done.
Qed.

(** On the example file of five bytes: raising to 7 gives 7, and the run
    3, 9, 4 ends at 9. *)
Lemma setSizeAtLeast_max_witness :
  (exists w', setSizeAtLeast 1%positive 7 FsExamples.w_recent = (Ok tt, w') /\
              size_of w' 1%positive = Some 7) /\
  (exists w', setSizeAtLeast_all 1%positive [3; 9; 4] FsExamples.w_recent = (Ok tt, w') /\
              size_of w' 1%positive = Some 9).
Proof.
  destruct (setSizeAtLeast_max (H := FsExamples.string_blobref) 1%positive
              FsExamples.w_recent (FsExamples.file_node "a" 5 0 0) eq_refl)
    as (Hone & Hall & _).
  split.
  - destruct (Hone 7) as (w' & Hrun & Hsz). exists w'. split; [exact Hrun | exact Hsz].
  - destruct (Hall [3; 9; 4]) as (w' & Hrun & Hsz & _).
    exists w'. split; [exact Hrun | exact Hsz].
Defined.

(** *** Attr *)

Section AttrRun.
Context `{Blobref} (env : Env).

Lemma modTime_run n w f :
  files w !! n = Some f ->
  modTime env n w = (Ok (if Time_IsZero (mtime f) then serverStart env else mtime f), w).
Proof.
  intros Hf. unfold modTime.
  rewrite (bind_Ok _ _ _ _ _ (get_file_Some _ _ _ Hf)).
  by destruct (Time_IsZero (mtime f)).
Qed.

Lemma accessTime_run n w f :
  files w !! n = Some f ->
  accessTime env n w =
    (Ok (if Time_IsZero (atime f)
         then (if Time_IsZero (mtime f) then serverStart env else mtime f)
         else atime f), w).
Proof.
  intros Hf. unfold accessTime.
  rewrite (bind_Ok _ _ _ _ _ (get_file_Some _ _ _ Hf)).
  destruct (Time_IsZero (atime f)); simpl; [by apply modTime_run | done].
Qed.

Lemma mutFile_Attr_run n w f :
  files w !! n = Some f ->
  exists a,
    mutFile_Attr env n w = (Ok a, w) /\
    Inode a = AsUint64 (f_permanode f) /\
    Mode a = (if symLink f then Z.lor 384 ModeSymlink else 384) /\
    a_Size a = to_uint64 (size f) /\
    Blocks a = (if 0 <? size f then to_uint64 (to_uint64 (size f) / 512 + 1) else 0) /\
    Mtime a = (if Time_IsZero (mtime f) then serverStart env else mtime f) /\
    Atime a = (if Time_IsZero (atime f) then Mtime a else atime f) /\
    Ctime a = serverStart env /\ Crtime a = serverStart env.
Proof.
  intros Hf. unfold mutFile_Attr.
  rewrite (bind_Ok _ _ _ _ _ (get_file_Some _ _ _ Hf)).
  rewrite (bind_Ok _ _ _ _ _ (modTime_run _ _ _ Hf)).
  rewrite (bind_Ok _ _ _ _ _ (accessTime_run _ _ _ Hf)).
  eexists. split; [reflexivity|]. simpl. repeat split; reflexivity.
Qed.

End AttrRun.

Lemma blocks_no_wrap sz :
  0 < sz -> int64_range sz -> to_uint64 (to_uint64 sz / 512 + 1) = sz / 512 + 1.
Proof.
  intros Hpos Hrange. rewrite (to_uint64_nonneg sz ltac:(lia) Hrange).
  unfold int64_range in Hrange. unfold to_uint64.
  apply Z.mod_small.
  assert (0 <= sz / 512) by (apply Z.div_pos; lia).
  assert (sz / 512 <= sz) by (apply Z.div_le_upper_bound; lia).
  lia.
Qed.

(** C7. [Attr] of a file node reports 512-byte blocks [size/512 + 1]
    when [size > 0] and [0] when [size = 0]; [Size] is the node's size
    field (the same 64 bits, and the same number when the size is not
    negative); [Inode] is the 64-bit projection of the permanode; the mode
    is 0600, plus the symlink bit for a symlink. [Attr] changes nothing. *)
Theorem Attr_blocks_size_inode_mode `{Blobref} (env : Env) (n : addr) (w : World)
    (f : mutFile) :
  files w !! n = Some f ->
  int64_range (size f) ->
  exists a,
    mutFile_Attr env n w = (Ok a, w) /\
    (0 < size f -> Blocks a = size f / 512 + 1) /\
    (size f = 0 -> Blocks a = 0) /\
    wrap64 (a_Size a) = size f /\
    (0 <= size f -> a_Size a = size f) /\
    Inode a = AsUint64 (f_permanode f) /\
    Mode a = 384 + (if symLink f then 2 ^ 27 else 0).
Proof.
  intros Hf Hrange.
  destruct (mutFile_Attr_run env n w f Hf)
    as (a & Hrun & Hino & Hmode & Hsize & Hblocks & _).
  exists a. split; [done|]. split; [|split; [|split; [|split; [|split]]]].
  - intros Hpos. rewrite Hblocks.
    destruct (0 <? size f) eqn:Hlt; [|apply Z.ltb_ge in Hlt; lia].
    by apply blocks_no_wrap.
  - intros Hz. rewrite Hblocks, Hz. reflexivity.
  - rewrite Hsize. by apply wrap64_to_uint64.
  - intros Hnn. rewrite Hsize. by apply to_uint64_nonneg.
  - done.
  - rewrite Hmode. by destruct (symLink f).
Qed.

(** A regular file of 1025 bytes has three blocks and mode 0600; an empty
    one has none. *)
Lemma Attr_blocks_size_inode_mode_witness :
  (exists a,
     mutFile_Attr FsExamples.env_described 1%positive (FsExamples.world_with 0 "x" 1025)
       = (Ok a, FsExamples.world_with 0 "x" 1025) /\
     Blocks a = 3 /\ a_Size a = 1025 /\ Inode a = 6 /\ Mode a = 384) /\
  (exists a,
     mutFile_Attr FsExamples.env_described 1%positive (FsExamples.world_with 0 "x" 0)
       = (Ok a, FsExamples.world_with 0 "x" 0) /\
     Blocks a = 0 /\ a_Size a = 0).
Proof.
  split.
  - destruct (Attr_blocks_size_inode_mode (H := FsExamples.string_blobref)
                FsExamples.env_described 1%positive
                (FsExamples.world_with 0 "x" 1025) (FsExamples.file_node "x" 1025 0 0) eq_refl)
      as (a & Hrun & Hblocks & _ & _ & Hsize & Hino & Hmode).
    { unfold int64_range. simpl. lia. }
    exists a. split; [exact Hrun|]. split; [|split; [|split]].
    + apply Hblocks. simpl. lia.
    + apply Hsize. simpl. lia.
    + exact Hino.
    + exact Hmode.
  - destruct (Attr_blocks_size_inode_mode (H := FsExamples.string_blobref)
                FsExamples.env_described 1%positive
                (FsExamples.world_with 0 "x" 0) (FsExamples.file_node "x" 0 0 0) eq_refl)
      as (a & Hrun & _ & Hblocks & _ & Hsize & _).
    { unfold int64_range. simpl. lia. }
    exists a. split; [exact Hrun|]. split.
    + apply Hblocks. reflexivity.
    + apply Hsize. simpl. lia.
Defined.

(** C8, as the code has it. [Attr] reports [Mtime] as the node's mtime,
    or [serverStart] when that is zero; it reports [Atime] as the node's
    atime, or, when that is zero, the same value as [Mtime]: the node's
    mtime when that is set, and [serverStart] only when both are zero. *)
Theorem Attr_times `{Blobref} (env : Env) (n : addr) (w : World) (f : mutFile) :
  files w !! n = Some f ->
  exists a,
    mutFile_Attr env n w = (Ok a, w) /\
    (mtime f = 0 -> Mtime a = serverStart env) /\
    (mtime f <> 0 -> Mtime a = mtime f) /\
    (atime f <> 0 -> Atime a = atime f) /\
    (atime f = 0 -> Atime a = Mtime a) /\
    (atime f = 0 -> mtime f = 0 -> Atime a = serverStart env) /\
    (atime f = 0 -> mtime f <> 0 -> Atime a = mtime f).
Proof.
  intros Hf.
  destruct (mutFile_Attr_run env n w f Hf)
    as (a & Hrun & _ & _ & _ & _ & Hm & Ha & _).
  exists a. split; [done|].
  rewrite Ha, Hm. unfold Time_IsZero.
  destruct (Z.eqb_spec (mtime f) 0) as [Hmz | Hmz];
    destruct (Z.eqb_spec (atime f) 0) as [Haz | Haz];
    repeat split; intros; congruence.
Qed.

(** On a server started at 9: a file whose mtime was set to 5 and whose
    atime never was reports both times as 5; a file with neither reports
    both as 9; a file with atime 7 only reports atime 7 and mtime 9. *)
Lemma Attr_times_witness :
  (exists a,
     mutFile_Attr FsExamples.env_described 1%positive FsExamples.w_mtime_only
       = (Ok a, FsExamples.w_mtime_only) /\
     Mtime a = 5 /\ Atime a = 5) /\
  (exists a,
     mutFile_Attr FsExamples.env_described 1%positive FsExamples.w_recent
       = (Ok a, FsExamples.w_recent) /\
     Mtime a = 9 /\ Atime a = 9) /\
  (exists a,
     mutFile_Attr FsExamples.env_described 1%positive FsExamples.w_atime_only
       = (Ok a, FsExamples.w_atime_only) /\
     Mtime a = 9 /\ Atime a = 7).
Proof.
  split; [|split].
  - destruct (Attr_times (H := FsExamples.string_blobref) FsExamples.env_described
                1%positive FsExamples.w_mtime_only (FsExamples.file_node "x" 5 5 0) eq_refl)
      as (a & Hrun & _ & Hm & _ & Heq & _ & Ha).
    exists a. split; [exact Hrun|]. split.
    + apply Hm. discriminate.
    + apply Ha; [reflexivity | discriminate].
  - destruct (Attr_times (H := FsExamples.string_blobref) FsExamples.env_described
                1%positive FsExamples.w_recent (FsExamples.file_node "a" 5 0 0) eq_refl)
      as (a & Hrun & Hm & _ & _ & _ & Ha & _).
    exists a. split; [exact Hrun|]. split.
    + apply Hm. reflexivity.
    + apply Ha; reflexivity.
  - destruct (Attr_times (H := FsExamples.string_blobref) FsExamples.env_described
                1%positive FsExamples.w_atime_only (FsExamples.file_node "x" 5 0 7) eq_refl)
      as (a & Hrun & Hm & _ & Ha & _).
    exists a. split; [exact Hrun|]. split.
    + apply Hm. reflexivity.
    + apply Ha. discriminate.
Defined.

(** C8 as stated fails: with mtime set and atime absent, [Atime] is the
    mtime (5), not [serverStart] (9). *)
Lemma Attr_atime_not_serverStart :
  atime (FsExamples.file_node "x" 5 5 0) = 0 /\
  files FsExamples.w_mtime_only !! 1%positive = Some (FsExamples.file_node "x" 5 5 0) /\
  exists a,
    mutFile_Attr FsExamples.env_described 1%positive FsExamples.w_mtime_only
      = (Ok a, FsExamples.w_mtime_only) /\
    Atime a = 5 /\ serverStart FsExamples.env_described = 9 /\
    Atime a <> serverStart FsExamples.env_described.
Proof.
  split; [reflexivity|]. split; [reflexivity|].
  eexists. split; [vm_compute; reflexivity|].
  simpl. repeat split. discriminate.
Qed.

(** *** Remove *)

(** C10. [Remove(name)] hands the del-attribute claim for
    [camliPath:name] on the directory's permanode to the client, and
    nothing else; when that upload succeeds it returns success, whether or
    not [name] was in the children map, and [name] is unbound afterwards;
    when the upload fails it returns EIO and leaves the nodes alone. It
    never returns ENOENT. *)
Theorem Remove_never_not_found `{Blobref} (env : Env) (n : addr) (name : string)
    (w : World) (d : mutDir) :
  dirs w !! n = Some d ->
  let claim := NewDelAttributeClaim (d_permanode d) ("camliPath:" +:+ name) in
  exists r w',
    Remove env n name w = (Ok r, w') /\
    signed w' = signed w ++ [claim] /\
    r <> Some ENOENT /\
    (client_UploadAndSignBlob env (tick w) claim = None ->
       r = None /\ child_of w' n name = None) /\
    (client_UploadAndSignBlob env (tick w) claim <> None ->
       r = Some EIO /\ dirs w' = dirs w).
Proof.
  intros Hd claim. unfold Remove.
  rewrite (bind_Ok _ _ _ _ _ (get_dir_Some _ _ _ Hd)).
  fold claim. unfold bind at 1. unfold UploadAndSignBlob at 1.
  destruct (client_UploadAndSignBlob env (tick w) claim) as [e|] eqn:Hup.
  - eexists _, _. split; [reflexivity|]. simpl.
    split; [done|]. split; [discriminate|]. split; [discriminate | done].
  - set (w1 := next_tick (with_signed claim w)).
    assert (dirs w1 !! n = Some d) as Hd1 by done.
    rewrite (bind_Ok _ _ _ _ _ (modify_dir_Some _ _ _ _ Hd1)).
    eexists _, _. split; [reflexivity|]. simpl.
    split; [done|]. split; [discriminate|]. split; [|done].
    intros _. split; [done|].
    unfold child_of, children_of. simpl.
    rewrite lookup_alter_eq, Hd. simpl.
    destruct (children d) as [m|]; simpl; [apply lookup_delete_eq | done].
Qed.

(** Removing a name the directory does not have succeeds; with a client
    that refuses the claim, removing fails with EIO, also for a name the
    directory has. *)
Lemma Remove_never_not_found_witness :
  child_of FsExamples.w_recent 1%positive "zzz" = None /\
  (exists w',
     Remove FsExamples.env_described 1%positive "zzz" FsExamples.w_recent = (Ok None, w') /\
     signed w' = [NewDelAttributeClaim (H := FsExamples.string_blobref)
                    (Some "sha1-dir"%string) "camliPath:zzz"]) /\
  (exists w',
     Remove FsExamples.env_sign_fails 1%positive "a" FsExamples.w_recent
       = (Ok (Some EIO), w') /\
     dirs w' = dirs FsExamples.w_recent).
Proof.
  split; [reflexivity|]. split.
  - destruct (Remove_never_not_found (H := FsExamples.string_blobref)
                FsExamples.env_described 1%positive "zzz" FsExamples.w_recent
                (FsExamples.dir_with FsExamples.now0 "a") eq_refl)
      as (r & w' & Hrun & Hsigned & _ & Hok & _).
    destruct (Hok eq_refl) as (-> & _).
    exists w'. split; [exact Hrun | exact Hsigned].
  - destruct (Remove_never_not_found (H := FsExamples.string_blobref)
                FsExamples.env_sign_fails 1%positive "a" FsExamples.w_recent
                (FsExamples.dir_with FsExamples.now0 "a") eq_refl)
      as (r & w' & Hrun & _ & _ & _ & Hfail).
    destruct (Hfail ltac:(discriminate)) as (-> & Hdirs).
    exists w'. split; [exact Hrun | exact Hdirs].
Defined.

(** *** Write handles *)

Section HandleRun.
Context `{Blobref} (env : Env).

(** The three ways through [Release] for a handle that still has its
    scratch file. *)
Lemma Release_seek_fails h w hd t e :
  handles w !! h = Some hd -> h_tmp hd = Some t ->
  file_Seek env (tick w) = Some e ->
  Release env h w =
    (Ok (Some EIO),
     with_logged "mutFileHandle.Release:"
       (next_tick (with_logged "mutFileHandle release." w))).
Proof.
  intros Hh Ht Hseek. unfold Release.
  rewrite (bind_Ok _ _ _ _ _ (get_handle_Some _ _ _ Hh)). rewrite Ht.
  unfold bind, log_Printf, Seek0, ret. simpl. by rewrite Hseek.
Qed.

Lemma Release_upload_fails h w hd t f tf e :
  handles w !! h = Some hd -> h_tmp hd = Some t ->
  files w !! h_f hd = Some f -> tmpfiles w !! t = Some tf ->
  file_Seek env (tick w) = None ->
  schema_WriteFileFromReader env (S (tick w)) (f_name f) (data tf) = inl e ->
  Release env h w =
    (Ok (Some EIO),
     with_logged "mutFileHandle.Release:"
       (next_tick (next_tick (with_tmpfiles (alter (set_offset 0) t)
          (with_logged "mutFileHandle release." w))))).
Proof.
  intros Hh Ht Hf Htf Hseek Hup. unfold Release.
  rewrite (bind_Ok _ _ _ _ _ (get_handle_Some _ _ _ Hh)). rewrite Ht.
  unfold bind, log_Printf, Seek0, ret, get_file, WriteFileFromReader, bind, deref.
  simpl. rewrite Hseek. simpl. rewrite Hf. simpl.
  rewrite lookup_alter_eq, Htf. simpl. rewrite drop_0, Hup. done.
Qed.

Lemma Release_upload_ok h w hd t f tf br :
  handles w !! h = Some hd -> h_tmp hd = Some t ->
  files w !! h_f hd = Some f -> tmpfiles w !! t = Some tf ->
  file_Seek env (tick w) = None ->
  schema_WriteFileFromReader env (S (tick w)) (f_name f) (data tf) = inr br ->
  exists w',
    Release env h w = (Ok None, w') /\
    handles w' !! h = Some (set_tmp None hd) /\
    tmpfiles w' !! t = Some (set_unlinked (set_closed (set_offset (length (data tf))
                               (set_offset 0 tf)))) /\
    files w' !! h_f hd = Some (set_content_size br (Z.of_nat (length (data tf))) f) /\
    signed w' = signed w ++
      [NewSetAttributeClaim (f_permanode f) "camliContent" (BlobRef_String br)] /\
    tick w' = S (S (S (tick w))).
Proof.
  intros Hh Ht Hf Htf Hseek Hup. unfold Release.
  rewrite (bind_Ok _ _ _ _ _ (get_handle_Some _ _ _ Hh)). rewrite Ht.
  unfold bind, log_Printf, Seek0, ret, get_file, WriteFileFromReader, bind, deref,
    setContent, modify_file, modify_handle, get_file, get_handle, UploadAndSignBlob,
    Close, os_Remove, bind, deref, ret.
  simpl. rewrite Hseek. simpl. rewrite Hf. simpl.
  rewrite lookup_alter_eq, Htf. simpl. rewrite !drop_0, Hup. simpl.
  rewrite Hf. simpl. rewrite lookup_alter_eq, Hf. simpl. rewrite Hh. simpl.
  eexists. split; [reflexivity|]. simpl.
  rewrite !lookup_alter_eq, Hh, Hf, Htf. done.
Qed.

End HandleRun.

(** When [Release] fails on the way (the seek or the upload), it returns
    EIO with the handle untouched and the scratch file neither closed nor
    removed. *)
Lemma Release_failure_keeps_scratch `{Blobref} (env : Env) h w hd t f tf :
  handles w !! h = Some hd -> h_tmp hd = Some t ->
  files w !! h_f hd = Some f -> tmpfiles w !! t = Some tf ->
  is_open tf = true -> is_linked tf = true ->
  (file_Seek env (tick w) <> None \/
   (file_Seek env (tick w) = None /\
    exists e, schema_WriteFileFromReader env (S (tick w)) (f_name f) (data tf) = inl e)) ->
  exists w',
    Release env h w = (Ok (Some EIO), w') /\
    handles w' !! h = Some hd /\ ~ released w' h /\ scratch_leaked w' t.
Proof.
  intros Hh Ht Hf Htf Hopen Hlinked [Hseek | (Hseek & e & Hup)].
  - destruct (file_Seek env (tick w)) as [e|] eqn:Hs; [|done].
    eexists. split; [by eapply Release_seek_fails|]. simpl.
    split; [done|]. split.
    + intros (hd' & Hh' & Hnil). simpl in Hh'. congruence.
    + exists tf. done.
  - eexists. split; [by eapply Release_upload_fails|]. simpl.
    split; [done|]. split.
    + intros (hd' & Hh' & Hnil). simpl in Hh'. congruence.
    + exists (set_offset 0 tf). simpl. rewrite lookup_alter_eq, Htf. done.
Qed.

(** When [Release] gets through, the handle is released and the scratch
    file closed and removed. *)
Lemma Release_success_frees_scratch `{Blobref} (env : Env) h w hd t f tf br :
  handles w !! h = Some hd -> h_tmp hd = Some t ->
  files w !! h_f hd = Some f -> tmpfiles w !! t = Some tf ->
  file_Seek env (tick w) = None ->
  schema_WriteFileFromReader env (S (tick w)) (f_name f) (data tf) = inr br ->
  exists w',
    Release env h w = (Ok None, w') /\ released w' h /\ scratch_freed w' t.
Proof.
  intros Hh Ht Hf Htf Hseek Hup.
  destruct (Release_upload_ok env h w hd t f tf br Hh Ht Hf Htf Hseek Hup)
    as (w' & Hrun & Hh' & Htf' & _).
  exists w'. split; [done|]. split.
  - eexists. split; [exact Hh' | done].
  - eexists. split; [exact Htf' | done].
Qed.

(** [newHandle] never panics; when it fails it returns EIO, creates no
    handle, and any scratch file it created is closed and removed; when
    it succeeds the new handle owns a new, open scratch file. *)
Lemma newHandle_failure_frees_scratch `{Blobref} (env : Env) n body w :
  exists r w',
    newHandle env n body w = (Ok r, w') /\
    match r with
    | inl e =>
        e = EIO /\ handles w' = handles w /\
        (forall t, tmpfiles w !! t = None -> is_Some (tmpfiles w' !! t) ->
                   scratch_freed w' t) /\
        (forall t tf, tmpfiles w !! t = Some tf -> tmpfiles w' !! t = Some tf)
    | inr h =>
        exists t, handles w !! h = None /\
                  handles w' !! h = Some {| h_f := n; h_tmp := Some t |} /\
                  tmpfiles w !! t = None /\ scratch_leaked w' t
    end.
Proof.
  unfold newHandle. unfold bind at 1. unfold TempFile at 1.
  destruct (ioutil_TempFile env (tick w)) as [e|] eqn:Htmp.
  - (* no temp file *)
    eexists _, _. split; [reflexivity|]. simpl.
    split; [done|]. split; [done|]. split; [|done].
    intros t Hnone [tf Hsome]. congruence.
  - set (t := fresh (dom (tmpfiles w))).
    assert (tmpfiles w !! t = None) as Hfresh by apply not_elem_of_dom, is_fresh.
    destruct body as [b|].
    + unfold bind, Copy, deref, ret, bind. simpl.
      destruct (io_Copy env (S (tick w)) b) as [[k e]|] eqn:Hcopy; simpl.
      * (* the copy fails: close and remove *)
        eexists _, _. split; [reflexivity|]. simpl.
        split; [done|]. split; [done|]. split.
        -- intros t' Hnone [tf Hsome].
           destruct (decide (t' = t)) as [-> | Hne].
           ++ eexists. simpl. rewrite !lookup_alter_eq, lookup_insert_eq. simpl. done.
           ++ rewrite !lookup_alter_ne, lookup_insert_ne in Hsome by done. congruence.
        -- intros t' tf Htf. assert (t <> t') by congruence.
           by rewrite !lookup_alter_ne, lookup_insert_ne.
      * eexists _, _. split; [reflexivity|]. simpl.
        exists t. split; [apply not_elem_of_dom, is_fresh|].
        split; [apply lookup_insert_eq|]. split; [done|].
        eexists. simpl. rewrite lookup_alter_eq, lookup_insert_eq. simpl. done.
    + unfold bind, ret, new_mutFileHandle. simpl.
      eexists _, _. split; [reflexivity|]. simpl.
      exists t. split; [apply not_elem_of_dom, is_fresh|].
      split; [apply lookup_insert_eq|]. split; [done|].
      eexists. simpl. rewrite lookup_insert_eq. done.
Qed.

(** C2, at a failing input. A handle with an open scratch file is
    released while the blob upload fails (first part) or while the seek
    fails (second part): [Release] returns EIO, the handle still has its
    scratch file, and that file is neither closed nor removed. *)
Theorem Release_failure_leaks_scratch :
  (exists w',
     Release FsExamples.env_upload_fails 1%positive FsExamples.w_recent
       = (Ok (Some EIO), w') /\
     handles w' !! 1%positive = Some {| h_f := 1%positive; h_tmp := Some 1%positive |} /\
     scratch_leaked w' 1%positive) /\
  (exists w',
     Release FsExamples.env_seek_fails 1%positive FsExamples.w_recent
       = (Ok (Some EIO), w') /\
     handles w' !! 1%positive = Some {| h_f := 1%positive; h_tmp := Some 1%positive |} /\
     scratch_leaked w' 1%positive).
Proof.
  split.
  - eexists. split; [vm_compute; reflexivity|]. split; [reflexivity|].
    eexists. split; [vm_compute; reflexivity|]. done.
  - eexists. split; [vm_compute; reflexivity|]. split; [reflexivity|].
    eexists. split; [vm_compute; reflexivity|]. done.
Qed.

(** Whatever the upload of the camliContent claim inside [setContent]
    answers, failure included, [Release] returns success once the blob is
    uploaded, and the file node has the new content and size. *)
Lemma Release_result_ignores_claim `{Blobref} (env : Env) h w hd t f tf br :
  handles w !! h = Some hd -> h_tmp hd = Some t ->
  files w !! h_f hd = Some f -> tmpfiles w !! t = Some tf ->
  file_Seek env (tick w) = None ->
  schema_WriteFileFromReader env (S (tick w)) (f_name f) (data tf) = inr br ->
  exists w',
    Release env h w = (Ok None, w') /\
    content_of w' (h_f hd) = Some br /\
    size_of w' (h_f hd) = Some (Z.of_nat (length (data tf))).
Proof.
  intros Hh Ht Hf Htf Hseek Hup.
  destruct (Release_upload_ok env h w hd t f tf br Hh Ht Hf Htf Hseek Hup)
    as (w' & Hrun & _ & _ & Hf' & _).
  exists w'. split; [done|]. unfold content_of, size_of. by rewrite Hf'.
Qed.

(** C3, at a failing input. The file node has no content and size 7; the
    scratch file holds five bytes; the upload of the blob succeeds and the
    camliContent claim fails. [Release] returns success (not EIO), and the
    node's content and size are the new ones. *)
Theorem Release_ignores_claim_failure :
  content_of FsExamples.w_truncated 1%positive = Some None /\
  size_of FsExamples.w_truncated 1%positive = Some 7 /\
  exists w',
    Release FsExamples.env_sign_fails 1%positive FsExamples.w_truncated = (Ok None, w') /\
    signed w' = [NewSetAttributeClaim (H := FsExamples.string_blobref)
                   (Some "sha1-x"%string) "camliContent" "sha1-new"] /\
    client_UploadAndSignBlob FsExamples.env_sign_fails 2
      (NewSetAttributeClaim (H := FsExamples.string_blobref)
         (Some "sha1-x"%string) "camliContent" "sha1-new") <> None /\
    content_of w' 1%positive = Some (Some "sha1-new"%string) /\
    size_of w' 1%positive = Some 5.
Proof.
  split; [reflexivity|]. split; [reflexivity|].
  eexists. split; [vm_compute; reflexivity|].
  split; [reflexivity|]. split; [discriminate|]. split; reflexivity.
Qed.

(** *** populate *)

Section PopulateRun.
Context `{Blobref} (env : Env).

(** Not due: [populate] reads the clock and returns. *)
Lemma populate_recent n w d :
  dirs w !! n = Some d ->
  ~ populate_due d (time_Now env (tick w)) ->
  populate env n w = (Ok None, next_tick w).
Proof.
  intros Hd Hdue. unfold populate.
  rewrite (bind_Ok _ _ _ _ _ (get_dir_Some _ _ _ Hd)).
  unfold bind at 1. unfold Now at 1. unfold populate_due in Hdue.
  by destruct (Time_After _ _).
Qed.

(** Due, and the describe fails. *)
Lemma populate_describe_fails n w d e :
  dirs w !! n = Some d ->
  populate_due d (time_Now env (tick w)) ->
  client_Describe env (S (tick w)) {| req_BlobRef := d_permanode d; Depth := 3 |} = inl e ->
  populate env n w =
    (Ok None,
     with_logged "mutDir.paths:"
       (next_tick (with_described {| req_BlobRef := d_permanode d; Depth := 3 |}
          (with_dirs (alter (set_lastPop (time_Now env (tick w))) n) (next_tick w))))).
Proof.
  intros Hd Hdue Hdesc. unfold populate.
  rewrite (bind_Ok _ _ _ _ _ (get_dir_Some _ _ _ Hd)).
  unfold bind at 1. unfold Now at 1. unfold populate_due in Hdue. rewrite Hdue.
  assert (dirs (next_tick w) !! n = Some d) as Hd1 by done.
  rewrite (bind_Ok _ _ _ _ _ (modify_dir_Some _ _ _ _ Hd1)).
  unfold bind, Describe, log_Printf, ret. simpl. by rewrite Hdesc.
Qed.

End PopulateRun.

(** C4, as the code has it. When the describe fails, [populate] logs the
    error and returns success; the describe was issued, the children map is
    as before, and [lastPop] has been set to the time read at the start of
    the call. So a [populate] that starts less than [populateInterval]
    after that time returns at once, without describing again. *)
Theorem populate_describe_error `{Blobref} (env : Env) (n : addr) (w : World)
    (d : mutDir) (e : error) :
  dirs w !! n = Some d ->
  populate_due d (time_Now env (tick w)) ->
  client_Describe env (S (tick w)) {| req_BlobRef := d_permanode d; Depth := 3 |} = inl e ->
  exists w',
    populate env n w = (Ok None, w') /\
    logged w' = logged w ++ ["mutDir.paths:"%string] /\
    described w' = described w ++ [{| req_BlobRef := d_permanode d; Depth := 3 |}] /\
    lastPop_of w' n = Some (time_Now env (tick w)) /\
    children_of w' n = children_of w n /\
    (time_Now env (tick w') < time_Now env (tick w) + populateInterval ->
     populate env n w' = (Ok None, next_tick w') /\
     described (next_tick w') = described w').
Proof.
  intros Hd Hdue Hdesc.
  eexists. split; [by eapply populate_describe_fails|]. simpl.
  split; [done|]. split; [done|].
  unfold lastPop_of, children_of. simpl. rewrite lookup_alter_eq, Hd. simpl.
  split; [done|]. split; [done|].
  intros Hsoon. split; [|done].
  eapply populate_recent.
  - simpl. by rewrite lookup_alter_eq, Hd.
  - unfold populate_due, Time_After, Time_Add. simpl.
    intros Hge. apply Z.ltb_ge in Hge. simpl in Hsoon. lia.
Qed.

(** A directory never populated, a describe that fails at time [now0]:
    [lastPop] becomes [now0], and the next call does not describe. *)
Lemma populate_describe_error_witness :
  exists w',
    populate FsExamples.env_describe_fails 1%positive FsExamples.w_stale = (Ok None, w') /\
    lastPop_of w' 1%positive = Some FsExamples.now0 /\
    populate FsExamples.env_describe_fails 1%positive w' = (Ok None, next_tick w').
Proof.
  destruct (populate_describe_error (H := FsExamples.string_blobref)
              FsExamples.env_describe_fails 1%positive FsExamples.w_stale
              (FsExamples.dir_with 0 "x") "describe: connection refused"
              eq_refl eq_refl eq_refl)
    as (w' & Hrun & _ & _ & Hlast & _ & Hnext).
  exists w'. split; [exact Hrun|]. split; [exact Hlast|].
  apply Hnext. reflexivity.
Defined.

(** C4 as stated fails: the describe fails, and [lastPop] has changed
    from 0 to [now0]; the next [populate] issues no describe. *)
Lemma populate_describe_error_updates_lastPop :
  lastPop_of FsExamples.w_stale 1%positive = Some 0 /\
  exists w' w'' : @World FsExamples.string_blobref,
    populate FsExamples.env_describe_fails 1%positive FsExamples.w_stale = (Ok None, w') /\
    described w' = [FsExamples.req_dir] /\
    logged w' = ["mutDir.paths:"%string] /\
    lastPop_of w' 1%positive = Some 100000000000 /\
    populate FsExamples.env_describe_fails 1%positive w' = (Ok None, w'') /\
    described w'' = described w'.
Proof.
  split; [reflexivity|].
  eexists _, _. split; [vm_compute; reflexivity|].
  split; [reflexivity|]. split; [reflexivity|]. split; [reflexivity|].
  split; [vm_compute; reflexivity|]. reflexivity.
Qed.

(** *** Strings *)

Lemma substring_all (k : string) : String.substring 0 (String.length k) k = k.
Proof. induction k as [|c k IH]; simpl; [done | by rewrite IH]. Qed.

Lemma string_from_app (p s : string) : string_from (String.length p) (p +:+ s) = s.
Proof.
  unfold string_from. induction p as [|c p IH]; simpl.
  - rewrite Nat.sub_0_r. apply substring_all.
  - exact IH.
Qed.

Lemma prefix_string_from (p k : string) :
  String.prefix p k = true -> k = p +:+ string_from (String.length p) k.
Proof.
  revert k. induction p as [|c p IH]; intros k Hp.
  - unfold string_from. simpl. rewrite Nat.sub_0_r. by rewrite substring_all.
  - destruct k as [|c' k]; simpl in Hp; [discriminate|].
    destruct (Ascii.ascii_dec c c') as [-> | _]; [|discriminate].
    change (String c' k = String c' (p +:+ string_from (String.length p) k)).
    f_equal. by apply IH.
Qed.

(** *** The loop of populate *)

Section PopulateLoop.
Context `{Blobref}.

(** Allocating a node and binding it in a directory whose map exists. *)
Lemma bind_new_file n name f w d m :
  dirs w !! n = Some d -> children d = Some m ->
  (a <- new_mutFile f ;; assign_child n name (FileNode a)) w =
    (Ok tt,
     with_dirs (alter (set_children (Some (<[name := FileNode (fresh (dom (files w)))]> m))) n)
       (with_files (insert (fresh (dom (files w))) f) w)).
Proof.
  intros Hd Hm. unfold bind at 1. unfold new_mutFile at 1. unfold assign_child.
  set (w1 := with_files _ w).
  assert (dirs w1 !! n = Some d) as Hd1 by done.
  rewrite (bind_Ok _ _ _ _ _ (get_dir_Some _ _ _ Hd1)). rewrite Hm.
  by rewrite (modify_dir_Some _ _ _ _ Hd1).
Qed.

Lemma bind_new_dir n name d' w d m :
  dirs w !! n = Some d -> children d = Some m ->
  (a <- new_mutDir d' ;; assign_child n name (DirNode a)) w =
    (Ok tt,
     with_dirs (alter (set_children (Some (<[name := DirNode (fresh (dom (dirs w)))]> m))) n)
       (with_dirs (insert (fresh (dom (dirs w))) d') w)).
Proof.
  intros Hd Hm. unfold bind at 1. unfold new_mutDir at 1. unfold assign_child.
  set (a := fresh (dom (dirs w))). set (w1 := with_dirs _ w).
  assert (dirs w !! a = None) as Hfresh by apply not_elem_of_dom, is_fresh.
  assert (a <> n) as Hne by congruence.
  assert (dirs w1 !! n = Some d) as Hd1.
  { subst w1. simpl. by rewrite lookup_insert_ne. }
  rewrite (bind_Ok _ _ _ _ _ (get_dir_Some _ _ _ Hd1)). rewrite Hm.
  by rewrite (modify_dir_Some _ _ _ _ Hd1).
Qed.

(** One round of the loop either binds nothing (it skips the attribute,
    logs, or panics), or binds the name after the [camliPath:] prefix to
    a node it has just allocated. It binds nothing only when the first
    value is not described as a node. *)
Lemma populate_attr_cases n res k v w d m r w1 :
  dirs w !! n = Some d -> children d = Some m ->
  populate_attr n res (k, v) w = (r, w1) ->
  ((w1 = w \/ exists s, w1 = with_logged s w) /\
   (String.prefix "camliPath:" k = true ->
    forall cr v', v = cr :: v' -> described_as_node res cr = false)) \/
  (r = Ok tt /\ String.prefix "camliPath:" k = true /\
   exists c wa,
     ((exists f, c = FileNode (fresh (dom (files w))) /\
                 wa = with_files (insert (fresh (dom (files w))) f) w) \/
      (exists d', c = DirNode (fresh (dom (dirs w))) /\
                  wa = with_dirs (insert (fresh (dom (dirs w))) d') w)) /\
     w1 = with_dirs (alter (set_children (Some (<[string_from 10 k := c]> m))) n) wa).
Proof.
  intros Hd Hm. unfold populate_attr.
  destruct (String.prefix "camliPath:" k) eqn:Hp; simpl;
    [|intros [= <- <-]; left; split; [by left | discriminate]].
  destruct v as [|cr v']; simpl.
  { intros [= <- <-]. left. split; [by left|]. intros _ cr v' [=]. }
  unfold described_as_node.
  destruct (Meta res !! cr) as [child|] eqn:Hchild.
  2:{ intros [= <- <-]. left. split; [right; eauto|]. intros _ cr' v'' [= <- <-].
      by rewrite Hchild. }
  unfold bind at 1. destruct (Permanode child) as [cp|] eqn:Hcp; simpl.
  2:{ intros [= <- <-]. left. split; [by left|]. intros _ cr' v'' [= <- <-].
      by rewrite Hchild, Hcp. }
  destruct (String.eqb (Values_Get (Attr cp) "camliSymlinkTarget") "") eqn:Htarget; simpl.
  2:{ (* a symlink *)
      rewrite (bind_new_file _ _ _ _ _ _ Hd Hm). intros [= <- <-]. right.
      split; [done|]. split; [done|]. eexists _, _. split; [left; eauto | done]. }
  destruct (String.eqb (Values_Get (Attr cp) "camliContent") "") eqn:Hcontent; simpl.
  { (* a directory *)
    rewrite (bind_new_dir _ _ _ _ _ _ Hd Hm). intros [= <- <-]. right.
    split; [done|]. split; [done|]. eexists _, _. split; [right; eauto | done]. }
  destruct (Meta res !! Values_Get (Attr cp) "camliContent") as [content|] eqn:Hc.
  2:{ intros [= <- <-]. left. split; [right; eauto|]. intros _ cr' v'' [= <- <-].
      by rewrite Hchild, Hcp, Htarget, Hcontent, Hc. }
  destruct (String.eqb (CamliType content) "file") eqn:Htype; simpl.
  2:{ intros [= <- <-]. left. split; [right; eauto|]. intros _ cr' v'' [= <- <-].
      by rewrite Hchild, Hcp, Htarget, Hcontent, Hc, Htype. }
  unfold bind at 1. destruct (File content) as [fi|] eqn:Hfile; simpl.
  2:{ intros [= <- <-]. left. split; [by left|]. intros _ cr' v'' [= <- <-].
      by rewrite Hchild, Hcp, Htarget, Hcontent, Hc, Htype, Hfile. }
  (* a file *)
  rewrite (bind_new_file _ _ _ _ _ _ Hd Hm). intros [= <- <-]. right.
  split; [done|]. split; [done|]. eexists _, _. split; [left; eauto | done].
Qed.

Lemma prefix_app (p s : string) : String.prefix p (p +:+ s) = true.
Proof.
  induction p as [|c p IH]; [by destruct s|].
  change (String.prefix (String c p) (String c (p +:+ s)) = true).
  simpl. by destruct (Ascii.ascii_dec c c).
Qed.

Lemma extends_refl n w : extends n w w.
Proof. by split. Qed.

Lemma extends_trans n w1 w2 w3 : extends n w1 w2 -> extends n w2 w3 -> extends n w1 w3.
Proof. intros [Hf1 Hd1] [Hf2 Hd2]. split; eauto. Qed.

Lemma same_outside_refl w : same_outside w w.
Proof. by repeat split. Qed.

Lemma same_outside_trans w1 w2 w3 :
  same_outside w1 w2 -> same_outside w2 w3 -> same_outside w1 w3.
Proof.
  intros (? & ? & ? & ? & ?) (? & ? & ? & ? & ?). repeat split; congruence.
Qed.

(** A node that is new to a later world is new to an earlier one. *)
Lemma is_new_extends n w w1 c :
  extends n w w1 -> is_Some (dirs w1 !! n) -> is_new w1 c -> is_new w c.
Proof.
  intros [Hf Hd] [dn Hn]. destruct c as [a | a]; simpl; intros Hnew.
  - destruct (dirs w !! a) as [x|] eqn:Ha; [|done].
    destruct (decide (a = n)) as [-> | Hne]; [congruence|].
    rewrite (Hd a x Hne Ha) in Hnew. discriminate.
  - destruct (files w !! a) as [x|] eqn:Ha; [|done].
    rewrite (Hf a x Ha) in Hnew. discriminate.
Qed.

(** One round of the loop, as it shows on the directory's map. *)
Lemma populate_attr_step n res k v w d m r w1 :
  dirs w !! n = Some d -> children d = Some m ->
  populate_attr n res (k, v) w = (r, w1) ->
  same_outside w w1 /\ extends n w w1 /\
  exists d1 m1,
    dirs w1 !! n = Some d1 /\ children d1 = Some m1 /\
    lastPop d1 = lastPop d /\
    ((m1 = m /\
      (String.prefix "camliPath:" k = true ->
       forall cr v', v = cr :: v' -> described_as_node res cr = false)) \/
     (r = Ok tt /\ String.prefix "camliPath:" k = true /\
      exists c, is_new w c /\ m1 = <[string_from 10 k := c]> m)).
Proof.
  intros Hd Hm Hrun.
  destruct (populate_attr_cases n res k v w d m r w1 Hd Hm Hrun)
    as [[Hw1 Hnot] | (-> & Hp & c & wa & Halloc & ->)].
  - assert (same_outside w w1 /\ dirs w1 = dirs w /\ files w1 = files w) as (Hout & Hds & Hfs).
    { destruct Hw1 as [-> | [s ->]]; by repeat split. }
    split; [done|]. split.
    { split; intros b x; rewrite ?Hds, ?Hfs; auto. }
    exists d, m. rewrite Hds. repeat split; auto.
  - assert (is_new w c /\ same_outside w wa /\ extends n w wa /\ dirs wa !! n = Some d)
      as (Hnew & Hout & Hext & Hdn).
    { destruct Halloc as [(f & -> & ->) | (d' & -> & ->)].
      - assert (files w !! fresh (dom (files w)) = None) as Hfresh
          by apply not_elem_of_dom, is_fresh.
        split; [done|]. split; [by repeat split|]. split; [|done].
        split; [|done]. intros b x Hb. simpl.
        rewrite lookup_insert_ne; [done | congruence].
      - assert (dirs w !! fresh (dom (dirs w)) = None) as Hfresh
          by apply not_elem_of_dom, is_fresh.
        split; [done|]. split; [by repeat split|]. split.
        + split; [done|]. intros b x _ Hb. simpl.
          rewrite lookup_insert_ne; [done | congruence].
        + simpl. rewrite lookup_insert_ne; [done | congruence]. }
    split; [exact Hout|]. split.
    { destruct Hext as [Hf Hdd]. split; [exact Hf|].
      intros b x Hne Hb. simpl. rewrite lookup_alter_ne by done. by apply Hdd. }
    eexists _, _. simpl. rewrite lookup_alter_eq, Hdn. simpl.
    split; [done|]. split; [done|]. split; [done|]. right. eauto.
Qed.

(** The whole loop. The directory's map ends with every name either as
    it was or bound to a node allocated in the loop; a name that no
    attribute spells is as it was; and, when the loop runs through, a name
    whose attribute's first value is described as a node is bound to a
    node allocated in the loop. *)
Lemma populate_loop n res attrs :
  forall w r w1 d m,
    dirs w !! n = Some d -> children d = Some m ->
    forM_ attrs (populate_attr n res) w = (r, w1) ->
    same_outside w w1 /\ extends n w w1 /\
    exists d1 m1,
      dirs w1 !! n = Some d1 /\ children d1 = Some m1 /\ lastPop d1 = lastPop d /\
      (forall name, m1 !! name = m !! name \/
                    exists c, m1 !! name = Some c /\ is_new w c) /\
      (forall name, (forall v, ("camliPath:" +:+ name, v) ∉ attrs) ->
                    m1 !! name = m !! name) /\
      (r = Ok tt ->
       forall name cr v, ("camliPath:" +:+ name, cr :: v) ∈ attrs ->
                         described_as_node res cr = true ->
                         exists c, m1 !! name = Some c /\ is_new w c).
Proof.
  induction attrs as [|[k v] rest IH]; intros w r w1 d m Hd Hm Hrun.
  - injection Hrun as <- <-.
    split; [apply same_outside_refl|]. split; [apply extends_refl|].
    exists d, m. repeat split; auto.
    intros _ name cr v Hin. by apply not_elem_of_nil in Hin.
  - simpl in Hrun.
    destruct (bind_inv _ _ _ _ _ Hrun) as [([] & w' & Hstep & Hrest) | (msg & Hstep & ->)].
    + destruct (populate_attr_step n res k v w d m _ w' Hd Hm Hstep)
        as (Hout & Hext & d' & m' & Hd' & Hm' & Hlast & Hcase).
      destruct (IH w' r w1 d' m' Hd' Hm' Hrest)
        as (Hout1 & Hext1 & d1 & m1 & Hd1 & Hm1 & Hlast1 & Hnames & Hkeep & Hbind).
      assert (forall c, is_new w' c -> is_new w c) as Hmono.
      { intros c. apply (is_new_extends n); eauto. }
      split; [by eapply same_outside_trans|]. split; [by eapply extends_trans|].
      exists d1, m1. split; [done|]. split; [done|]. split; [congruence|].
      destruct Hcase as [(-> & Hnot) | (_ & Hp & c & Hnew & ->)].
      * (* this round bound nothing *)
        split; [|split].
        -- intros name. destruct (Hnames name) as [? | (c & ? & ?)]; eauto.
        -- intros name Hname. apply Hkeep. intros v0 Hin.
           apply (Hname v0). by right.
        -- intros Hok name cr v0 Hin Hdesc.
           apply elem_of_cons in Hin as [[= <- <-] | Hin].
           ++ rewrite (Hnot (prefix_app _ _) cr v0 eq_refl) in Hdesc. discriminate.
           ++ destruct (Hbind Hok name cr v0 Hin Hdesc) as (c & ? & ?). eauto.
      * (* this round bound [string_from 10 k] to the new node [c] *)
        pose proof (prefix_string_from _ _ Hp) as Hk. simpl in Hk.
        split; [|split].
        -- intros name. destruct (Hnames name) as [Heq | (c' & ? & ?)]; [|eauto].
           rewrite Heq. destruct (decide (string_from 10 k = name)) as [<- | Hne].
           ++ right. exists c. by rewrite lookup_insert_eq.
           ++ left. by rewrite lookup_insert_ne.
        -- intros name Hname. rewrite Hkeep.
           ++ apply lookup_insert_ne. intros <-. apply (Hname v).
              rewrite <- Hk. by left.
           ++ intros v0 Hin. apply (Hname v0). by right.
        -- intros Hok name cr v0 Hin Hdesc.
           apply elem_of_cons in Hin as [[= <- <-] | Hin].
           ++ destruct (Hnames name) as [Heq | (c' & ? & ?)]; [|eauto].
              exists c. split; [|done]. rewrite Heq.
              change 10%nat with (String.length "camliPath:").
              rewrite string_from_app. apply lookup_insert_eq.
           ++ destruct (Hbind Hok name cr v0 Hin Hdesc) as (c' & ? & ?). eauto.
    + destruct (populate_attr_step n res k v w d m _ w1 Hd Hm Hstep)
        as (Hout & Hext & d' & m' & Hd' & Hm' & Hlast & Hcase).
      destruct Hcase as [(-> & _) | (Hok & _)]; [|discriminate].
      split; [done|]. split; [done|].
      exists d', m. repeat split; auto. discriminate.
Qed.

End PopulateLoop.

Section PopulateWhole.
Context `{Blobref} (env : Env).

(** A due [populate], up to the loop: the clock is read, [lastPop] set,
    the describe issued and, if it answers for the directory, the map
    made. *)
Lemma populate_due_run n w d :
  dirs w !! n = Some d ->
  populate_due d (time_Now env (tick w)) ->
  let req := {| req_BlobRef := d_permanode d; Depth := 3 |} in
  let w1 := next_tick (with_described req
              (with_dirs (alter (set_lastPop (time_Now env (tick w))) n) (next_tick w))) in
  let w2 := match children d with
            | None => with_dirs (alter (set_children (Some ∅)) n) w1
            | Some _ => w1
            end in
  populate env n w =
    match client_Describe env (S (tick w)) req with
    | inl _ => (Ok None, with_logged "mutDir.paths:" w1)
    | inr res =>
        match Meta res !! BlobRef_String (d_permanode d) with
        | None => (Ok (Some "dir blobref not described"%string), w1)
        | Some db =>
            match Permanode db with
            | None => (Panic "invalid memory address or nil pointer dereference", w2)
            | Some dp =>
                let '(r, w3) := forM_ (Attr dp) (populate_attr n res) w2 in
                (match r with Ok _ => Ok None | Panic msg => Panic msg end, w3)
            end
        end
    end.
Proof.
  intros Hd Hdue req w1 w2. unfold populate.
  rewrite (bind_Ok _ _ _ _ _ (get_dir_Some _ _ _ Hd)).
  unfold bind at 1. unfold Now at 1. unfold populate_due in Hdue. rewrite Hdue.
  assert (dirs (next_tick w) !! n = Some d) as Hd0 by done.
  rewrite (bind_Ok _ _ _ _ _ (modify_dir_Some _ _ _ _ Hd0)).
  unfold bind at 1. unfold Describe at 1. simpl. fold req. fold w1.
  destruct (client_Describe env (S (tick w)) req) as [e | res]; [done|].
  destruct (Meta res !! BlobRef_String (d_permanode d)) as [db|]; [|done].
  assert (dirs w1 !! n = Some (set_lastPop (time_Now env (tick w)) d)) as Hd1.
  { subst w1. simpl. by rewrite lookup_alter_eq, Hd. }
  assert (make_children n w1 = (Ok tt, w2)) as Hmake.
  { unfold make_children. rewrite (bind_Ok _ _ _ _ _ (get_dir_Some _ _ _ Hd1)).
    subst w2. simpl. destruct (children d); [done|]. by rewrite (modify_dir_Some _ _ _ _ Hd1). }
  rewrite (bind_Ok _ _ _ _ _ Hmake).
  destruct (Permanode db) as [dp|]; simpl; [|done].
  unfold bind. simpl. destruct (forM_ _ _ w2) as [[[] | msg] w3]; done.
Qed.

(** The world in which the loop starts. *)
Lemma populate_before_loop n w d (now : Time) (req : DescribeRequest) :
  dirs w !! n = Some d ->
  let w1 := next_tick (with_described req
              (with_dirs (alter (set_lastPop now) n) (next_tick w))) in
  let w2 := match children d with
            | None => with_dirs (alter (set_children (Some ∅)) n) w1
            | Some _ => w1
            end in
  extends n w w2 /\ files w2 = files w /\ signed w2 = signed w /\
  handles w2 = handles w /\ tmpfiles w2 = tmpfiles w /\
  described w2 = described w ++ [req] /\
  exists d2,
    dirs w2 !! n = Some d2 /\ lastPop d2 = now /\
    children d2 = Some (default ∅ (children d)) /\
    (forall name, default ∅ (children d) !! name = map_index (children d) name).
Proof.
  intros Hd w1 w2.
  assert (extends n w w1) as Hext1.
  { split; [done|]. intros b x Hne Hb. subst w1. simpl. by rewrite lookup_alter_ne. }
  assert (dirs w1 !! n = Some (set_lastPop now d)) as Hd1.
  { subst w1. simpl. by rewrite lookup_alter_eq, Hd. }
  subst w2. destruct (children d) as [m|] eqn:Hm.
  - split; [done|]. repeat (split; [done|]).
    exists (set_lastPop now d). by repeat split.
  - split.
    { eapply extends_trans; [exact Hext1|]. split; [done|].
      intros b x Hne Hb. simpl. by rewrite lookup_alter_ne. }
    repeat (split; [done|]).
    eexists. simpl. rewrite lookup_alter_eq. simpl in Hd1. rewrite Hd1. simpl.
    repeat split; done.
Qed.

(** [populate], due or not and whatever the answers: it signs no claim,
    touches no handle and no scratch file, and leaves every file node
    and every other directory node as it was. *)
Lemma populate_frame n w r w' :
  populate env n w = (r, w') ->
  signed w' = signed w /\ handles w' = handles w /\ tmpfiles w' = tmpfiles w /\
  extends n w w' /\ (is_Some (dirs w !! n) -> is_Some (dirs w' !! n)).
Proof.
  intros Hrun. destruct (dirs w !! n) as [d|] eqn:Hd.
  2:{ unfold populate in Hrun. unfold bind at 1 in Hrun. unfold get_dir in Hrun.
      rewrite Hd in Hrun. injection Hrun as <- <-. repeat split; auto.
      by intros []. }
  destruct (decide (Time_After (Time_Add (lastPop d) populateInterval)
                      (time_Now env (tick w)) = false)) as [Hdue | Hdue].
  2:{ rewrite (populate_recent env n w d Hd Hdue) in Hrun. injection Hrun as <- <-.
      simpl. rewrite Hd. repeat split; eauto. }
  pose proof (populate_due_run n w d Hd Hdue) as Hshape. simpl in Hshape.
  destruct (populate_before_loop n w d (time_Now env (tick w))
              {| req_BlobRef := d_permanode d; Depth := 3 |} Hd)
    as (Hext & Hfiles & Hsigned & Hh & Ht & _ & d2 & Hd2 & _ & Hm2 & _).
  assert (extends n w (next_tick (with_described {| req_BlobRef := d_permanode d; Depth := 3 |}
            (with_dirs (alter (set_lastPop (time_Now env (tick w))) n) (next_tick w)))))
    as Hext1.
  { split; [done|]. intros b x Hne Hb. simpl. by rewrite lookup_alter_ne. }
  destruct (client_Describe env (S (tick w)) _) as [e | res].
  { rewrite Hshape in Hrun. injection Hrun as <- <-. simpl.
    rewrite lookup_alter_eq, Hd. repeat split; eauto; apply Hext1. }
  destruct (Meta res !! _) as [db|].
  2:{ rewrite Hshape in Hrun. injection Hrun as <- <-. simpl.
      rewrite lookup_alter_eq, Hd. repeat split; eauto; apply Hext1. }
  destruct (Permanode db) as [dp|].
  2:{ rewrite Hshape in Hrun. injection Hrun as <- <-.
      rewrite Hd2. repeat split; eauto; apply Hext. }
  rewrite Hshape in Hrun.
  destruct (forM_ _ _ _) as [r3 w3] eqn:Hloop. injection Hrun as <- <-.
  destruct (populate_loop n res (Attr dp) _ r3 w3 d2 _ Hd2 Hm2 Hloop)
    as ((Hh3 & Ht3 & _ & _ & Hs3) & Hext3 & d3 & m3 & Hd3 & _).
  rewrite Hd3. split; [congruence|]. split; [congruence|]. split; [congruence|].
  split; [exact (extends_trans _ _ _ _ Hext Hext3) | eauto].
Qed.

End PopulateWhole.





(** *** Rename *)

Section RenameRun.
Context `{Blobref} (env : Env).

Lemma permanodeString_run c w ps :
  permanode_of w c = Some ps -> permanodeString c w = (Ok ps, w).
Proof.
  destruct c as [a | a]; simpl; unfold get_dir, get_file, bind, deref, ret.
  - destruct (dirs w !! a); simpl; [|done]. by intros [= <-].
  - destruct (files w !! a); simpl; [|done]. by intros [= <-].
Qed.

(** [Rename] up to the lookup of the old name, when both populates
    return nil. *)
Lemma Rename_after_populate n req n2 w w1 w2 d :
  populate env n w = (Ok None, w1) ->
  populate env n2 w1 = (Ok None, w2) ->
  dirs w2 !! n = Some d ->
  signed w2 = signed w /\
  Rename env n req (MutNode (DirNode n2)) w =
    match child_of w2 n (OldName req) with
    | None =>
        (Ok (Some ENOENT), with_logged "*mutDir.Rename src name %q isn't known" w2)
    | Some target =>
        (now <- Now env ;;
         d2 <- get_dir n2 ;;
         ps <- permanodeString target ;;
         let claim := SetClaimDate now
                        (NewSetAttributeClaim (d_permanode d2)
                           ("camliPath:" +:+ NewName req) ps) in
         err <- UploadAndSignBlob env claim ;;
         match err with
         | Some _ => log_Printf "Upload rename link error: %v" ;; ret (Some EIO)
         | None =>
         let delClaim := SetClaimDate now
                           (NewDelAttributeClaim (d_permanode d)
                              ("camliPath:" +:+ OldName req)) in
         err <- UploadAndSignBlob env delClaim ;;
         match err with
         | Some _ => log_Printf "Upload rename src unlink error: %v" ;; ret (Some EIO)
         | None =>
         d <- get_dir n ;;
         if decide (map_index (children d) (OldName req) = Some target) then
           modify_dir n (fun d => set_children (map_delete (OldName req) (children d)) d) ;;
           assign_child n2 (NewName req) target ;;
           ret None
         else panic "Race."
         end end) w2
    end.
Proof.
  intros Hp1 Hp2 Hd.
  destruct (populate_frame env n w _ w1 Hp1) as (Hs1 & _).
  destruct (populate_frame env n2 w1 _ w2 Hp2) as (Hs2 & _).
  split; [congruence|].
  unfold Rename.
  rewrite (bind_Ok _ _ _ _ _ Hp1). rewrite (bind_Ok _ _ _ _ _ Hp2).
  rewrite (bind_Ok _ _ _ _ _ (get_dir_Some _ _ _ Hd)).
  unfold child_of, children_of. rewrite Hd. simpl.
  by destruct (map_index (children d) (OldName req)).
Qed.

End RenameRun.

(** C5, as the code has it. A [Rename] onto a node that is not a mutable
    directory fails with EIO and signs nothing. After both directories
    have been populated: if the old name is absent, [Rename] fails with
    ENOENT and signs nothing; otherwise it reads the clock once and hands
    the client first the set-attribute claim [camliPath:newName] = the
    target's permanode on the destination's permanode, dated with that
    reading; if that upload fails, [Rename] fails with EIO and this is the
    only claim; if it succeeds, the del-attribute claim [camliPath:oldName]
    on the source's permanode follows, with the same date, and these are
    the two claims, in this order. *)
Theorem Rename_claims `{Blobref} (env : Env) (n : addr) (req : RenameRequest) (w : World) :
  (forall newDir,
     (forall n2, newDir <> MutNode (DirNode n2)) ->
     exists w', Rename env n req newDir w = (Ok (Some EIO), w') /\ signed w' = signed w) /\
  (forall n2 w1 w2 d,
     populate env n w = (Ok None, w1) ->
     populate env n2 w1 = (Ok None, w2) ->
     dirs w2 !! n = Some d ->
     (child_of w2 n (OldName req) = None ->
      exists w', Rename env n req (MutNode (DirNode n2)) w = (Ok (Some ENOENT), w') /\
                 signed w' = signed w) /\
     (forall target d2 ps,
        child_of w2 n (OldName req) = Some target ->
        dirs w2 !! n2 = Some d2 ->
        permanode_of w2 target = Some ps ->
        let now := time_Now env (tick w2) in
        let link := SetClaimDate now
                      (NewSetAttributeClaim (d_permanode d2)
                         ("camliPath:" +:+ NewName req) ps) in
        let unlink := SetClaimDate now
                        (NewDelAttributeClaim (d_permanode d)
                           ("camliPath:" +:+ OldName req)) in
        exists r w',
          Rename env n req (MutNode (DirNode n2)) w = (r, w') /\
          match client_UploadAndSignBlob env (S (tick w2)) link with
          | Some _ => r = Ok (Some EIO) /\ signed w' = signed w ++ [link]
          | None =>
              signed w' = signed w ++ [link; unlink] /\
              match client_UploadAndSignBlob env (S (S (tick w2))) unlink with
              | Some _ => r = Ok (Some EIO)
              | None => (r = Ok None \/ exists msg, r = Panic msg) /\
                        (children d2 <> None -> r = Ok None)
              end
          end)).
Proof.
  split.
  - intros newDir Hnot. unfold Rename.
    destruct newDir as [[n2 | a] |]; [by destruct (Hnot n2) | |];
      eexists; (split; [reflexivity | done]).
  - intros n2 w1 w2 d Hp1 Hp2 Hd.
    destruct (Rename_after_populate env n req n2 w w1 w2 d Hp1 Hp2 Hd) as (Hsigned & Hshape).
    split.
    + intros Hnone. rewrite Hnone in Hshape. eexists. split; [exact Hshape | done].
    + intros target d2 ps Htarget Hd2 Hps now link unlink.
      rewrite Htarget in Hshape. rewrite Hshape. clear Hshape.
      unfold bind at 1. unfold Now at 1. fold now.
      assert (dirs (next_tick w2) !! n2 = Some d2) as Hd2' by done.
      rewrite (bind_Ok _ _ _ _ _ (get_dir_Some _ _ _ Hd2')).
      assert (permanode_of (next_tick w2) target = Some ps) as Hps'
        by (by destruct target).
      rewrite (bind_Ok _ _ _ _ _ (permanodeString_run _ _ _ Hps')).
      fold link. unfold bind at 1. unfold UploadAndSignBlob at 1. simpl.
      destruct (client_UploadAndSignBlob env (S (tick w2)) link) as [e|].
      { eexists _, _. split; [reflexivity|]. simpl. split; [done | congruence]. }
      fold unlink. unfold bind at 1. unfold UploadAndSignBlob at 1. simpl.
      destruct (client_UploadAndSignBlob env (S (S (tick w2))) unlink) as [e|].
      { eexists _, _. split; [reflexivity|]. simpl. rewrite Hsigned.
        by rewrite <- app_assoc. }
      set (w5 := next_tick (with_signed unlink (next_tick (with_signed link (next_tick w2))))).
      assert (signed w5 = signed w ++ [link; unlink]) as Hs5.
      { subst w5. simpl. rewrite Hsigned. by rewrite <- app_assoc. }
      assert (dirs w5 !! n = Some d) as Hd5 by done.
      rewrite (bind_Ok _ _ _ _ _ (get_dir_Some _ _ _ Hd5)).
      assert (map_index (children d) (OldName req) = Some target) as Hstill.
      { revert Htarget. unfold child_of, children_of. by rewrite Hd. }
      destruct (decide _) as [_ | Hrace]; [|done].
      rewrite (bind_Ok _ _ _ _ _ (modify_dir_Some _ _ _ _ Hd5)).
      set (w6 := with_dirs _ w5).
      assert (signed w6 = signed w ++ [link; unlink]) as Hs6 by done.
      unfold bind at 1. unfold assign_child.
      destruct (dirs w6 !! n2) as [d6|] eqn:Hd6.
      2:{ exfalso. revert Hd6. subst w6 w5. simpl.
          destruct (decide (n = n2)) as [-> | Hne].
          - rewrite lookup_alter_eq. by rewrite Hd2.
          - rewrite lookup_alter_ne by done. by rewrite Hd2. }
      rewrite (bind_Ok _ _ _ _ _ (get_dir_Some _ _ _ Hd6)).
      destruct (children d6) as [m6|] eqn:Hm6.
      * rewrite (modify_dir_Some _ _ _ _ Hd6). simpl.
        eexists _, _. split; [reflexivity|]. simpl. split; [done|]. split; eauto.
      * eexists _, _. split; [reflexivity|]. split; [done|]. split; [eauto|].
        intros Hsome. exfalso. revert Hd6. subst w6 w5. simpl.
        destruct (decide (n = n2)) as [-> | Hne].
        -- rewrite lookup_alter_eq, Hd. simpl. intros [= <-]. simpl in Hm6.
           destruct (children d); [discriminate|]. simpl in Hstill. discriminate.
        -- rewrite lookup_alter_ne by done. rewrite Hd2. intros [= <-]. done.
Qed.

(** Renaming [a] to [b] inside a directory populated just now, with a
    client that accepts the claims: two claims, link then unlink, both
    dated [now0]. Renaming a name the directory does not have: ENOENT and
    no claim. Renaming onto a node of another kind: EIO and no claim. *)
Lemma Rename_claims_witness :
  (exists w' : @World FsExamples.string_blobref,
     Rename FsExamples.env_described 1%positive {| OldName := "a"; NewName := "b" |}
       (MutNode (DirNode 1%positive)) FsExamples.w_recent = (Ok None, w') /\
     signed w' = [FsExamples.claim_link; FsExamples.claim_unlink]) /\
  (exists w' : @World FsExamples.string_blobref,
     Rename FsExamples.env_described 1%positive {| OldName := "zzz"; NewName := "b" |}
       (MutNode (DirNode 1%positive)) FsExamples.w_recent = (Ok (Some ENOENT), w') /\
     signed w' = []) /\
  (exists w' : @World FsExamples.string_blobref,
     Rename FsExamples.env_described 1%positive {| OldName := "a"; NewName := "b" |}
       ForeignNode FsExamples.w_recent = (Ok (Some EIO), w') /\
     signed w' = []).
Proof.
  split; [|split].
  - destruct (Rename_claims (H := FsExamples.string_blobref) FsExamples.env_described
                1%positive {| OldName := "a"; NewName := "b" |} FsExamples.w_recent)
      as (_ & Hdir).
    destruct (Hdir 1%positive (next_tick FsExamples.w_recent)
                (next_tick (next_tick FsExamples.w_recent))
                (FsExamples.dir_with FsExamples.now0 "a") eq_refl eq_refl eq_refl)
      as (_ & Hfound).
    destruct (Hfound (FileNode 1%positive) (FsExamples.dir_with FsExamples.now0 "a")
                "sha1-x"%string eq_refl eq_refl eq_refl)
      as (r & w' & Hrun & Hsigned & _ & Hok).
    rewrite (Hok ltac:(discriminate)) in Hrun.
    exists w'. split; [exact Hrun | exact Hsigned].
  - destruct (Rename_claims (H := FsExamples.string_blobref) FsExamples.env_described
                1%positive {| OldName := "zzz"; NewName := "b" |} FsExamples.w_recent)
      as (_ & Hdir).
    destruct (Hdir 1%positive (next_tick FsExamples.w_recent)
                (next_tick (next_tick FsExamples.w_recent))
                (FsExamples.dir_with FsExamples.now0 "a") eq_refl eq_refl eq_refl)
      as (Habsent & _).
    exact (Habsent eq_refl).
  - destruct (Rename_claims (H := FsExamples.string_blobref) FsExamples.env_described
                1%positive {| OldName := "a"; NewName := "b" |} FsExamples.w_recent)
      as (Hforeign & _).
    apply (Hforeign ForeignNode). discriminate.
Defined.

(** C5 as stated fails: this [Rename] reaches claim emission, the upload
    of the first claim fails, and it returns EIO having issued one claim,
    not two. *)
Lemma Rename_first_upload_fails_one_claim :
  exists w' : @World FsExamples.string_blobref,
    Rename FsExamples.env_sign_fails 1%positive {| OldName := "a"; NewName := "b" |}
      (MutNode (DirNode 1%positive)) FsExamples.w_recent = (Ok (Some EIO), w') /\
    signed w' = [FsExamples.claim_link] /\
    length (signed w') <> 2%nat.
Proof.
  eexists. split; [vm_compute; reflexivity|]. split; [reflexivity|]. simpl. lia.
Qed.

End FsSpec.

(** * Further properties *)

(** ** The directory lock registry *)

Module LocaldiskMore.
Import Localdisk LocaldiskSpec.

(** *** Counting callers *)

Lemma number_of_app p l1 l2 :
  number_of p (l1 ++ l2) = (number_of p l1 + number_of p l2)%nat.
Proof. induction l1 as [|c l1 IH]; simpl; [done|]. rewrite IH. lia. Qed.

Lemma number_of_none p cs :
  (forall c, c ∈ cs -> p c = false) -> number_of p cs = O.
Proof.
  induction cs as [|c cs IH]; intros Hall; simpl; [done|].
  rewrite (Hall c) by left. rewrite IH; [done|]. intros c' Hc'. apply Hall. by right.
Qed.

Lemma number_of_zero p cs c : number_of p cs = O -> c ∈ cs -> p c = false.
Proof.
  induction cs as [|c' cs IH]; simpl; intros Hz Hc; [by apply elem_of_nil in Hc|].
  apply elem_of_cons in Hc as [-> | Hc].
  - destruct (p c'); [lia | done].
  - apply IH; [lia | done].
Qed.

Lemma number_of_pos p cs c : c ∈ cs -> p c = true -> (0 < number_of p cs)%nat.
Proof.
  intros Hc Hp. destruct (number_of p cs) eqn:Hn; [|lia].
  rewrite (number_of_zero p cs c Hn Hc) in Hp. discriminate.
Qed.

Lemma number_of_two p cs i j c1 c2 :
  i <> j -> cs !! i = Some c1 -> cs !! j = Some c2 ->
  p c1 = true -> p c2 = true -> (2 <= number_of p cs)%nat.
Proof.
  revert i j. induction cs as [|c cs IH]; intros i j Hij Hi Hj Hp1 Hp2; [done|].
  destruct i as [|i], j as [|j]; simpl in *; try done.
  - injection Hi as ->. rewrite Hp1.
    pose proof (number_of_pos p cs c2 (list_elem_of_lookup_2 _ _ _ Hj) Hp2). lia.
  - injection Hj as ->. rewrite Hp2.
    pose proof (number_of_pos p cs c1 (list_elem_of_lookup_2 _ _ _ Hi) Hp1). lia.
  - assert (i <> j) by congruence.
    pose proof (IH i j ltac:(done) Hi Hj Hp1 Hp2). lia.
Qed.

Lemma at_lock_true mu md ph c :
  at_lock mu md ph c = true <-> c_mu c = mu /\ c_mode c = md /\ c_phase c = ph.
Proof.
  unfold at_lock. rewrite !andb_true_iff, Pos.eqb_eq.
  destruct (c_mode c), md, (c_phase c), ph; simpl;
    (split; [intros [[? ?] ?] | intros (? & ? & ?)]); try discriminate; auto.
Qed.

Lemma at_lock_other mu mu' md ph c : c_mu c <> mu' -> c_mu c = mu -> at_lock mu' md ph c = false.
Proof.
  intros Hne _. apply not_true_is_false. rewrite at_lock_true. intros (? & _). done.
Qed.

(** Changing a caller that is not, before or after, on lock [mu] in a
    phase that [mu] counts leaves [mu] matched. *)
Lemma lock_matches_frame mu m l1 c c' l2 :
  (forall md ph, ph = holding \/ ph = blocked ->
                 at_lock mu md ph c = at_lock mu md ph c') ->
  lock_matches mu m (l1 ++ c :: l2) -> lock_matches mu m (l1 ++ c' :: l2).
Proof.
  intros Hsame. unfold lock_matches. rewrite !number_of_app. simpl.
  rewrite !(Hsame _ _ (or_introl eq_refl)), !(Hsame _ _ (or_intror eq_refl)). done.
Qed.

(** *** The invariant *)

Lemma consistent_initial : consistent {| registry := initial; callers := [] |}.
Proof.
  split; [done|]. split; [|split].
  - intros mu m Hm. simpl in Hm. by rewrite lookup_empty in Hm.
  - intros c Hc. by apply elem_of_nil in Hc.
  - intros dir mu Hd. simpl in Hd. by rewrite lookup_empty in Hd.
Qed.

(** A caller just out of [getDirLock], or past its unlock of the lock, is
    counted by no lock. *)
Lemma at_lock_phase mu md ph c :
  c_phase c = registered \/ c_phase c = releasing ->
  ph = holding \/ ph = blocked -> at_lock mu md ph c = false.
Proof.
  intros Hc Hph. apply not_true_is_false. rewrite at_lock_true.
  intros (_ & _ & Heq). destruct Hc as [Hc | Hc], Hph as [-> | ->]; congruence.
Qed.

Lemma lock_matches_add mu m cs c :
  c_phase c = registered -> lock_matches mu m cs -> lock_matches mu m (cs ++ [c]).
Proof.
  intros Hc. unfold lock_matches. rewrite !number_of_app. simpl.
  rewrite !(at_lock_phase mu _ _ c) by auto. lia.
Qed.

Lemma lock_matches_remove mu m l1 c l2 :
  c_phase c = releasing -> lock_matches mu m (l1 ++ c :: l2) -> lock_matches mu m (l1 ++ l2).
Proof.
  intros Hc. unfold lock_matches. rewrite !number_of_app. simpl.
  rewrite !(at_lock_phase mu _ _ c) by auto. lia.
Qed.

(** One caller moves from one phase to another by an event of its lock
    that changes only that lock, consistently with the move. *)
Lemma mutex_step_consistent st l1 c l2 st1 ph m m' :
  consistent {| registry := st; callers := l1 ++ c :: l2 |} ->
  locksOut st1 = locksOut st -> dirLocks st1 = dirLocks st ->
  mutexes st !! c_mu c = Some m ->
  mutexes st1 = <[c_mu c := m']> (mutexes st) ->
  (lock_matches (c_mu c) m (l1 ++ c :: l2) -> (writer m = true -> readers m = O) ->
   lock_matches (c_mu c) m' (l1 ++ with_phase ph c :: l2) /\
   (writer m' = true -> readers m' = O)) ->
  consistent {| registry := st1; callers := l1 ++ with_phase ph c :: l2 |}.
Proof.
  intros (Hcount & Hlocks & Hdirs & Hwf) Hc Hmap Hm Hmx Hrel. simpl in *.
  split; [|split; [|split]]; simpl.
  - rewrite Hc, Hcount. rewrite !length_app. simpl. done.
  - intros mu m0. rewrite Hmx. destruct (decide (mu = c_mu c)) as [-> | Hne].
    + rewrite lookup_insert_eq. intros [= <-].
      destruct (Hlocks _ _ Hm) as [Hmatch Hw]. by apply Hrel.
    + rewrite lookup_insert_ne by done. intros Hm0.
      destruct (Hlocks _ _ Hm0) as [Hmatch Hw]. split; [|done].
      eapply lock_matches_frame; [|exact Hmatch].
      intros md ph' _. rewrite !(at_lock_other (c_mu c) mu); done.
  - intros c0 Hc0. rewrite Hmap.
    apply elem_of_app in Hc0 as [Hc0 | Hc0].
    + apply Hdirs. apply elem_of_app. by left.
    + apply elem_of_cons in Hc0 as [-> | Hc0].
      * apply (Hdirs c). apply elem_of_app. right. left.
      * apply Hdirs. apply elem_of_app. right. by right.
  - intros dir mu Hd. rewrite Hmap in Hd. rewrite Hmx.
    destruct (decide (mu = c_mu c)) as [-> | Hne].
    + rewrite lookup_insert_eq. eauto.
    + rewrite lookup_insert_ne by done. eauto.
Qed.

(** How the counts of a lock move with the caller [c] of that lock. *)
Lemma number_of_move mu md ph ph' l1 c l2 :
  number_of (at_lock mu md ph') (l1 ++ with_phase ph c :: l2)
  = (number_of (at_lock mu md ph') (l1 ++ c :: l2)
     + (if at_lock mu md ph' (with_phase ph c) then 1 else 0)
     - (if at_lock mu md ph' c then 1 else 0))%nat.
Proof.
  rewrite !number_of_app. simpl.
  destruct (at_lock mu md ph' (with_phase ph c)), (at_lock mu md ph' c); lia.
Qed.

Ltac at_lock_eval :=
  repeat match goal with
  | |- context [at_lock ?mu ?md ?ph ?c] =>
      let b := fresh "b" in
      let Hb := fresh "Hb" in
      destruct (at_lock mu md ph c) eqn:Hb;
      [apply at_lock_true in Hb; simpl in Hb; destruct Hb as (? & ? & ?); try congruence
      |apply not_true_iff_false in Hb; rewrite at_lock_true in Hb; simpl in Hb;
       try (exfalso; apply Hb; repeat split; congruence)]
  end.

(** Every event keeps the invariant, as long as the count does not
    overflow. *)
Lemma step_consistent s s' :
  consistent s -> step s s' -> Z.of_nat (length (callers s')) < 2 ^ 63 -> consistent s'.
Proof.
  intros Hs Hstep Hbound.
  destruct Hstep as [dir md st cs mu st1 Hget
                    | st l1 c l2 st1 Hph Hop
                    | st l1 c l2 Hph Hop
                    | st l1 c l2 st1 Hph Hop
                    | st l1 c l2 st1 Hph Hop
                    | st l1 c l2 Hph].
  - (* getDirLock *)
    destruct Hs as (Hcount & Hlocks & Hdirs & Hwf). simpl in *.
    destruct (getDirLock_spec dir st mu st1 Hget) as (Hinc & Hmu & Hold & Hnew).
    rewrite length_app in Hbound. simpl in Hbound.
    assert (forall c, c ∈ cs -> is_Some (mutexes st !! c_mu c)) as Hexists.
    { intros c Hc. eapply Hwf, Hdirs, Hc. }
    split; [|split; [|split]]; simpl.
    + rewrite Hinc, Hcount, length_app. simpl.
      rewrite wrap64_id by (unfold int64_range; lia). lia.
    + intros mu' m'. destruct (dirLocks st !! dir) as [l|] eqn:Hd.
      * destruct (Hold l eq_refl) as (_ & _ & ->). intros Hm'.
        destruct (Hlocks _ _ Hm') as [Hmatch Hw]. split; [|done].
        by apply lock_matches_add.
      * destruct (Hnew eq_refl) as (Hfresh & _ & ->).
        destruct (decide (mu' = mu)) as [-> | Hne].
        -- rewrite lookup_insert_eq. intros [= <-]. split; [|done].
           apply lock_matches_add; [done|].
           assert (forall md' ph', number_of (at_lock mu md' ph') cs = O) as Hzero.
           { intros md' ph'. apply number_of_none. intros c Hc.
             apply not_true_is_false. rewrite at_lock_true. intros (Heq & _).
             destruct (Hexists c Hc) as [m0 Hm0]. congruence. }
           unfold lock_matches. rewrite !Hzero. done.
        -- rewrite lookup_insert_ne by done. intros Hm'.
           destruct (Hlocks _ _ Hm') as [Hmatch Hw]. split; [|done].
           by apply lock_matches_add.
    + intros c Hc. apply elem_of_app in Hc as [Hc | Hc].
      * destruct (dirLocks st !! dir) as [l|] eqn:Hd.
        -- destruct (Hold l eq_refl) as (_ & -> & _). by apply Hdirs.
        -- destruct (Hnew eq_refl) as (_ & -> & _).
           rewrite lookup_insert_ne; [by apply Hdirs|].
           intros Heq. specialize (Hdirs c Hc). congruence.
      * apply list_elem_of_singleton in Hc as ->. done.
    + intros dir' mu'. destruct (dirLocks st !! dir) as [l|] eqn:Hd.
      * destruct (Hold l eq_refl) as (_ & -> & ->). apply Hwf.
      * destruct (Hnew eq_refl) as (Hfresh & -> & ->).
        destruct (decide (dir' = dir)) as [-> | Hne].
        -- rewrite lookup_insert_eq. intros [= <-]. rewrite lookup_insert_eq. eauto.
        -- rewrite lookup_insert_ne by done. intros Hd'.
           destruct (Hwf _ _ Hd') as [m0 Hm0].
           rewrite lookup_insert_ne; [eauto | congruence].
  - (* the lock call returns at once *)
    destruct (c_mode c) eqn:Hmode; simpl in Hop.
    + unfold RLock in Hop. destruct (mutexes st !! c_mu c) as [m|] eqn:Hm; [|done].
      simpl in Hop. destruct (writer m) eqn:Hw; [done|].
      destruct (blocked_writers m) eqn:Hbw; [|done]. injection Hop as <-.
      eapply mutex_step_consistent; [exact Hs | done | done | exact Hm | done |].
      intros (Hr & Hwr & Hbr & Hbwr) _. rewrite Hw, Hbw in *. simpl.
      split; [|done]. unfold lock_matches. simpl.
      rewrite !number_of_move.
      rewrite <- Hr, <- Hwr, <- Hbr, <- Hbwr. at_lock_eval; repeat split; lia.
    + unfold Lock in Hop. destruct (mutexes st !! c_mu c) as [m|] eqn:Hm; [|done].
      simpl in Hop. destruct (writer m) eqn:Hw; [done|].
      destruct (readers m) eqn:Hrd; [|done].
      destruct (blocked_readers m) eqn:Hbrd; [|done].
      destruct (blocked_writers m) eqn:Hbw; [|done]. injection Hop as <-.
      eapply mutex_step_consistent; [exact Hs | done | done | exact Hm | done |].
      intros (Hr & Hwr & Hbr & Hbwr) _. rewrite Hw, Hbw, Hrd, Hbrd in *. simpl.
      split; [|done]. unfold lock_matches. simpl.
      rewrite !number_of_move.
      rewrite <- Hr, <- Hwr, <- Hbr, <- Hbwr. at_lock_eval; repeat split; lia.
  - (* the lock call blocks *)
    destruct Hs as (Hcount & Hlocks & Hdirs & Hwf).
    assert (is_Some (mutexes st !! c_mu c)) as [m Hm].
    { eapply Hwf, Hdirs. simpl. apply elem_of_app. right. left. }
    assert (consistent {| registry := st; callers := l1 ++ c :: l2 |}) as Hs by done.
    destruct (c_mode c) eqn:Hmode; simpl.
    + unfold RLock_block. rewrite Hm.
      eapply mutex_step_consistent; [exact Hs | done | done | exact Hm | done |].
      intros (Hr & Hwr & Hbr & Hbwr) Hwf'. simpl.
      split; [|done]. unfold lock_matches. simpl.
      rewrite !number_of_move.
      rewrite <- Hr, <- Hwr, <- Hbr, <- Hbwr. at_lock_eval; repeat split; lia.
    + unfold Lock_block. rewrite Hm.
      eapply mutex_step_consistent; [exact Hs | done | done | exact Hm | done |].
      intros (Hr & Hwr & Hbr & Hbwr) Hwf'. simpl.
      split; [|done]. unfold lock_matches. simpl.
      rewrite !number_of_move.
      rewrite <- Hr, <- Hwr, <- Hbr, <- Hbwr. at_lock_eval; repeat split; lia.
  - (* a blocked call returns *)
    destruct (c_mode c) eqn:Hmode; simpl in Hop.
    + unfold RLock_return in Hop.
      destruct (mutexes st !! c_mu c) as [m|] eqn:Hm; [|done].
      simpl in Hop. destruct (writer m) eqn:Hw; [done|].
      destruct (blocked_readers m) eqn:Hbrd; [done|]. injection Hop as <-.
      eapply mutex_step_consistent; [exact Hs | done | done | exact Hm | done |].
      intros (Hr & Hwr & Hbr & Hbwr) _. rewrite Hw, Hbrd in *. simpl.
      split; [|done]. unfold lock_matches. simpl.
      rewrite !number_of_move.
      rewrite <- Hr, <- Hwr, <- Hbr, <- Hbwr. at_lock_eval; repeat split; lia.
    + unfold Lock_return in Hop.
      destruct (mutexes st !! c_mu c) as [m|] eqn:Hm; [|done].
      simpl in Hop. destruct (writer m) eqn:Hw; [done|].
      destruct (readers m) eqn:Hrd; [|done].
      destruct (blocked_writers m) eqn:Hbw; [done|]. injection Hop as <-.
      eapply mutex_step_consistent; [exact Hs | done | done | exact Hm | done |].
      intros (Hr & Hwr & Hbr & Hbwr) _. rewrite Hw, Hbw, Hrd in *. simpl.
      split; [|done]. unfold lock_matches. simpl.
      rewrite !number_of_move.
      rewrite <- Hr, <- Hwr, <- Hbr, <- Hbwr. at_lock_eval; repeat split; lia.
  - (* the lock is released *)
    destruct (c_mode c) eqn:Hmode; simpl in Hop.
    + unfold RUnlock in Hop.
      destruct (mutexes st !! c_mu c) as [m|] eqn:Hm; [|done].
      simpl in Hop. destruct (readers m) eqn:Hrd; [done|]. injection Hop as <-.
      eapply mutex_step_consistent; [exact Hs | done | done | exact Hm | done |].
      intros (Hr & Hwr & Hbr & Hbwr) Hwf'. rewrite Hrd in *. simpl.
      split; [|intros Hw; specialize (Hwf' Hw); done].
      unfold lock_matches. simpl.
      rewrite !number_of_move.
      rewrite <- Hr, <- Hwr, <- Hbr, <- Hbwr. at_lock_eval; repeat split; lia.
    + unfold RWUnlock in Hop.
      destruct (mutexes st !! c_mu c) as [m|] eqn:Hm; [|done].
      simpl in Hop. destruct (writer m) eqn:Hw; [|done]. injection Hop as <-.
      eapply mutex_step_consistent; [exact Hs | done | done | exact Hm | done |].
      intros (Hr & Hwr & Hbr & Hbwr) Hwf'. rewrite Hw in *. simpl.
      split; [|done]. unfold lock_matches. simpl.
      rewrite !number_of_move.
      rewrite <- Hr, <- Hwr, <- Hbr, <- Hbwr. at_lock_eval; repeat split; lia.
  - (* unlockDirLock *)
    destruct Hs as (Hcount & Hlocks & Hdirs & Hwf). cbn [registry callers] in *.
    destruct (unlockDirLock_spec st) as (Hdec & Hzero & Hnz & Hmx).
    assert (locksOut (unlockDirLock st) = Z.of_nat (length (l1 ++ l2))) as Hcount'.
    { rewrite Hdec, Hcount. rewrite !length_app. simpl.
      rewrite length_app in Hbound.
      rewrite wrap64_id by (unfold int64_range; lia). lia. }
    split; [|split; [|split]]; cbn [registry callers].
    + exact Hcount'.
    + intros mu m. rewrite Hmx. intros Hm.
      destruct (Hlocks _ _ Hm) as [Hmatch Hw]. split; [|done].
      by eapply lock_matches_remove.
    + intros c0 Hc0.
      destruct (decide (locksOut (unlockDirLock st) = 0)) as [Hz | Hne].
      * rewrite Hz in Hcount'. destruct (l1 ++ l2); [|simpl in Hcount'; lia].
        by apply elem_of_nil in Hc0.
      * rewrite (Hnz Hne). apply Hdirs.
        apply elem_of_app in Hc0 as [Hc0 | Hc0]; apply elem_of_app; [by left|].
        right. by right.
    + intros dir mu.
      destruct (decide (locksOut (unlockDirLock st) = 0)) as [Hz | Hne].
      * rewrite (Hzero Hz), lookup_empty. done.
      * rewrite (Hnz Hne), Hmx. apply Hwf.
Qed.

(** Every state the package reaches is consistent, while fewer than
    [2^63] callers are outstanding at a time. *)
Lemma reaches_consistent N s :
  reaches N s -> Z.of_nat N < 2 ^ 63 -> consistent s.
Proof.
  intros Hreach HN. induction Hreach as [|s s' _ IH Hstep Hlen].
  - apply consistent_initial.
  - eapply step_consistent; [exact IH | exact Hstep | lia].
Qed.


(** An acquisition run without another caller in between is two events
    of its caller: [getDirLock], then the lock call, which returns at
    once or blocks. An [Unlock] so run is two events as well: the unlock
    of the lock, then [unlockDirLock]. *)
Lemma acquire_is_two_events md dir st cs r st' :
  match md with keep => keepDirectoryLock | delete => deleteDirectoryLock end dir st
    = (r, st') ->
  exists mu st1,
    let c := {| c_dir := dir; c_mu := mu; c_mode := md; c_phase := registered |} in
    step {| registry := st; callers := cs |}
         {| registry := st1; callers := cs ++ [c] |} /\
    step {| registry := st1; callers := cs ++ [c] |}
         {| registry := st';
            callers := cs ++ [with_phase (match r with
                                          | Some _ => holding
                                          | None => blocked
                                          end) c] |} /\
    (forall u, r = Some u -> u = unlocker_of c).
Proof.
  intros Hrun. destruct (getDirLock dir st) as [mu st1] eqn:Hget.
  exists mu, st1. simpl. split; [by apply step_getDirLock|].
  destruct md; unfold keepDirectoryLock, deleteDirectoryLock in Hrun; rewrite Hget in Hrun.
  - destruct (RLock mu st1) as [st2|] eqn:Hl; injection Hrun as <- <-.
    + split; [|by intros u [= <-]].
      by apply (step_lock st1 cs
                  {| c_dir := dir; c_mu := mu; c_mode := keep; c_phase := registered |} []).
    + split; [|done].
      by apply (step_block st1 cs
                  {| c_dir := dir; c_mu := mu; c_mode := keep; c_phase := registered |} []).
  - destruct (Lock mu st1) as [st2|] eqn:Hl; injection Hrun as <- <-.
    + split; [|by intros u [= <-]].
      by apply (step_lock st1 cs
                  {| c_dir := dir; c_mu := mu; c_mode := delete; c_phase := registered |} []).
    + split; [|done].
      by apply (step_block st1 cs
                  {| c_dir := dir; c_mu := mu; c_mode := delete; c_phase := registered |} []).
Qed.

Lemma Unlock_is_two_events l1 c l2 st st' :
  c_phase c = holding ->
  Unlock (unlocker_of c) st = Some st' ->
  exists st1,
    step {| registry := st; callers := l1 ++ c :: l2 |}
         {| registry := st1; callers := l1 ++ with_phase releasing c :: l2 |} /\
    step {| registry := st1; callers := l1 ++ with_phase releasing c :: l2 |}
         {| registry := st'; callers := l1 ++ l2 |}.
Proof.
  intros Hph Hrun. unfold unlocker_of, Unlock in Hrun.
  destruct (c_mode c) eqn:Hmd.
  - destruct (RUnlock (c_mu c) st) as [st1|] eqn:Hop; [|done]. injection Hrun as <-.
    exists st1. split.
    + apply step_release; [done|]. by rewrite Hmd.
    + by apply (step_unlockDirLock st1 l1 (with_phase releasing c) l2).
  - destruct (RWUnlock (c_mu c) st) as [st1|] eqn:Hop; [|done]. injection Hrun as <-.
    exists st1. split.
    + apply step_release; [done|]. by rewrite Hmd.
    + by apply (step_unlockDirLock st1 l1 (with_phase releasing c) l2).
Qed.

(** *** States of the examples *)

Lemma reaches_one_reader :
  reaches 2 {| registry := reg_one_reader; callers := [one_reader] |}.
Proof.
  eapply reaches_step; [eapply reaches_step; [apply reaches_initial | |] | |].
  - apply (step_getDirLock "d" keep initial [] 1%positive reg_registered).
    vm_compute. reflexivity.
  - simpl. lia.
  - apply (step_lock reg_registered []
             {| c_dir := "d"; c_mu := 1%positive; c_mode := keep; c_phase := registered |}
             [] reg_one_reader); [reflexivity|].
    vm_compute. reflexivity.
  - simpl. lia.
Qed.

Lemma reaches_two_readers :
  reaches 2 {| registry := reg_two_readers; callers := [one_reader; one_reader] |}.
Proof.
  eapply reaches_step; [eapply reaches_step; [apply reaches_one_reader | |] | |].
  - apply (step_getDirLock "d" keep reg_one_reader [one_reader] 1%positive
             {| locksOut := 2; dirLocks := dirLocks reg_one_reader;
                mutexes := mutexes reg_one_reader |}).
    vm_compute. reflexivity.
  - simpl. lia.
  - apply (step_lock _ [one_reader]
             {| c_dir := "d"; c_mu := 1%positive; c_mode := keep; c_phase := registered |}
             [] reg_two_readers); [reflexivity|].
    vm_compute. reflexivity.
  - simpl. lia.
Qed.

Lemma reaches_releasing :
  reaches 2 {| registry := reg_releasing; callers := [with_phase releasing one_reader] |}.
Proof.
  eapply reaches_step; [apply reaches_one_reader | | simpl; lia].
  apply (step_release reg_one_reader [] one_reader [] reg_releasing); [reflexivity|].
  vm_compute. reflexivity.
Qed.

(** With no caller on it, a matched lock is idle. *)
Lemma lock_matches_nil mu m : lock_matches mu m [] -> idle m.
Proof.
  intros (Hr & Hw & Hbr & Hbw). simpl in *. unfold idle.
  destruct (writer m); [discriminate | done].
Qed.

(** X1. In every state the package reaches (fewer than [2^63] callers
    outstanding at a time), [locksOut] is the number of callers between
    their [getDirLock] and their [unlockDirLock]: those about to lock,
    those blocked, those holding, and those that have released the lock
    and not yet uncounted themselves. Every lock is held and waited for by
    exactly the callers in that phase on it. So the count is never
    negative, and when it is zero there is no caller and every lock is
    idle. *)
Theorem locksOut_counts_callers (N : nat) (s : System) :
  reaches N s -> Z.of_nat N < 2 ^ 63 ->
  locksOut (registry s) = Z.of_nat (length (callers s)) /\
  (forall mu m, mutexes (registry s) !! mu = Some m -> lock_matches mu m (callers s)) /\
  0 <= locksOut (registry s) /\
  (locksOut (registry s) = 0 ->
   callers s = [] /\ forall mu m, mutexes (registry s) !! mu = Some m -> idle m).
Proof.
  intros Hreach HN.
  destruct (reaches_consistent N s Hreach HN) as (Hcount & Hlocks & _).
  split; [done|]. split; [intros mu m Hm; by apply Hlocks|]. split; [lia|].
  intros Hz. assert (callers s = []) as Hnil.
  { destruct (callers s); [done | simpl in Hcount; lia]. }
  split; [done|]. intros mu m Hm. apply (lock_matches_nil mu).
  rewrite <- Hnil. by apply Hlocks.
Qed.

(** The reader that has released the lock and not yet run
    [unlockDirLock] is still counted, while it holds nothing. *)
Lemma locksOut_counts_callers_witness :
  locksOut reg_releasing = 1 /\
  lock_matches 1%positive new_RWMutex [with_phase releasing one_reader].
Proof.
  destruct (locksOut_counts_callers 2 _ reaches_releasing ltac:(simpl; lia))
    as (Hc & Hlocks & _).
  split; [exact Hc|]. apply Hlocks. reflexivity.
Defined.

Lemma mutex_event_map (md : mode) (op : mode -> lockref -> Registry -> option Registry)
    mu st st1 :
  op = mutex_lock \/ op = mutex_return \/ op = mutex_unlock ->
  op md mu st = Some st1 -> dirLocks st1 = dirLocks st.
Proof.
  intros Hop Hrun.
  destruct Hop as [-> | [-> | ->]], md;
    unfold mutex_lock, mutex_return, mutex_unlock in Hrun;
    [ apply (mutex_op_registry RLock) in Hrun
    | apply (mutex_op_registry Lock) in Hrun
    | apply (mutex_op_registry RLock_return) in Hrun
    | apply (mutex_op_registry Lock_return) in Hrun
    | apply (mutex_op_registry RUnlock) in Hrun
    | apply (mutex_op_registry RWUnlock) in Hrun ];
    try (by destruct Hrun as (_ & ? & _)); auto 10.
Qed.

(** X2. The map loses entries only when nobody is left: an event in a
    reachable state leaves the map as it is, or ([getDirLock] on a
    directory without a lock) adds one entry with a lock that did not
    exist, or ([unlockDirLock] of the last caller) empties it, and then
    there is no caller and every lock is idle. And whenever the last
    caller has left, the map is empty. *)
Theorem map_reset_only_when_idle (N : nat) (s s' : System) :
  reaches N s -> Z.of_nat N < 2 ^ 63 ->
  step s s' -> (length (callers s') <= N)%nat ->
  (dirLocks (registry s') = dirLocks (registry s) \/
   (exists dir mu,
      dirLocks (registry s) !! dir = None /\ mutexes (registry s) !! mu = None /\
      dirLocks (registry s') = <[dir := mu]> (dirLocks (registry s))) \/
   (dirLocks (registry s') = ∅ /\ callers s' = [] /\
    forall mu m, mutexes (registry s') !! mu = Some m -> idle m)) /\
  (callers s' = [] -> dirLocks (registry s') = ∅).
Proof.
  intros Hreach HN Hstep Hlen.
  pose proof (reaches_consistent N s Hreach HN) as Hs.
  assert (consistent s') as Hs'.
  { eapply step_consistent; [exact Hs | exact Hstep | lia]. }
  destruct Hs' as (Hcount' & Hlocks' & _).
  destruct Hstep as [dir md st cs mu st1 Hget
                    | st l1 c l2 st1 Hph Hop
                    | st l1 c l2 Hph Hop
                    | st l1 c l2 st1 Hph Hop
                    | st l1 c l2 st1 Hph Hop
                    | st l1 c l2 Hph]; cbn [registry callers] in *.
  - split; [|intros Hnil; by apply app_nil in Hnil as [_ ?]].
    destruct (getDirLock_spec dir st mu st1 Hget) as (_ & _ & Hold & Hnew).
    destruct (dirLocks st !! dir) as [l|] eqn:Hd.
    + left. by destruct (Hold l eq_refl) as (_ & ? & _).
    + right. left. destruct (Hnew eq_refl) as (? & ? & _). eauto.
  - split; [|intros Hnil; by apply app_nil in Hnil as [_ ?]].
    left. eapply (mutex_event_map _ mutex_lock); eauto.
  - split; [|intros Hnil; by apply app_nil in Hnil as [_ ?]].
    left. destruct (c_mode c); simpl;
      eapply (mutex_block_registry _ (c_mu c) st); eauto.
  - split; [|intros Hnil; by apply app_nil in Hnil as [_ ?]].
    left. eapply (mutex_event_map _ mutex_return); eauto.
  - split; [|intros Hnil; by apply app_nil in Hnil as [_ ?]].
    left. eapply (mutex_event_map _ mutex_unlock); eauto 10.
  - destruct (unlockDirLock_spec st) as (_ & Hzero & Hnz & _).
    change (wrap64 (locksOut st - 1)) with (locksOut (unlockDirLock st)) in Hcount'.
    split.
    + destruct (decide (locksOut (unlockDirLock st) = 0)) as [Hz | Hne].
      * right. right. split; [by apply Hzero|].
        assert (l1 ++ l2 = []) as Hnil.
        { rewrite Hz in Hcount'. destruct (l1 ++ l2); [done | simpl in Hcount'; lia]. }
        split; [done|]. intros mu m Hm. apply (lock_matches_nil mu).
        rewrite <- Hnil. by apply Hlocks'.
      * left. by apply Hnz.
    + intros Hnil. apply Hzero. rewrite Hcount', Hnil. done.
Qed.

(** When the one reader, past its [mu.RUnlock()], runs [unlockDirLock],
    the map is emptied and nothing is left. *)
Lemma map_reset_only_when_idle_witness :
  dirLocks (unlockDirLock reg_releasing) = ∅ /\
  dirLocks reg_releasing !! "d" = Some 1%positive.
Proof.
  destruct (map_reset_only_when_idle 2
              {| registry := reg_releasing;
                 callers := [with_phase releasing one_reader] |}
              {| registry := unlockDirLock reg_releasing; callers := [] |}
              reaches_releasing ltac:(simpl; lia)
              (step_unlockDirLock reg_releasing [] (with_phase releasing one_reader) []
                 eq_refl)
              ltac:(simpl; lia)) as (_ & Hlast).
  split; [exact (Hlast eq_refl) | reflexivity].
Defined.

(** X3. Holding the lock prevents the directory from being deleted: in
    every state the package reaches, two callers that are counted for the
    same directory were given the same lock, the one the map has for that
    directory; and when both hold it, both are keepers. So a deleter
    never holds the lock of a directory while a keeper or another deleter
    of that directory holds it. *)
Theorem directory_holders_exclude (N : nat) (s : System) (i j : nat) (c1 c2 : Caller) :
  reaches N s -> Z.of_nat N < 2 ^ 63 ->
  i <> j -> callers s !! i = Some c1 -> callers s !! j = Some c2 ->
  c_dir c1 = c_dir c2 ->
  dirLocks (registry s) !! c_dir c1 = Some (c_mu c1) /\
  c_mu c1 = c_mu c2 /\
  (c_phase c1 = holding -> c_phase c2 = holding ->
   c_mode c1 = keep /\ c_mode c2 = keep).
Proof.
  intros Hreach HN Hij Hi Hj Hdir.
  destruct (reaches_consistent N s Hreach HN) as (_ & Hlocks & Hdirs & Hwf).
  pose proof (Hdirs c1 (list_elem_of_lookup_2 _ _ _ Hi)) as Hd1.
  pose proof (Hdirs c2 (list_elem_of_lookup_2 _ _ _ Hj)) as Hd2.
  assert (c_mu c1 = c_mu c2) as Hmu by congruence.
  split; [done|]. split; [done|]. intros Hp1 Hp2.
  destruct (Hwf _ _ Hd1) as [m Hm].
  destruct (Hlocks _ _ Hm) as ((Hr & Hw & _) & Hexcl).
  assert (forall c k, callers s !! k = Some c -> c_mu c = c_mu c1 ->
            c_phase c = holding -> c_mode c = delete ->
            writer m = true) as Hwriter.
  { intros c k Hk Hcmu Hph Hmd.
    assert (at_lock (c_mu c1) delete holding c = true) as Hat by (by apply at_lock_true).
    pose proof (number_of_pos _ _ c (list_elem_of_lookup_2 _ _ _ Hk) Hat).
    destruct (writer m); [done | lia]. }
  assert (forall c k, callers s !! k = Some c -> c_mu c = c_mu c1 ->
            c_phase c = holding -> c_mode c = keep ->
            (0 < readers m)%nat) as Hreader.
  { intros c k Hk Hcmu Hph Hmd.
    assert (at_lock (c_mu c1) keep holding c = true) as Hat by (by apply at_lock_true).
    pose proof (number_of_pos _ _ c (list_elem_of_lookup_2 _ _ _ Hk) Hat). lia. }
  destruct (c_mode c1) eqn:Hm1, (c_mode c2) eqn:Hm2; [done | exfalso.. ].
  - pose proof (Hwriter c2 j Hj (eq_sym Hmu) Hp2 Hm2) as Hw2.
    pose proof (Hreader c1 i Hi eq_refl Hp1 Hm1). specialize (Hexcl Hw2). lia.
  - pose proof (Hwriter c1 i Hi eq_refl Hp1 Hm1) as Hw1.
    pose proof (Hreader c2 j Hj (eq_sym Hmu) Hp2 Hm2). specialize (Hexcl Hw1). lia.
  - assert (at_lock (c_mu c1) delete holding c1 = true) as Hat1 by (by apply at_lock_true).
    assert (at_lock (c_mu c1) delete holding c2 = true) as Hat2 by (by apply at_lock_true).
    pose proof (number_of_two _ _ i j c1 c2 Hij Hi Hj Hat1 Hat2).
    destruct (writer m); lia.
Qed.

(** The two readers of ["d"] hold the same lock, the one of the map. *)
Lemma directory_holders_exclude_witness :
  dirLocks reg_two_readers !! "d" = Some 1%positive /\
  c_mode one_reader = keep.
Proof.
  destruct (directory_holders_exclude 2
              {| registry := reg_two_readers; callers := [one_reader; one_reader] |}
              0 1 one_reader one_reader reaches_two_readers ltac:(simpl; lia)
              ltac:(lia) eq_refl eq_refl eq_refl) as (Hmap & _ & Hkeep).
  split; [exact Hmap | exact (proj1 (Hkeep eq_refl eq_refl))].
Defined.

(** X4. Taking a directory lock and giving it back leaves the registry as
    it was (the count being an [int64] below its maximum): the count is
    back, every lock object is in the state it had,
    and the map is as after the acquisition, or empty when the count is
    back to zero. *)
Theorem acquire_then_Unlock_restores
    (acquire : string -> Registry -> option unlocker * Registry)
    (dir : string) (st : Registry) (u : unlocker) (st1 : Registry) :
  acquire = keepDirectoryLock \/ acquire = deleteDirectoryLock ->
  int64_range (locksOut st) -> int64_range (locksOut st + 1) ->
  acquire dir st = (Some u, st1) ->
  exists st2,
    Unlock u st1 = Some st2 /\
    locksOut st2 = locksOut st /\
    (forall l m, mutexes st !! l = Some m -> mutexes st2 !! l = Some m) /\
    (locksOut st <> 0 -> dirLocks st2 = dirLocks st1 /\
                         dirLocks st2 !! dir = Some (unlocker_mu u)) /\
    (locksOut st = 0 -> dirLocks st2 = ∅).
Proof.
  intros Hacq Hrange0 Hrange Hrun.
  destruct (getDirLock dir st) as [mu st0] eqn:Hget.
  destruct (getDirLock_spec dir st mu st0 Hget) as (Hinc & Hmu & Hold & Hnew).
  assert (forall l m, mutexes st !! l = Some m -> mutexes st0 !! l = Some m) as Hkeep.
  { intros l m Hl. destruct (dirLocks st !! dir) as [l0|] eqn:Hd.
    - destruct (Hold l0 eq_refl) as (_ & _ & ->). done.
    - destruct (Hnew eq_refl) as (Hfresh & _ & ->).
      rewrite lookup_insert_ne; [done | congruence]. }
  assert (wrap64 (wrap64 (locksOut st + 1) - 1) = locksOut st) as Hback.
  { rewrite (wrap64_id _ Hrange). replace (locksOut st + 1 - 1) with (locksOut st) by lia.
    by apply wrap64_id. }
  destruct Hacq as [-> | ->]; unfold keepDirectoryLock, deleteDirectoryLock in Hrun;
    rewrite Hget in Hrun.
  - unfold RLock in Hrun. destruct (mutexes st0 !! mu) as [m|] eqn:Hm; simpl in Hrun; [|done].
    destruct (writer m) eqn:Hw; [done|].
    destruct (blocked_writers m) eqn:Hbw; [|done]. injection Hrun as <- <-.
    unfold Unlock, RUnlock. simpl. rewrite lookup_insert_eq. simpl.
    eexists. split; [reflexivity|]. unfold unlockDirLock; simpl.
    rewrite Hinc, Hback. split; [done|].
    replace {| readers := readers m; writer := false;
               blocked_readers := blocked_readers m; blocked_writers := 0 |} with m
      by (destruct m; simpl in *; congruence).
    rewrite insert_insert_eq, (insert_id _ _ _ Hm). split; [done|]. split.
    + intros Hne. case_decide; [done|]. done.
    + intros Hz. case_decide; [done | congruence].
  - unfold Lock in Hrun. destruct (mutexes st0 !! mu) as [m|] eqn:Hm; simpl in Hrun; [|done].
    destruct (writer m) eqn:Hw; [done|]. destruct (readers m) eqn:Hr; [|done].
    destruct (blocked_readers m) eqn:Hbr; [|done].
    destruct (blocked_writers m) eqn:Hbw; [|done].
    injection Hrun as <- <-.
    unfold Unlock, RWUnlock. simpl. rewrite lookup_insert_eq. simpl.
    eexists. split; [reflexivity|]. unfold unlockDirLock; simpl.
    rewrite Hinc, Hback. split; [done|].
    replace {| readers := 0; writer := false;
               blocked_readers := 0; blocked_writers := 0 |} with m
      by (destruct m; simpl in *; congruence).
    rewrite insert_insert_eq, (insert_id _ _ _ Hm). split; [done|]. split.
    + intros Hne. case_decide; [done|]. done.
    + intros Hz. case_decide; [done | congruence].
Qed.

(** A second reader comes and goes on ["d"]: the registry is as with the
    one reader. *)
Lemma acquire_then_Unlock_restores_witness :
  exists st1 st2,
    keepDirectoryLock "d" reg_one_reader = (Some (keepLock 1%positive), st1) /\
    Unlock (keepLock 1%positive) st1 = Some st2 /\
    locksOut st2 = 1 /\ dirLocks st2 !! "d" = Some 1%positive /\
    mutexes st2 !! 1%positive
      = Some {| readers := 1; writer := false;
                blocked_readers := 0; blocked_writers := 0 |}.
Proof.
  assert (exists st1, keepDirectoryLock "d" reg_one_reader = (Some (keepLock 1%positive), st1))
    as (st1 & Hrun) by (eexists; reflexivity).
  destruct (acquire_then_Unlock_restores keepDirectoryLock "d" reg_one_reader
              (keepLock 1%positive) st1) as (st2 & Hun & Hc & Hm & Hmap & _).
  { by left. }
  { unfold int64_range. simpl. lia. }
  { unfold int64_range. simpl. lia. }
  { exact Hrun. }
  exists st1, st2. split; [exact Hrun|]. split; [exact Hun|]. split; [exact Hc|].
  split.
  - apply Hmap. simpl. lia.
  - apply Hm. reflexivity.
Defined.

End LocaldiskMore.

(** ** The mutable file system *)

Module FsMore.
Import Fs FsSpec.
Local Open Scope go_scope.

(** *** Bytes of a scratch file *)

Lemma length_zeros k : length (zeros k) = k.
Proof. apply length_replicate. Qed.

Lemma length_write_at (off : nat) (bs data : list Byte.byte) :
  bs <> [] ->
  length (write_at off bs data) = (length data `max` (off + length bs))%nat.
Proof.
  intros Hne. unfold write_at. destruct bs as [|b bs]; [done|].
  rewrite !length_app, length_take, length_zeros, length_drop. simpl. lia.
Qed.

(** What was written at [off] is what is there at [off]. *)
Lemma read_back (off : nat) (bs data : list Byte.byte) :
  take (length bs) (drop off (write_at off bs data)) = bs.
Proof.
  unfold write_at. destruct bs as [|b bs]; [done|].
  rewrite app_assoc.
  rewrite drop_app_length'; [|rewrite length_app, length_take, length_zeros; lia].
  by rewrite take_app_length.
Qed.

Lemma length_resize (k : nat) (data : list Byte.byte) : length (resize k data) = k.
Proof. unfold resize. rewrite length_app, length_take, length_zeros. lia. Qed.

Section HandleIO.
Context `{Blobref} (io : EnvIO).

Lemma get_tmp_Some t (w : World) tf :
  tmpfiles w !! t = Some tf -> (fun w => deref (tmpfiles w !! t) w) w = (Ok tf, w).
Proof. intros Htf. cbv beta. by rewrite Htf. Qed.

Lemma WriteAt_ok t bs off w tf :
  tmpfiles w !! t = Some tf -> is_open tf = true -> 0 <= off ->
  file_WriteAt io (tick w) = None ->
  WriteAt io t bs off w =
    (Ok (length bs, None),
     next_tick (with_tmpfiles
       (alter (fun f => set_file_data (write_at (Z.to_nat off) bs (data f)) f) t) w)).
Proof.
  intros Htf Hopen Hoff Hio. unfold WriteAt.
  rewrite (bind_Ok _ _ _ _ _ (get_tmp_Some _ _ _ Htf)).
  rewrite Hopen, Hio. simpl. destruct (Z.ltb_spec off 0); [lia | done].
Qed.

Lemma ReadAt_ok t sz off w tf :
  tmpfiles w !! t = Some tf -> is_open tf = true -> 0 <= off ->
  file_ReadAt io (tick w) = None ->
  ReadAt io t sz off w =
    (Ok (take sz (drop (Z.to_nat off) (data tf)),
         if (length (take sz (drop (Z.to_nat off) (data tf))) <? sz)%nat
         then Some io_EOF else None),
     next_tick w).
Proof.
  intros Htf Hopen Hoff Hio. unfold ReadAt.
  rewrite (bind_Ok _ _ _ _ _ (get_tmp_Some _ _ _ Htf)).
  rewrite Hopen, Hio. simpl. destruct (Z.ltb_spec off 0); [lia | done].
Qed.

(** [Read] on a handle with an open scratch file, when the read itself
    does not fail. *)
Lemma Read_ok h sz off w hd t tf :
  handles w !! h = Some hd -> h_tmp hd = Some t ->
  tmpfiles w !! t = Some tf -> is_open tf = true ->
  0 <= sz -> 0 <= off ->
  file_ReadAt io (tick w) = None ->
  Read io h sz off w =
    (Ok (inr (take (Z.to_nat sz) (drop (Z.to_nat off) (data tf)))), next_tick w).
Proof.
  intros Hh Ht Htf Hopen Hsz Hoff Hio. unfold Read.
  rewrite (bind_Ok _ _ _ _ _ (get_handle_Some _ _ _ Hh)). rewrite Ht.
  destruct (Z.ltb_spec sz 0); [lia|].
  rewrite (bind_Ok _ _ _ _ _ (ReadAt_ok _ _ _ _ _ Htf Hopen Hoff Hio)).
  by destruct (_ <? _)%nat.
Qed.

(** [Write] on a handle with an open scratch file, when the write itself
    does not fail. *)
Lemma Write_ok h bs off w hd t tf f :
  handles w !! h = Some hd -> h_tmp hd = Some t ->
  tmpfiles w !! t = Some tf -> is_open tf = true ->
  files w !! h_f hd = Some f ->
  0 <= off ->
  file_WriteAt io (tick w) = None ->
  exists w',
    Write io h bs off w = (Ok (inr (length bs)), w') /\
    tmpfiles w' = alter (fun f => set_file_data (write_at (Z.to_nat off) bs (data f)) f) t
                    (tmpfiles w) /\
    files w' !! h_f hd =
      Some (set_size (Z.max (size f) (wrap64 (off + Z.of_nat (length bs)))) f) /\
    (forall a, a <> h_f hd -> files w' !! a = files w !! a) /\
    handles w' = handles w /\ dirs w' = dirs w /\ signed w' = signed w /\
    described w' = described w /\ tick w' = S (tick w).
Proof.
  intros Hh Ht Htf Hopen Hf Hoff Hio. unfold Write.
  rewrite (bind_Ok _ _ _ _ _ (get_handle_Some _ _ _ Hh)). rewrite Ht.
  rewrite (bind_Ok _ _ _ _ _ (WriteAt_ok _ _ _ _ _ Htf Hopen Hoff Hio)).
  unfold bind at 1. unfold log_Printf at 1.
  set (w1 := with_logged _ _).
  assert (files w1 !! h_f hd = Some f) as Hf1 by done.
  destruct (setSizeAtLeast_run (h_f hd) (wrap64 (off + Z.of_nat (length bs))) w1 f Hf1)
    as (w2 & Hrun & Hf2 & _).
  rewrite (bind_Ok _ _ _ _ _ Hrun).
  exists w2. split; [done|].
  assert (tmpfiles w2 = tmpfiles w1 /\ handles w2 = handles w1 /\ dirs w2 = dirs w1 /\
          signed w2 = signed w1 /\ described w2 = described w1 /\ tick w2 = tick w1 /\
          forall a, a <> h_f hd -> files w2 !! a = files w1 !! a) as Hframe.
  { revert Hrun. unfold setSizeAtLeast.
    rewrite (bind_Ok _ _ _ _ _ (get_file_Some _ _ _ Hf1)).
    unfold bind at 1. unfold log_Printf at 1.
    destruct (size f <? _).
    - set (w3 := with_logged _ w1).
      assert (files w3 !! h_f hd = Some f) as Hf3 by done.
      rewrite (modify_file_Some _ _ _ _ Hf3). intros [= <-]. simpl.
      repeat split; try done. intros a Hne. by rewrite lookup_alter_ne.
    - intros [= <-]. by repeat split. }
  destruct Hframe as (-> & -> & -> & -> & -> & -> & Hother).
  split; [done|]. split; [done|]. split; [exact Hother|]. by repeat split.
Qed.

End HandleIO.

(** X5. What [Write] has written, [Read] reads back: after a successful
    [Write] of [bs] at [off] on an open handle, a [Read] of as many bytes
    at the same offset returns [bs]. *)
Theorem Write_then_Read `{Blobref} (io : EnvIO) (h : addr) (bs : list Byte.byte) (off : Z)
    (w : World) (hd : mutFileHandle) (t : addr) (tf : osFile) (f : mutFile) :
  handles w !! h = Some hd -> h_tmp hd = Some t ->
  tmpfiles w !! t = Some tf -> is_open tf = true ->
  files w !! h_f hd = Some f ->
  0 <= off ->
  file_WriteAt io (tick w) = None ->
  file_ReadAt io (S (tick w)) = None ->
  exists w1 w2,
    Write io h bs off w = (Ok (inr (length bs)), w1) /\
    Read io h (Z.of_nat (length bs)) off w1 = (Ok (inr bs), w2).
Proof.
  intros Hh Ht Htf Hopen Hf Hoff Hwrite Hread.
  destruct (Write_ok io h bs off w hd t tf f Hh Ht Htf Hopen Hf Hoff Hwrite)
    as (w1 & Hrun & Htmp & _ & _ & Hh1 & _ & _ & _ & Htick).
  exists w1, (next_tick w1). split; [done|].
  assert (tmpfiles w1 !! t =
            Some (set_file_data (write_at (Z.to_nat off) bs (data tf)) tf)) as Htf1.
  { by rewrite Htmp, lookup_alter_eq, Htf. }
  assert (handles w1 !! h = Some hd) as Hh' by (by rewrite Hh1).
  assert (file_ReadAt io (tick w1) = None) as Hread' by (by rewrite Htick).
  rewrite (Read_ok io h _ off w1 hd t _ Hh' Ht Htf1 Hopen (Nat2Z.is_nonneg _) Hoff Hread').
  simpl. by rewrite Nat2Z.id, read_back.
Qed.

(** Writing ["hello"] at offset 3 of the scratch file of the example and
    reading five bytes there gives ["hello"]. *)
Lemma Write_then_Read_witness :
  exists w1 w2,
    Write FsExamples.io_ok 1%positive FsExamples.hello 3 FsExamples.w_recent
      = (Ok (inr 5%nat), w1) /\
    Read FsExamples.io_ok 1%positive 5 3 w1 = (Ok (inr FsExamples.hello), w2).
Proof.
  destruct (Write_then_Read (H := FsExamples.string_blobref) FsExamples.io_ok 1%positive
              FsExamples.hello 3 FsExamples.w_recent
              {| h_f := 1%positive; h_tmp := Some 1%positive |} 1%positive
              {| is_open := true; is_linked := true; data := FsExamples.hello; offset := 5 |}
              (FsExamples.file_node "a" 5 0 0)
              eq_refl eq_refl eq_refl eq_refl eq_refl ltac:(lia) eq_refl eq_refl)
    as (w1 & w2 & Hw & Hr).
  exists w1, w2. split; [exact Hw | exact Hr].
Defined.

(** X6. [Read] treats the end of the scratch file as no error: on an open
    handle it returns the bytes of the scratch file from [off] on, at most
    [sz] of them, so a read that starts at or past the end returns no
    bytes, with success; and it changes nothing. A negative offset, or a
    read that fails, is EIO. *)
Theorem Read_short_at_end `{Blobref} (io : EnvIO) (h : addr) (sz off : Z)
    (w : World) (hd : mutFileHandle) (t : addr) (tf : osFile) :
  handles w !! h = Some hd -> h_tmp hd = Some t ->
  tmpfiles w !! t = Some tf -> is_open tf = true ->
  0 <= sz ->
  exists r w',
    Read io h sz off w = (Ok r, w') /\
    w' = (match r with inl _ => with_logged "mutFileHandle.Read: %v" | inr _ => id end)
           (next_tick w) /\
    (0 <= off -> file_ReadAt io (tick w) = None ->
     r = inr (take (Z.to_nat sz) (drop (Z.to_nat off) (data tf))) /\
     (forall bs, r = inr bs -> Z.of_nat (length bs) <= sz) /\
     (Z.of_nat (length (data tf)) <= off -> r = inr [])) /\
    (off < 0 \/ file_ReadAt io (tick w) <> None -> r = inl EIO).
Proof.
  intros Hh Ht Htf Hopen Hsz.
  destruct (Z.ltb_spec off 0) as [Hneg | Hoff].
  - exists (inl EIO). eexists. split; [|split; [reflexivity|split; [lia | done]]].
    unfold Read. rewrite (bind_Ok _ _ _ _ _ (get_handle_Some _ _ _ Hh)). rewrite Ht.
    destruct (Z.ltb_spec sz 0); [lia|].
    unfold bind at 1. unfold ReadAt.
    rewrite (bind_Ok _ _ _ _ _ (get_tmp_Some _ _ _ Htf)).
    destruct (Z.ltb_spec off 0); [|lia]. done.
  - destruct (file_ReadAt io (tick w)) as [e|] eqn:Hio.
    + exists (inl EIO). eexists. split; [|split; [reflexivity|split; [done | done]]].
      unfold Read. rewrite (bind_Ok _ _ _ _ _ (get_handle_Some _ _ _ Hh)). rewrite Ht.
      destruct (Z.ltb_spec sz 0); [lia|].
      unfold bind at 1. unfold ReadAt.
      rewrite (bind_Ok _ _ _ _ _ (get_tmp_Some _ _ _ Htf)).
      rewrite Hopen, Hio. destruct (Z.ltb_spec off 0); [lia|]. done.
    + eexists _, _. split; [by eapply Read_ok|]. split; [done|]. split.
      * intros _ _. split; [done|]. split.
        -- intros bs [= <-]. rewrite length_take. lia.
        -- intros Hpast. rewrite drop_ge by lia. by rewrite take_nil.
      * intros [? | ?]; [lia | done].
Qed.

(** Reading ten bytes at offset 3 of ["hello"] gives the last two;
    reading at offset 5, the end, gives none. *)
Lemma Read_short_at_end_witness :
  Read FsExamples.io_ok 1%positive 10 3 FsExamples.w_recent
    = (Ok (inr [Byte.x6c; Byte.x6f]), next_tick FsExamples.w_recent) /\
  Read FsExamples.io_ok 1%positive 10 5 FsExamples.w_recent
    = (Ok (inr []), next_tick FsExamples.w_recent).
Proof.
  split.
  - destruct (Read_short_at_end (H := FsExamples.string_blobref) FsExamples.io_ok 1%positive
                10 3 FsExamples.w_recent
                {| h_f := 1%positive; h_tmp := Some 1%positive |} 1%positive
                {| is_open := true; is_linked := true; data := FsExamples.hello; offset := 5 |}
                eq_refl eq_refl eq_refl eq_refl ltac:(lia))
      as (r & w' & Hrun & Hw' & Hok & _).
    destruct (Hok ltac:(lia) eq_refl) as (-> & _). rewrite Hrun, Hw'. reflexivity.
  - destruct (Read_short_at_end (H := FsExamples.string_blobref) FsExamples.io_ok 1%positive
                10 5 FsExamples.w_recent
                {| h_f := 1%positive; h_tmp := Some 1%positive |} 1%positive
                {| is_open := true; is_linked := true; data := FsExamples.hello; offset := 5 |}
                eq_refl eq_refl eq_refl eq_refl ltac:(lia))
      as (r & w' & Hrun & Hw' & Hok & _).
    destruct (Hok ltac:(lia) eq_refl) as (_ & _ & Hpast).
    rewrite (Hpast ltac:(simpl; lia)) in *. rewrite Hrun, Hw'. reflexivity.
Defined.

(** X7. A successful [Write] of a non-empty [bs] at [off] makes the
    scratch file at least [off + length bs] long and raises the size of
    the file node to at least that, never lowering either; so a node
    size that was the length of the scratch file still is. *)
Theorem Write_size_tracks_scratch `{Blobref} (io : EnvIO) (h : addr) (bs : list Byte.byte)
    (off : Z) (w : World) (hd : mutFileHandle) (t : addr) (tf : osFile) (f : mutFile) :
  handles w !! h = Some hd -> h_tmp hd = Some t ->
  tmpfiles w !! t = Some tf -> is_open tf = true ->
  files w !! h_f hd = Some f ->
  0 <= off -> int64_range (off + Z.of_nat (length bs)) ->
  bs <> [] ->
  file_WriteAt io (tick w) = None ->
  exists w' bytes,
    Write io h bs off w = (Ok (inr (length bs)), w') /\
    scratch_of w' h = Some bytes /\
    Z.of_nat (length bytes)
      = Z.max (Z.of_nat (length (data tf))) (off + Z.of_nat (length bs)) /\
    size_of w' (h_f hd) = Some (Z.max (size f) (off + Z.of_nat (length bs))) /\
    (size f = Z.of_nat (length (data tf)) ->
     size_of w' (h_f hd) = Some (Z.of_nat (length bytes))).
Proof.
  intros Hh Ht Htf Hopen Hf Hoff Hrange Hne Hio.
  destruct (Write_ok io h bs off w hd t tf f Hh Ht Htf Hopen Hf Hoff Hio)
    as (w' & Hrun & Htmp & Hf' & _ & Hh' & _).
  exists w', (write_at (Z.to_nat off) bs (data tf)).
  assert (Z.of_nat (length (write_at (Z.to_nat off) bs (data tf)))
          = Z.max (Z.of_nat (length (data tf))) (off + Z.of_nat (length bs))) as Hlen.
  { rewrite length_write_at by done. lia. }
  assert (size_of w' (h_f hd) = Some (Z.max (size f) (off + Z.of_nat (length bs)))) as Hsz.
  { unfold size_of. rewrite Hf'. simpl. by rewrite wrap64_id. }
  split; [done|]. split.
  { unfold scratch_of. rewrite Hh', Hh. simpl. rewrite Ht. simpl.
    by rewrite Htmp, lookup_alter_eq, Htf. }
  split; [done|]. split; [done|].
  intros Heq. rewrite Hsz, Hlen. by rewrite Heq.
Qed.

(** Two bytes written at offset 6 of the five-byte scratch file: both the
    scratch file and the node are eight bytes long. *)
Lemma Write_size_tracks_scratch_witness :
  exists w' bytes,
    Write FsExamples.io_ok 1%positive [Byte.x68; Byte.x69] 6 FsExamples.w_recent
      = (Ok (inr 2%nat), w') /\
    scratch_of w' 1%positive = Some bytes /\
    Z.of_nat (length bytes) = 8 /\
    size_of w' 1%positive = Some 8.
Proof.
  destruct (Write_size_tracks_scratch (H := FsExamples.string_blobref) FsExamples.io_ok
              1%positive [Byte.x68; Byte.x69] 6 FsExamples.w_recent
              {| h_f := 1%positive; h_tmp := Some 1%positive |} 1%positive
              {| is_open := true; is_linked := true; data := FsExamples.hello; offset := 5 |}
              (FsExamples.file_node "a" 5 0 0)
              eq_refl eq_refl eq_refl eq_refl eq_refl ltac:(lia)
              ltac:(unfold int64_range; simpl; lia) ltac:(discriminate) eq_refl)
    as (w' & bytes & Hrun & Hs & Hlen & Hsz & _).
  exists w', bytes. split; [exact Hrun|]. split; [exact Hs|].
  split; [exact Hlen | exact Hsz].
Defined.

Section HandleFailures.
Context `{Blobref} (io : EnvIO).

Lemma Write_short h bs off w hd t tf k e :
  handles w !! h = Some hd -> h_tmp hd = Some t ->
  tmpfiles w !! t = Some tf -> is_open tf = true ->
  0 <= off ->
  file_WriteAt io (tick w) = Some (k, e) ->
  Write io h bs off w =
    (Ok (inl EIO),
     with_logged "mutFileHandle.Write:"
       (with_logged "mutFileHandle.Write(%q, at %d, flags %v, %q) = %d, %v"
          (next_tick (with_tmpfiles
             (alter (fun f => set_file_data (write_at (Z.to_nat off) (take k bs) (data f)) f) t)
             w)))).
Proof.
  intros Hh Ht Htf Hopen Hoff Hio. unfold Write.
  rewrite (bind_Ok _ _ _ _ _ (get_handle_Some _ _ _ Hh)). rewrite Ht.
  unfold bind at 1. unfold WriteAt.
  rewrite (bind_Ok _ _ _ _ _ (get_tmp_Some _ _ _ Htf)).
  rewrite Hopen, Hio. destruct (Z.ltb_spec off 0); [lia | done].
Qed.

Lemma File_Truncate_ok t sz w tf :
  tmpfiles w !! t = Some tf -> is_open tf = true -> 0 <= sz ->
  file_Truncate io (tick w) = None ->
  File_Truncate io t sz w =
    (Ok None,
     next_tick (with_tmpfiles
       (alter (fun f => set_file_data (resize (Z.to_nat sz) (data f)) f) t) w)).
Proof.
  intros Htf Hopen Hsz Hio. unfold File_Truncate.
  rewrite (bind_Ok _ _ _ _ _ (get_tmp_Some _ _ _ Htf)).
  rewrite Hopen, Hio. destruct (Z.ltb_spec sz 0); [lia | done].
Qed.

Lemma Truncate_ok h sz w hd t tf :
  handles w !! h = Some hd -> h_tmp hd = Some t ->
  tmpfiles w !! t = Some tf -> is_open tf = true ->
  0 <= sz < 2 ^ 63 ->
  file_Truncate io (tick w) = None ->
  Truncate io h sz w =
    (Ok None,
     next_tick (with_tmpfiles
       (alter (fun f => set_file_data (resize (Z.to_nat sz) (data f)) f) t)
       (with_logged "mutFileHandle.Truncate(%q) to size %d" w))).
Proof.
  intros Hh Ht Htf Hopen Hsz Hio. unfold Truncate.
  rewrite (bind_Ok _ _ _ _ _ (get_handle_Some _ _ _ Hh)). rewrite Ht.
  unfold bind at 1. unfold log_Printf at 1.
  rewrite wrap64_id by (unfold int64_range; lia).
  set (w1 := with_logged _ w).
  assert (tmpfiles w1 !! t = Some tf) as Htf1 by done.
  assert (file_Truncate io (tick w1) = None) as Hio1 by done.
  by rewrite (bind_Ok _ _ _ _ _ (File_Truncate_ok _ _ _ _ Htf1 Hopen (proj1 Hsz) Hio1)).
Qed.

Lemma Truncate_negative h sz w hd t tf :
  handles w !! h = Some hd -> h_tmp hd = Some t ->
  tmpfiles w !! t = Some tf ->
  2 ^ 63 <= sz < 2 ^ 64 ->
  Truncate io h sz w =
    (Ok (Some EIO),
     with_logged "mutFileHandle.Truncate:"
       (next_tick (with_logged "mutFileHandle.Truncate(%q) to size %d" w))).
Proof.
  intros Hh Ht Htf Hsz. unfold Truncate.
  rewrite (bind_Ok _ _ _ _ _ (get_handle_Some _ _ _ Hh)). rewrite Ht.
  unfold bind at 1. unfold log_Printf at 1.
  set (w1 := with_logged _ w).
  assert (tmpfiles w1 !! t = Some tf) as Htf1 by done.
  unfold bind at 1. unfold File_Truncate.
  rewrite (bind_Ok _ _ _ _ _ (get_tmp_Some _ _ _ Htf1)).
  assert (wrap64 sz = sz - 2 ^ 64) as ->.
  { unfold wrap64.
    rewrite <- (Z.mod_unique (sz + 2 ^ 63) (2 ^ 64) 1 (sz + 2 ^ 63 - 2 ^ 64)); lia. }
  destruct (Z.ltb_spec (sz - 2 ^ 64) 0); [done | lia].
Qed.

End HandleFailures.

(** X8. When the write to the scratch file fails after [k] bytes,
    [Write] returns EIO and no file node changes, the size included,
    although those [k] bytes are in the scratch file. *)
Theorem Write_failure_keeps_size `{Blobref} (io : EnvIO) (h : addr) (bs : list Byte.byte)
    (off : Z) (w : World) (hd : mutFileHandle) (t : addr) (tf : osFile) (k : nat) (e : error) :
  handles w !! h = Some hd -> h_tmp hd = Some t ->
  tmpfiles w !! t = Some tf -> is_open tf = true ->
  0 <= off ->
  file_WriteAt io (tick w) = Some (k, e) ->
  exists w',
    Write io h bs off w = (Ok (inl EIO), w') /\
    files w' = files w /\
    scratch_of w' h = Some (write_at (Z.to_nat off) (take k bs) (data tf)).
Proof.
  intros Hh Ht Htf Hopen Hoff Hio.
  eexists. split; [by eapply Write_short|]. split; [done|].
  unfold scratch_of. simpl. rewrite Hh. simpl. rewrite Ht. simpl.
  by rewrite lookup_alter_eq, Htf.
Qed.

(** A write of ["hello"] at the end of the scratch file that stops after
    two bytes: EIO, the node still says five bytes, the scratch file
    holds seven. *)
Lemma Write_failure_keeps_size_witness :
  exists w',
    Write FsExamples.io_short_write 1%positive FsExamples.hello 5 FsExamples.w_recent
      = (Ok (inl EIO), w') /\
    size_of w' 1%positive = Some 5 /\
    scratch_of w' 1%positive = Some (FsExamples.hello ++ [Byte.x68; Byte.x65]).
Proof.
  destruct (Write_failure_keeps_size (H := FsExamples.string_blobref)
              FsExamples.io_short_write 1%positive FsExamples.hello 5 FsExamples.w_recent
              {| h_f := 1%positive; h_tmp := Some 1%positive |} 1%positive
              {| is_open := true; is_linked := true; data := FsExamples.hello; offset := 5 |}
              2%nat "write: no space left on device"
              eq_refl eq_refl eq_refl eq_refl ltac:(lia) eq_refl)
    as (w' & Hrun & Hfiles & Hs).
  exists w'. split; [exact Hrun|]. split; [|exact Hs].
  unfold size_of. rewrite Hfiles. reflexivity.
Defined.

(** X9. A successful [Truncate] to [sz] makes the scratch file [sz] bytes
    long, keeping the bytes below [sz] and filling with zeros above the
    old end; no file node changes, so the node keeps the size it had. *)
Theorem Truncate_cuts_scratch_only `{Blobref} (io : EnvIO) (h : addr) (sz : Z)
    (w : World) (hd : mutFileHandle) (t : addr) (tf : osFile) :
  handles w !! h = Some hd -> h_tmp hd = Some t ->
  tmpfiles w !! t = Some tf -> is_open tf = true ->
  0 <= sz < 2 ^ 63 ->
  file_Truncate io (tick w) = None ->
  exists w' bytes,
    Truncate io h sz w = (Ok None, w') /\
    scratch_of w' h = Some bytes /\
    Z.of_nat (length bytes) = sz /\
    (forall i, (i < length (data tf))%nat -> Z.of_nat i < sz ->
               bytes !! i = data tf !! i) /\
    (forall i, (length (data tf) <= i)%nat -> Z.of_nat i < sz ->
               bytes !! i = Some Byte.x00) /\
    files w' = files w.
Proof.
  intros Hh Ht Htf Hopen Hsz Hio.
  exists (next_tick (with_tmpfiles
            (alter (fun f => set_file_data (resize (Z.to_nat sz) (data f)) f) t)
            (with_logged "mutFileHandle.Truncate(%q) to size %d" w))),
         (resize (Z.to_nat sz) (data tf)).
  split; [by eapply Truncate_ok|]. split.
  { unfold scratch_of. simpl. rewrite Hh. simpl. rewrite Ht. simpl.
    by rewrite lookup_alter_eq, Htf. }
  split; [rewrite length_resize; lia|]. split; [|split; [|done]].
  - intros i Hi Hlt. unfold resize.
    rewrite lookup_app_l by (rewrite length_take; lia).
    apply lookup_take_lt. lia.
  - intros i Hi Hlt. unfold resize, zeros.
    rewrite lookup_app_r by (rewrite length_take; lia).
    apply lookup_replicate_2. rewrite length_take. lia.
Qed.

(** Truncating the five-byte scratch file to two bytes: the scratch file
    has two bytes, the node still says five. *)
Lemma Truncate_cuts_scratch_only_witness :
  exists w',
    Truncate FsExamples.io_ok 1%positive 2 FsExamples.w_recent = (Ok None, w') /\
    (length <$> scratch_of w' 1%positive) = Some 2%nat /\
    size_of w' 1%positive = Some 5.
Proof.
  destruct (Truncate_cuts_scratch_only (H := FsExamples.string_blobref) FsExamples.io_ok
              1%positive 2 FsExamples.w_recent
              {| h_f := 1%positive; h_tmp := Some 1%positive |} 1%positive
              {| is_open := true; is_linked := true; data := FsExamples.hello; offset := 5 |}
              eq_refl eq_refl eq_refl eq_refl ltac:(lia) eq_refl)
    as (w' & bytes & Hrun & Hs & Hlen & _ & _ & Hfiles).
  exists w'. split; [exact Hrun|]. split.
  - rewrite Hs. simpl. f_equal. lia.
  - unfold size_of. rewrite Hfiles. reflexivity.
Defined.

(** X10. [Truncate] takes a [uint64] size and passes it on as an [int64]:
    a size from 2^63 on arrives negative, the scratch file refuses it, and
    [Truncate] returns EIO with every scratch file and file node as it
    was. *)
Theorem Truncate_beyond_int64_fails `{Blobref} (io : EnvIO) (h : addr) (sz : Z)
    (w : World) (hd : mutFileHandle) (t : addr) (tf : osFile) :
  handles w !! h = Some hd -> h_tmp hd = Some t ->
  tmpfiles w !! t = Some tf ->
  2 ^ 63 <= sz < 2 ^ 64 ->
  exists w',
    Truncate io h sz w = (Ok (Some EIO), w') /\
    tmpfiles w' = tmpfiles w /\ files w' = files w /\ handles w' = handles w.
Proof.
  intros Hh Ht Htf Hsz.
  eexists. split; [by eapply Truncate_negative|]. done.
Qed.

Lemma Truncate_beyond_int64_fails_witness :
  exists w',
    Truncate FsExamples.io_ok 1%positive (2 ^ 63) FsExamples.w_recent
      = (Ok (Some EIO), w') /\
    tmpfiles w' = tmpfiles FsExamples.w_recent /\
    files w' = files FsExamples.w_recent /\
    handles w' = handles FsExamples.w_recent.
Proof.
  exact (Truncate_beyond_int64_fails (H := FsExamples.string_blobref) FsExamples.io_ok
           1%positive (2 ^ 63) FsExamples.w_recent
           {| h_f := 1%positive; h_tmp := Some 1%positive |} 1%positive
           {| is_open := true; is_linked := true; data := FsExamples.hello; offset := 5 |}
           eq_refl eq_refl eq_refl ltac:(lia)).
Defined.

(** X11. The size a [Truncate] leaves unrecorded arrives with [Release]:
    after a successful [Truncate] to [sz] and a successful [Release], the
    file node has size [sz] and the content blob the upload returned, and
    the bytes uploaded are the truncated ones. *)
Theorem Truncate_then_Release_size `{Blobref} (env : Env) (io : EnvIO) (h : addr) (sz : Z)
    (w : World) (hd : mutFileHandle) (t : addr) (tf : osFile) (f : mutFile)
    (br : option BlobRef) :
  handles w !! h = Some hd -> h_tmp hd = Some t ->
  tmpfiles w !! t = Some tf -> is_open tf = true ->
  files w !! h_f hd = Some f ->
  0 <= sz < 2 ^ 63 ->
  file_Truncate io (tick w) = None ->
  file_Seek env (S (tick w)) = None ->
  schema_WriteFileFromReader env (S (S (tick w))) (f_name f)
    (resize (Z.to_nat sz) (data tf)) = inr br ->
  exists w1 w2,
    Truncate io h sz w = (Ok None, w1) /\
    Release env h w1 = (Ok None, w2) /\
    size_of w2 (h_f hd) = Some sz /\
    content_of w2 (h_f hd) = Some br /\
    released w2 h.
Proof.
  intros Hh Ht Htf Hopen Hf Hsz Htr Hseek Hup.
  set (w1 := next_tick (with_tmpfiles
            (alter (fun f => set_file_data (resize (Z.to_nat sz) (data f)) f) t)
            (with_logged "mutFileHandle.Truncate(%q) to size %d" w))).
  assert (tmpfiles w1 !! t = Some (set_file_data (resize (Z.to_nat sz) (data tf)) tf))
    as Htf1 by (simpl; by rewrite lookup_alter_eq, Htf).
  destruct (Release_upload_ok env h w1 hd t f _ br Hh Ht Hf Htf1 Hseek Hup)
    as (w2 & Hrun & Hh2 & _ & Hf2 & _).
  exists w1, w2. split; [by eapply Truncate_ok|]. split; [done|].
  split; [|split].
  - unfold size_of. rewrite Hf2. simpl. rewrite length_resize. f_equal. lia.
  - unfold content_of. by rewrite Hf2.
  - eexists. split; [exact Hh2 | done].
Qed.

(** The handle of the example truncated to two bytes and released: the
    node has two bytes. *)
Lemma Truncate_then_Release_size_witness :
  exists w1 w2,
    Truncate FsExamples.io_ok 1%positive 2 FsExamples.w_recent = (Ok None, w1) /\
    Release FsExamples.env_described 1%positive w1 = (Ok None, w2) /\
    size_of w2 1%positive = Some 2 /\
    content_of w2 1%positive = Some (Some "sha1-new"%string) /\
    released w2 1%positive.
Proof.
  exact (Truncate_then_Release_size (H := FsExamples.string_blobref)
           FsExamples.env_described FsExamples.io_ok
           1%positive 2 FsExamples.w_recent
           {| h_f := 1%positive; h_tmp := Some 1%positive |} 1%positive
           {| is_open := true; is_linked := true; data := FsExamples.hello; offset := 5 |}
           (FsExamples.file_node "a" 5 0 0) (Some "sha1-new"%string)
           eq_refl eq_refl eq_refl eq_refl eq_refl ltac:(lia) eq_refl eq_refl eq_refl).
Defined.

(** X12. A released handle is dead: [Read], [Write], [Truncate] and
    a second [Release] on it all return EIO and change nothing but the
    log; in particular a second [Release] uploads and signs nothing. *)
Theorem released_handle_refuses `{Blobref} (env : Env) (io : EnvIO) (h : addr) (w : World)
    (sz off : Z) (bs : list Byte.byte) :
  released w h ->
  Read io h sz off w
    = (Ok (inl EIO),
       with_logged "Read called on camli mutFileHandle without a tempfile set" w) /\
  Write io h bs off w
    = (Ok (inl EIO),
       with_logged "Write called on camli mutFileHandle without a tempfile set" w) /\
  Truncate io h sz w
    = (Ok (Some EIO),
       with_logged "Truncate called on camli mutFileHandle without a tempfile set" w) /\
  Release env h w
    = (Ok (Some EIO),
       with_logged "Release called on camli mutFileHandle without a tempfile set" w).
Proof.
  intros (hd & Hh & Hnil).
  unfold Read, Write, Truncate, Release.
  rewrite !(bind_Ok _ _ _ _ _ (get_handle_Some _ _ _ Hh)). rewrite Hnil. done.
Qed.

(** On the released handle of the example, a second [Release] and a
    [Write] return EIO and only log. *)
Lemma released_handle_refuses_witness :
  Write FsExamples.io_ok 1%positive FsExamples.hello 0 FsExamples.w_released
    = (Ok (inl EIO),
       with_logged "Write called on camli mutFileHandle without a tempfile set"
         FsExamples.w_released) /\
  Release FsExamples.env_described 1%positive FsExamples.w_released
    = (Ok (Some EIO),
       with_logged "Release called on camli mutFileHandle without a tempfile set"
         FsExamples.w_released).
Proof.
  destruct (released_handle_refuses (H := FsExamples.string_blobref)
              FsExamples.env_described FsExamples.io_ok 1%positive FsExamples.w_released
              5 0 FsExamples.hello
              (ex_intro _ {| h_f := 1%positive; h_tmp := None |} (conj eq_refl eq_refl)))
    as (_ & Hw & _ & Hr).
  split; [exact Hw | exact Hr].
Defined.

(** [bind] is associative, on every world. *)
Lemma bind_assoc_run {W A B C} (c : M W A) (k : A -> M W B) (k2 : B -> M W C) w :
  (y <- (x <- c ;; k x) ;; k2 y) w = (x <- c ;; y <- k x ;; k2 y) w.
Proof. unfold bind. destruct (c w) as [[a | msg] w1]; done. Qed.

(** *** Making directory entries *)

Section DirOps.
Context `{Blobref} (env : Env) (io : EnvIO).

Lemma make_children_run n w d :
  dirs w !! n = Some d ->
  make_children n w =
    (Ok tt, match children d with
            | None => with_dirs (alter (set_children (Some ∅)) n) w
            | Some _ => w
            end).
Proof.
  intros Hd. unfold make_children.
  rewrite (bind_Ok _ _ _ _ _ (get_dir_Some _ _ _ Hd)).
  destruct (children d); [done|]. by rewrite (modify_dir_Some _ _ _ _ Hd).
Qed.

Lemma assign_child_run n name c w d m :
  dirs w !! n = Some d -> children d = Some m ->
  assign_child n name c w =
    (Ok tt, with_dirs (alter (set_children (Some (<[name := c]> m))) n) w).
Proof.
  intros Hd Hm. unfold assign_child.
  rewrite (bind_Ok _ _ _ _ _ (get_dir_Some _ _ _ Hd)). rewrite Hm.
  by rewrite (modify_dir_Some _ _ _ _ Hd).
Qed.

(** Making the map if it is nil, then binding [name] in it. *)
Lemma bind_child_run n name c w d :
  dirs w !! n = Some d ->
  exists w',
    (make_children n ;; assign_child n name c) w = (Ok tt, w') /\
    dirs w' !! n = Some (set_children (Some (<[name := c]> (default ∅ (children d)))) d) /\
    (forall b, b <> n -> dirs w' !! b = dirs w !! b) /\
    files w' = files w /\ signed w' = signed w /\ handles w' = handles w /\
    tmpfiles w' = tmpfiles w /\ described w' = described w /\ tick w' = tick w.
Proof.
  intros Hd.
  rewrite (bind_Ok _ _ _ _ _ (make_children_run _ _ _ Hd)).
  destruct (children d) as [m|] eqn:Hm.
  - rewrite (assign_child_run n name c w d m Hd Hm).
    eexists. split; [reflexivity|]. simpl. rewrite lookup_alter_eq, Hd.
    repeat split; try done. intros b Hb. by rewrite lookup_alter_ne.
  - set (w1 := with_dirs _ w).
    assert (dirs w1 !! n = Some (set_children (Some ∅) d)) as Hd1.
    { subst w1. simpl. by rewrite lookup_alter_eq, Hd. }
    rewrite (assign_child_run n name c w1 _ ∅ Hd1 eq_refl).
    eexists. split; [reflexivity|]. simpl. rewrite !lookup_alter_eq, Hd.
    repeat split; try done. intros b Hb. by rewrite !lookup_alter_ne.
Qed.

(** [creat] when both calls to the store succeed. *)
Lemma creat_ok n name typ w d br :
  dirs w !! n = Some d ->
  client_UploadNewPermanode io (tick w) = inr br ->
  client_UploadAndSignBlob env (S (tick w))
    (NewSetAttributeClaim (d_permanode d) ("camliPath:" +:+ name) (BlobRef_String br))
    = None ->
  exists c w',
    creat env io n name typ w = (Ok (inr c), w') /\
    is_new w c /\
    match c with
    | DirNode a =>
        typ = dirType /\ a <> n /\
        dirs w' !! a = Some {| d_permanode := br; d_parent := Some n; d_name := name;
                               lastPop := 0; children := None |}
    | FileNode a =>
        typ <> dirType /\
        files w' !! a = Some {| f_permanode := br; f_parent := Some n; f_name := name;
                                symLink := false; target := ""; content := None;
                                size := 0; mtime := 0; atime := 0 |}
    end /\
    dirs w' !! n = Some (set_children (Some (<[name := c]> (default ∅ (children d)))) d) /\
    extends n w w' /\
    signed w' = signed w ++
      [NewSetAttributeClaim (d_permanode d) ("camliPath:" +:+ name) (BlobRef_String br)] /\
    handles w' = handles w /\ tmpfiles w' = tmpfiles w /\ described w' = described w /\
    tick w' = S (S (tick w)).
Proof.
  intros Hd Hperm Hsign. unfold creat.
  rewrite (bind_Ok _ _ _ _ _ (get_dir_Some _ _ _ Hd)).
  unfold bind at 1. unfold UploadNewPermanode at 1. rewrite Hperm.
  unfold bind at 1. unfold UploadAndSignBlob at 1.
  change (tick (next_tick w)) with (S (tick w)). rewrite Hsign.
  set (claim := NewSetAttributeClaim _ _ _).
  set (w1 := next_tick (with_signed claim (next_tick w))).
  assert (dirs w !! fresh (dom (dirs w)) = None) as Hfd by apply not_elem_of_dom, is_fresh.
  assert (files w !! fresh (dom (files w)) = None) as Hff by apply not_elem_of_dom, is_fresh.
  assert (fresh (dom (dirs w)) <> n) as Hne by congruence.
  assert (forall f (k : mutFileOrDir -> M World (error + mutFileOrDir)),
    (c <- (a <- new_mutFile f ;; ret (FileNode a)) ;; k c) w1
    = k (FileNode (fresh (dom (files w)))) (with_files (insert (fresh (dom (files w))) f) w1))
    as Hfile by done.
  assert (forall d' (k : mutFileOrDir -> M World (error + mutFileOrDir)),
    (c <- (a <- new_mutDir d' ;; ret (DirNode a)) ;; k c) w1
    = k (DirNode (fresh (dom (dirs w)))) (with_dirs (insert (fresh (dom (dirs w))) d') w1))
    as Hdir by done.
  assert (typ = dirType \/ typ <> dirType) as [-> | Hfiletyp]
    by (destruct typ; auto; right; discriminate).
  - (* a directory *)
    rewrite Hdir. set (w2 := with_dirs _ w1).
    assert (dirs w2 !! n = Some d) as Hd2.
    { subst w2. simpl. by rewrite lookup_insert_ne. }
    rewrite <- (bind_assoc_run (make_children n) _ _).
    destruct (bind_child_run n name (DirNode (fresh (dom (dirs w)))) w2 d Hd2)
      as (w3 & Hrun & Hn3 & Hother & Hfiles & Hsigned & Hh & Ht & Hdesc & Htick).
    rewrite (bind_Ok _ _ _ _ _ Hrun).
    exists (DirNode (fresh (dom (dirs w)))), w3. split; [done|]. split; [done|]. split.
    { split; [done|]. split; [done|]. rewrite Hother by done.
      subst w2. simpl. by rewrite lookup_insert_eq. }
    split; [done|]. split.
    { split.
      - intros b x Hb. by rewrite Hfiles.
      - intros b x Hb Hx. rewrite Hother by done. subst w2. simpl.
        rewrite lookup_insert_ne; [done | congruence]. }
    rewrite Hsigned, Hh, Ht, Hdesc, Htick. done.
  - (* a file or a symlink *)
    assert ((child <- match typ with
                      | dirType =>
                          a <- new_mutDir {| d_permanode := br; d_parent := Some n;
                                             d_name := name; lastPop := 0;
                                             children := None |} ;;
                          ret (DirNode a)
                      | fileType | symlinkType =>
                          a <- new_mutFile {| f_permanode := br; f_parent := Some n;
                                              f_name := name; symLink := false; target := "";
                                              content := None; size := 0;
                                              mtime := 0; atime := 0 |} ;;
                          ret (FileNode a)
                      end ;;
             make_children n ;; assign_child n name child ;; ret (inr child)) w1
            = (child <- (a <- new_mutFile {| f_permanode := br; f_parent := Some n;
                                              f_name := name; symLink := false; target := "";
                                              content := None; size := 0;
                                              mtime := 0; atime := 0 |} ;;
                          ret (FileNode a)) ;;
               make_children n ;; assign_child n name child ;;
               ret (inr (B := mutFileOrDir) (A := error) child)) w1) as ->
      by (by destruct typ).
    rewrite Hfile. set (w2 := with_files _ w1).
    assert (dirs w2 !! n = Some d) as Hd2 by done.
    rewrite <- (bind_assoc_run (make_children n) _ _).
    destruct (bind_child_run n name (FileNode (fresh (dom (files w)))) w2 d Hd2)
      as (w3 & Hrun & Hn3 & Hother & Hfiles & Hsigned & Hh & Ht & Hdesc & Htick).
    rewrite (bind_Ok _ _ _ _ _ Hrun).
    exists (FileNode (fresh (dom (files w)))), w3. split; [done|]. split; [done|]. split.
    { split; [done|]. rewrite Hfiles. subst w2. simpl. by rewrite lookup_insert_eq. }
    split; [done|]. split.
    { split.
      - intros b x Hb. rewrite Hfiles. subst w2. simpl.
        rewrite lookup_insert_ne; [done | congruence].
      - intros b x Hb Hx. by rewrite Hother. }
    rewrite Hsigned, Hh, Ht, Hdesc, Htick. done.
Qed.

End DirOps.

Section DirOpsMore.
Context `{Blobref} (env : Env) (io : EnvIO).

Lemma bind_ret_run {W A B} (a : A) (k : A -> M W B) w : (x <- ret a ;; k x) w = k a w.
Proof. done. Qed.

(** [creat] when one of the two calls to the store fails: the error is
    returned, no node is made and none is changed. *)
Lemma creat_fails n name typ w d :
  dirs w !! n = Some d ->
  (exists e, client_UploadNewPermanode io (tick w) = inl e) \/
  (exists br e,
     client_UploadNewPermanode io (tick w) = inr br /\
     client_UploadAndSignBlob env (S (tick w))
       (NewSetAttributeClaim (d_permanode d) ("camliPath:" +:+ name) (BlobRef_String br))
       = Some e) ->
  exists e w',
    creat env io n name typ w = (Ok (inl e), w') /\
    dirs w' = dirs w /\ files w' = files w /\ handles w' = handles w /\
    tmpfiles w' = tmpfiles w /\ logged w' = logged w /\
    match client_UploadNewPermanode io (tick w) with
    | inl _ => signed w' = signed w
    | inr br =>
        signed w' = signed w ++
          [NewSetAttributeClaim (d_permanode d) ("camliPath:" +:+ name) (BlobRef_String br)]
    end.
Proof.
  intros Hd Hfail. unfold creat.
  rewrite (bind_Ok _ _ _ _ _ (get_dir_Some _ _ _ Hd)).
  unfold bind at 1. unfold UploadNewPermanode at 1.
  destruct Hfail as [(e & Hperm) | (br & e & Hperm & Hsign)]; rewrite Hperm.
  - eexists _, _. split; [reflexivity|]. simpl. by repeat split.
  - unfold bind at 1. unfold UploadAndSignBlob at 1.
    change (tick (next_tick w)) with (S (tick w)). rewrite Hsign.
    eexists _, _. split; [reflexivity|]. simpl. by repeat split.
Qed.

(** [Lookup] while [populate] is not due. *)
Lemma Lookup_recent n name w d :
  dirs w !! n = Some d ->
  ~ populate_due d (time_Now env (tick w)) ->
  Lookup env n name w =
    (Ok (match child_of w n name with Some c => inr c | None => inl ENOENT end),
     with_logged "mutDir(%q).Lookup(%q) = %#v, %v" (next_tick w)).
Proof.
  intros Hd Hdue. unfold Lookup, deferring.
  rewrite (bind_Ok _ _ _ _ _ (populate_recent env n w d Hd Hdue)).
  assert (dirs (next_tick w) !! n = Some d) as Hd1 by done.
  rewrite (bind_Ok _ _ _ _ _ (get_dir_Some _ _ _ Hd1)).
  unfold child_of, children_of. rewrite Hd. simpl.
  by destruct (map_index (children d) name).
Qed.

(** [newHandle] without a body, when the temp file can be made. *)
Lemma newHandle_nil_ok n w :
  ioutil_TempFile env (tick w) = None ->
  exists h t w',
    newHandle env n None w = (Ok (inr h), w') /\
    handles w !! h = None /\ tmpfiles w !! t = None /\
    handles w' = <[h := {| h_f := n; h_tmp := Some t |}]> (handles w) /\
    tmpfiles w' = <[t := {| is_open := true; is_linked := true; data := []; offset := 0 |}]>
                    (tmpfiles w) /\
    dirs w' = dirs w /\ files w' = files w /\ signed w' = signed w /\
    described w' = described w /\ tick w' = S (tick w).
Proof.
  intros Htmp. unfold newHandle. unfold bind at 1. unfold TempFile at 1. rewrite Htmp.
  eexists _, _, _. split; [reflexivity|]. simpl.
  split; [apply not_elem_of_dom, is_fresh|]. split; [apply not_elem_of_dom, is_fresh|].
  by repeat split.
Qed.

(** [Symlink] when [creat] gets through: the node is made, marked and
    bound before the target claim is sent; only the result depends on
    that claim. *)
Lemma Symlink_after_creat n newName tgt w d br :
  dirs w !! n = Some d ->
  client_UploadNewPermanode io (tick w) = inr br ->
  client_UploadAndSignBlob env (S (tick w))
    (NewSetAttributeClaim (d_permanode d) ("camliPath:" +:+ newName) (BlobRef_String br))
    = None ->
  exists a w',
    Symlink env io n newName tgt w =
      (Ok (match client_UploadAndSignBlob env (S (S (tick w)))
                   (NewSetAttributeClaim br "camliSymlinkTarget" tgt) with
           | None => inr (FileNode a)
           | Some _ => inl EIO
           end), w') /\
    files w !! a = None /\
    files w' !! a = Some {| f_permanode := br; f_parent := Some n; f_name := newName;
                            symLink := true; target := tgt; content := None;
                            size := 0; mtime := 0; atime := 0 |} /\
    child_of w' n newName = Some (FileNode a) /\
    signed w' = signed w ++
      [NewSetAttributeClaim (d_permanode d) ("camliPath:" +:+ newName) (BlobRef_String br);
       NewSetAttributeClaim br "camliSymlinkTarget" tgt] /\
    extends n w w' /\
    dirs w' !! n =
      Some (set_children (Some (<[newName := FileNode a]> (default ∅ (children d)))) d).
Proof.
  intros Hd Hperm Hsign.
  destruct (creat_ok env io n newName symlinkType w d br Hd Hperm Hsign)
    as (c & w1 & Hrun & Hnew & Hc & Hn1 & Hext & Hsigned & _ & _ & _ & Htick).
  destruct c as [a | a]; [by destruct Hc|]. destruct Hc as (_ & Hf1).
  exists a. unfold Symlink. rewrite (bind_Ok _ _ _ _ _ Hrun).
  change (as_mutFile (FileNode a)) with (ret (W := World) a) at 1.
  rewrite bind_ret_run.
  rewrite (bind_Ok _ _ _ _ _ (modify_file_Some _ _ _ _ Hf1)).
  set (w2 := with_files _ w1).
  assert (files w2 !! a = Some (set_symlink tgt {| f_permanode := br; f_parent := Some n;
            f_name := newName; symLink := false; target := ""; content := None;
            size := 0; mtime := 0; atime := 0 |})) as Hf2.
  { subst w2. simpl. by rewrite lookup_alter_eq, Hf1. }
  rewrite (bind_Ok _ _ _ _ _ (get_file_Some _ _ _ Hf2)).
  unfold bind at 1. unfold UploadAndSignBlob at 1.
  change (tick w2) with (tick w1). rewrite Htick.
  simpl f_permanode.
  assert (child_of w2 n newName = Some (FileNode a)) as Hchild.
  { unfold child_of, children_of. subst w2. simpl. rewrite Hn1. simpl.
    by rewrite lookup_insert_eq. }
  assert (extends n w w2) as Hext2.
  { destruct Hext as [Hfiles Hdirs]. split; [|done].
    intros b x Hb. subst w2. simpl.
    rewrite lookup_alter_ne; [by apply Hfiles | simpl in Hnew; congruence]. }
  destruct (client_UploadAndSignBlob env (S (S (tick w))) _).
  - eexists. split; [reflexivity|]. split; [done|]. split; [exact Hf2|].
    split; [exact Hchild|]. split; [|split; [exact Hext2 | exact Hn1]].
    simpl. by rewrite Hsigned, <- app_assoc.
  - eexists. split; [reflexivity|]. split; [done|]. split; [exact Hf2|].
    split; [exact Hchild|]. split; [|split; [exact Hext2 | exact Hn1]].
    simpl. by rewrite Hsigned, <- app_assoc.
Qed.

End DirOpsMore.

(** X13. A successful [Mkdir] uploads a new permanode, signs one claim,
    [camliPath:name] of the directory's permanode set to the new one, and
    binds [name] to a directory node that did not exist before, with no
    children map and never populated, whatever [name] was bound to; the
    other names keep their bindings and the other nodes are untouched. *)
Theorem Mkdir_binds_new_directory `{Blobref} (env : Env) (io : EnvIO) (n : addr)
    (name : string) (w : World) (d : mutDir) (br : option BlobRef) :
  dirs w !! n = Some d ->
  client_UploadNewPermanode io (tick w) = inr br ->
  client_UploadAndSignBlob env (S (tick w))
    (NewSetAttributeClaim (d_permanode d) ("camliPath:" +:+ name) (BlobRef_String br))
    = None ->
  exists a w',
    Mkdir env io n name w = (Ok (inr (DirNode a)), w') /\
    dirs w !! a = None /\
    dirs w' !! a = Some {| d_permanode := br; d_parent := Some n; d_name := name;
                           lastPop := 0; children := None |} /\
    child_of w' n name = Some (DirNode a) /\
    (forall other, other <> name -> child_of w' n other = child_of w n other) /\
    signed w' = signed w ++
      [NewSetAttributeClaim (d_permanode d) ("camliPath:" +:+ name) (BlobRef_String br)] /\
    extends n w w'.
Proof.
  intros Hd Hperm Hsign.
  destruct (creat_ok env io n name dirType w d br Hd Hperm Hsign)
    as (c & w' & Hrun & Hnew & Hc & Hn' & Hext & Hsigned & _).
  destruct c as [a | a]; [|by destruct Hc as [[] _]]. destruct Hc as (_ & _ & Ha).
  exists a, w'. unfold Mkdir. rewrite (bind_Ok _ _ _ _ _ Hrun).
  split; [done|]. split; [exact Hnew|]. split; [exact Ha|]. split; [|split].
  - unfold child_of, children_of. rewrite Hn'. simpl. by rewrite lookup_insert_eq.
  - intros other Hother. unfold child_of, children_of. rewrite Hn', Hd. simpl.
    rewrite lookup_insert_ne by done. destruct (children d); [done|]. simpl.
    apply lookup_empty.
  - done.
Qed.

(** [Mkdir] of ["a"], a name already bound to a file, in the directory of
    the example: ["a"] is bound to a new directory. *)
Lemma Mkdir_binds_new_directory_witness :
  exists a w',
    Mkdir FsExamples.env_described FsExamples.io_ok 1%positive "a" FsExamples.w_recent
      = (Ok (inr (DirNode a)), w') /\
    child_of FsExamples.w_recent 1%positive "a" = Some (FileNode 1%positive) /\
    child_of w' 1%positive "a" = Some (DirNode a).
Proof.
  destruct (Mkdir_binds_new_directory (H := FsExamples.string_blobref)
              FsExamples.env_described FsExamples.io_ok 1%positive "a" FsExamples.w_recent
              (FsExamples.dir_with FsExamples.now0 "a") (Some "sha1-y"%string)
              eq_refl eq_refl eq_refl)
    as (a & w' & Hrun & _ & _ & Hchild & _).
  exists a, w'. split; [exact Hrun|]. split; [reflexivity | exact Hchild].
Defined.

(** X14. A successful [Create] binds [name] to a file node that did not
    exist before, empty and without content, and returns it with a new
    handle on it whose scratch file is open and empty; it signs the one
    claim of the directory entry, and the direct-I/O bit is cleared in
    the flags of the response. *)
Theorem Create_opens_empty_file `{Blobref} (env : Env) (io : EnvIO) (fc : FuseConsts)
    (n : addr) (name : string) (resFlags : Z) (w : World) (d : mutDir)
    (br : option BlobRef) :
  dirs w !! n = Some d ->
  client_UploadNewPermanode io (tick w) = inr br ->
  client_UploadAndSignBlob env (S (tick w))
    (NewSetAttributeClaim (d_permanode d) ("camliPath:" +:+ name) (BlobRef_String br))
    = None ->
  ioutil_TempFile env (S (S (tick w))) = None ->
  exists a h flags w',
    Create env io fc n name resFlags w = (Ok (inr (FileNode a, h, flags)), w') /\
    flags = Z.ldiff resFlags (OpenDirectIO fc) /\
    Z.land flags (OpenDirectIO fc) = 0 /\
    files w !! a = None /\ handles w !! h = None /\
    files w' !! a = Some {| f_permanode := br; f_parent := Some n; f_name := name;
                            symLink := false; target := ""; content := None;
                            size := 0; mtime := 0; atime := 0 |} /\
    child_of w' n name = Some (FileNode a) /\
    (h_f <$> handles w' !! h) = Some a /\
    handle_open w' h /\ scratch_of w' h = Some [] /\
    signed w' = signed w ++
      [NewSetAttributeClaim (d_permanode d) ("camliPath:" +:+ name) (BlobRef_String br)].
Proof.
  intros Hd Hperm Hsign Htmp.
  destruct (creat_ok env io n name fileType w d br Hd Hperm Hsign)
    as (c & w1 & Hrun & Hnew & Hc & Hn1 & Hext & Hsigned & Hh1 & _ & _ & Htick).
  destruct c as [a | a]; [by destruct Hc|]. destruct Hc as (_ & Hf1).
  assert (ioutil_TempFile env (tick w1) = None) as Htmp1 by (by rewrite Htick).
  destruct (newHandle_nil_ok env a w1 Htmp1)
    as (h & t & w2 & Hrun2 & Hh & Ht & Hh2 & Ht2 & Hd2 & Hf2 & Hs2 & _).
  exists a, h, (Z.ldiff resFlags (OpenDirectIO fc)), w2.
  unfold Create. rewrite (bind_Ok _ _ _ _ _ Hrun).
  change (as_mutFile (FileNode a)) with (ret (W := World) a) at 1.
  rewrite bind_ret_run. rewrite (bind_Ok _ _ _ _ _ Hrun2).
  split; [done|]. split; [done|]. split.
  { apply Z.bits_inj'. intros i Hi.
    rewrite Z.land_spec, Z.ldiff_spec, Z.bits_0. by destruct (Z.testbit _ i), (Z.testbit _ i). }
  split; [exact Hnew|]. split.
  { by rewrite <- Hh1. }
  split; [by rewrite Hf2|]. split.
  { unfold child_of, children_of. rewrite Hd2, Hn1. simpl. by rewrite lookup_insert_eq. }
  split; [by rewrite Hh2, lookup_insert_eq|]. split.
  { exists {| h_f := a; h_tmp := Some t |}, t,
      {| is_open := true; is_linked := true; data := []; offset := 0 |}.
    rewrite Hh2, Ht2, !lookup_insert_eq. done. }
  split.
  { unfold scratch_of. rewrite Hh2, lookup_insert_eq. simpl.
    by rewrite Ht2, lookup_insert_eq. }
  by rewrite Hs2.
Qed.

(** [Create] of ["b"] in the directory of the example. *)
Lemma Create_opens_empty_file_witness :
  exists a h w',
    Create FsExamples.env_described FsExamples.io_ok FsExamples.fuse_consts
      1%positive "b" 3 FsExamples.w_recent = (Ok (inr (FileNode a, h, 2)), w') /\
    child_of w' 1%positive "b" = Some (FileNode a) /\
    scratch_of w' h = Some [].
Proof.
  destruct (Create_opens_empty_file (H := FsExamples.string_blobref)
              FsExamples.env_described FsExamples.io_ok FsExamples.fuse_consts
              1%positive "b" 3 FsExamples.w_recent
              (FsExamples.dir_with FsExamples.now0 "a") (Some "sha1-y"%string)
              eq_refl eq_refl eq_refl eq_refl)
    as (a & h & flags & w' & Hrun & -> & _ & _ & _ & _ & Hchild & _ & _ & Hs & _).
  exists a, h, w'. split; [exact Hrun|]. split; [exact Hchild | exact Hs].
Defined.

(** X15. When the upload of the new permanode fails, or that of the
    directory claim, [Create], [Mkdir] and [Symlink] return EIO: no node,
    handle or scratch file is made and none is changed. *)
Theorem making_entry_fails_cleanly `{Blobref} (env : Env) (io : EnvIO) (fc : FuseConsts)
    (n : addr) (name tgt : string) (resFlags : Z) (w : World) (d : mutDir) :
  dirs w !! n = Some d ->
  (exists e, client_UploadNewPermanode io (tick w) = inl e) \/
  (exists br e,
     client_UploadNewPermanode io (tick w) = inr br /\
     client_UploadAndSignBlob env (S (tick w))
       (NewSetAttributeClaim (d_permanode d) ("camliPath:" +:+ name) (BlobRef_String br))
       = Some e) ->
  (exists w', Create env io fc n name resFlags w = (Ok (inl EIO), w') /\
              dirs w' = dirs w /\ files w' = files w /\
              handles w' = handles w /\ tmpfiles w' = tmpfiles w) /\
  (exists w', Mkdir env io n name w = (Ok (inl EIO), w') /\
              dirs w' = dirs w /\ files w' = files w /\
              handles w' = handles w /\ tmpfiles w' = tmpfiles w) /\
  (exists w', Symlink env io n name tgt w = (Ok (inl EIO), w') /\
              dirs w' = dirs w /\ files w' = files w /\
              handles w' = handles w /\ tmpfiles w' = tmpfiles w).
Proof.
  intros Hd Hfail.
  split; [|split].
  - destruct (creat_fails env io n name fileType w d Hd Hfail)
      as (e & w' & Hrun & Hdirs & Hfiles & Hh & Ht & _).
    eexists. unfold Create. rewrite (bind_Ok _ _ _ _ _ Hrun).
    split; [reflexivity|]. done.
  - destruct (creat_fails env io n name dirType w d Hd Hfail)
      as (e & w' & Hrun & Hdirs & Hfiles & Hh & Ht & _).
    eexists. unfold Mkdir. rewrite (bind_Ok _ _ _ _ _ Hrun).
    split; [reflexivity|]. done.
  - destruct (creat_fails env io n name symlinkType w d Hd Hfail)
      as (e & w' & Hrun & Hdirs & Hfiles & Hh & Ht & _).
    eexists. unfold Symlink. rewrite (bind_Ok _ _ _ _ _ Hrun).
    split; [reflexivity|]. done.
Qed.

(** With a store that refuses the permanode, [Mkdir] returns EIO and the
    directory of the example keeps its one child. *)
Lemma making_entry_fails_cleanly_witness :
  exists w',
    Mkdir FsExamples.env_described FsExamples.io_fails 1%positive "b" FsExamples.w_recent
      = (Ok (inl EIO), w') /\
    dirs w' = dirs FsExamples.w_recent /\ files w' = files FsExamples.w_recent.
Proof.
  destruct (making_entry_fails_cleanly (H := FsExamples.string_blobref)
              FsExamples.env_described FsExamples.io_fails FsExamples.fuse_consts
              1%positive "b" "t" 0 FsExamples.w_recent
              (FsExamples.dir_with FsExamples.now0 "a") eq_refl
              (or_introl (ex_intro _ "put: connection refused"%string eq_refl)))
    as (_ & (w' & Hrun & Hdirs & Hfiles & _) & _).
  exists w'. split; [exact Hrun|]. split; [exact Hdirs | exact Hfiles].
Defined.

(** X16. What [Mkdir] has made, [Lookup] finds: while [populate] is not
    due, a [Lookup] of the name after a successful [Mkdir] returns the
    very node [Mkdir] returned, and asks the store nothing. *)
Theorem Mkdir_then_Lookup `{Blobref} (env : Env) (io : EnvIO) (n : addr)
    (name : string) (w : World) (d : mutDir) (br : option BlobRef) :
  dirs w !! n = Some d ->
  client_UploadNewPermanode io (tick w) = inr br ->
  client_UploadAndSignBlob env (S (tick w))
    (NewSetAttributeClaim (d_permanode d) ("camliPath:" +:+ name) (BlobRef_String br))
    = None ->
  ~ populate_due d (time_Now env (S (S (tick w)))) ->
  exists c w1 w2,
    Mkdir env io n name w = (Ok (inr c), w1) /\
    Lookup env n name w1 = (Ok (inr c), w2) /\
    described w2 = described w /\ signed w2 = signed w1.
Proof.
  intros Hd Hperm Hsign Hdue.
  destruct (creat_ok env io n name dirType w d br Hd Hperm Hsign)
    as (c & w1 & Hrun & _ & _ & Hn1 & _ & _ & _ & _ & Hdesc & Htick).
  exists c, w1. eexists. unfold Mkdir. rewrite (bind_Ok _ _ _ _ _ Hrun).
  split; [done|].
  rewrite (Lookup_recent env n name w1 _ Hn1) by (by rewrite Htick).
  unfold child_of, children_of. rewrite Hn1. simpl. rewrite lookup_insert_eq.
  split; [reflexivity|]. done.
Qed.

Lemma Mkdir_then_Lookup_witness :
  exists c w1 w2,
    Mkdir FsExamples.env_described FsExamples.io_ok 1%positive "b" FsExamples.w_recent
      = (Ok (inr c), w1) /\
    Lookup FsExamples.env_described 1%positive "b" w1 = (Ok (inr c), w2).
Proof.
  destruct (Mkdir_then_Lookup (H := FsExamples.string_blobref)
              FsExamples.env_described FsExamples.io_ok 1%positive "b" FsExamples.w_recent
              (FsExamples.dir_with FsExamples.now0 "a") (Some "sha1-y"%string)
              eq_refl eq_refl eq_refl ltac:(discriminate))
    as (c & w1 & w2 & Hm & Hl & _).
  exists c, w1, w2. split; [exact Hm | exact Hl].
Defined.

Section RemoveRun.
Context `{Blobref} (env : Env).

Lemma Remove_ok n name w d :
  dirs w !! n = Some d ->
  client_UploadAndSignBlob env (tick w)
    (NewDelAttributeClaim (d_permanode d) ("camliPath:" +:+ name)) = None ->
  Remove env n name w =
    (Ok None,
     with_dirs (alter (fun d => set_children (map_delete name (children d)) d) n)
       (next_tick (with_signed
          (NewDelAttributeClaim (d_permanode d) ("camliPath:" +:+ name)) w))).
Proof.
  intros Hd Hsign. unfold Remove.
  rewrite (bind_Ok _ _ _ _ _ (get_dir_Some _ _ _ Hd)).
  unfold bind at 1. unfold UploadAndSignBlob at 1. rewrite Hsign.
  set (w1 := next_tick _).
  assert (dirs w1 !! n = Some d) as Hd1 by done.
  by rewrite (bind_Ok _ _ _ _ _ (modify_dir_Some _ _ _ _ Hd1)).
Qed.

End RemoveRun.

(** X17. What [Remove] has removed, [Lookup] no longer finds: while
    [populate] is not due, a [Lookup] of the name after a successful
    [Remove] returns ENOENT, and the other names are found as before. *)
Theorem Remove_then_Lookup `{Blobref} (env : Env) (n : addr) (name : string)
    (w : World) (d : mutDir) :
  dirs w !! n = Some d ->
  client_UploadAndSignBlob env (tick w)
    (NewDelAttributeClaim (d_permanode d) ("camliPath:" +:+ name)) = None ->
  ~ populate_due d (time_Now env (S (tick w))) ->
  exists w1,
    Remove env n name w = (Ok None, w1) /\
    (exists w2, Lookup env n name w1 = (Ok (inl ENOENT), w2)) /\
    (forall other c, other <> name -> child_of w n other = Some c ->
       exists w2, Lookup env n other w1 = (Ok (inr c), w2)).
Proof.
  intros Hd Hsign Hdue.
  eexists. split; [by apply Remove_ok|].
  set (w1 := with_dirs _ _).
  assert (dirs w1 !! n = Some (set_children (map_delete name (children d)) d)) as Hd1.
  { subst w1. simpl. by rewrite lookup_alter_eq, Hd. }
  split.
  - eexists. rewrite (Lookup_recent env n name w1 _ Hd1) by done.
    unfold child_of, children_of. rewrite Hd1. simpl.
    destruct (children d) as [m|]; simpl; [|done]. by rewrite lookup_delete_eq.
  - intros other c Hother Hc. eexists.
    rewrite (Lookup_recent env n other w1 _ Hd1) by done.
    revert Hc. unfold child_of, children_of. rewrite Hd1, Hd. simpl.
    destruct (children d) as [m|]; simpl; [|done].
    rewrite lookup_delete_ne by done. by intros ->.
Qed.

Lemma Remove_then_Lookup_witness :
  exists w1 w2,
    Remove FsExamples.env_described 1%positive "a" FsExamples.w_recent = (Ok None, w1) /\
    Lookup FsExamples.env_described 1%positive "a" w1 = (Ok (inl ENOENT), w2).
Proof.
  destruct (Remove_then_Lookup (H := FsExamples.string_blobref)
              FsExamples.env_described 1%positive "a" FsExamples.w_recent
              (FsExamples.dir_with FsExamples.now0 "a")
              eq_refl eq_refl ltac:(discriminate))
    as (w1 & Hr & (w2 & Hl) & _).
  exists w1, w2. split; [exact Hr | exact Hl].
Defined.

(** X18. What [Symlink] has linked, [Readlink] reads: a successful
    [Symlink] returns a new file node marked as a symlink, bound under
    the new name, on which [Readlink] returns the target; it signs two
    claims, the directory entry and then [camliSymlinkTarget] of the new
    permanode. *)
Theorem Symlink_then_Readlink `{Blobref} (env : Env) (io : EnvIO) (n : addr)
    (newName tgt : string) (w : World) (d : mutDir) (br : option BlobRef) :
  dirs w !! n = Some d ->
  client_UploadNewPermanode io (tick w) = inr br ->
  client_UploadAndSignBlob env (S (tick w))
    (NewSetAttributeClaim (d_permanode d) ("camliPath:" +:+ newName) (BlobRef_String br))
    = None ->
  client_UploadAndSignBlob env (S (S (tick w)))
    (NewSetAttributeClaim br "camliSymlinkTarget" tgt) = None ->
  exists a w',
    Symlink env io n newName tgt w = (Ok (inr (FileNode a)), w') /\
    files w !! a = None /\
    child_of w' n newName = Some (FileNode a) /\
    Readlink a w' = (Ok (inr tgt), w') /\
    signed w' = signed w ++
      [NewSetAttributeClaim (d_permanode d) ("camliPath:" +:+ newName) (BlobRef_String br);
       NewSetAttributeClaim br "camliSymlinkTarget" tgt].
Proof.
  intros Hd Hperm Hsign Hsign2.
  destruct (Symlink_after_creat env io n newName tgt w d br Hd Hperm Hsign)
    as (a & w' & Hrun & Hnew & Hf & Hchild & Hsigned & _).
  rewrite Hsign2 in Hrun.
  exists a, w'. split; [done|]. split; [done|]. split; [done|]. split; [|done].
  unfold Readlink. by rewrite (bind_Ok _ _ _ _ _ (get_file_Some _ _ _ Hf)).
Qed.

Lemma Symlink_then_Readlink_witness :
  exists a w',
    Symlink FsExamples.env_described FsExamples.io_ok 1%positive "l" "../t"
      FsExamples.w_recent = (Ok (inr (FileNode a)), w') /\
    Readlink a w' = (Ok (inr "../t"%string), w').
Proof.
  destruct (Symlink_then_Readlink (H := FsExamples.string_blobref)
              FsExamples.env_described FsExamples.io_ok 1%positive "l" "../t"
              FsExamples.w_recent
              (FsExamples.dir_with FsExamples.now0 "a") (Some "sha1-y"%string)
              eq_refl eq_refl eq_refl eq_refl)
    as (a & w' & Hrun & _ & _ & Hread & _).
  exists a, w'. split; [exact Hrun | exact Hread].
Defined.

(** X19. When the upload of the target claim fails, [Symlink] returns EIO
    but has undone nothing: the new name is bound to the new node, which
    is marked as a symlink to the target, so that a later [Lookup] finds
    it and [Readlink] reads the target, while the store has the directory
    entry and has refused the target. *)
Theorem Symlink_target_claim_fails `{Blobref} (env : Env) (io : EnvIO) (n : addr)
    (newName tgt : string) (w : World) (d : mutDir) (br : option BlobRef) (e : error) :
  dirs w !! n = Some d ->
  client_UploadNewPermanode io (tick w) = inr br ->
  client_UploadAndSignBlob env (S (tick w))
    (NewSetAttributeClaim (d_permanode d) ("camliPath:" +:+ newName) (BlobRef_String br))
    = None ->
  client_UploadAndSignBlob env (S (S (tick w)))
    (NewSetAttributeClaim br "camliSymlinkTarget" tgt) = Some e ->
  exists a w',
    Symlink env io n newName tgt w = (Ok (inl EIO), w') /\
    files w !! a = None /\
    child_of w' n newName = Some (FileNode a) /\
    Readlink a w' = (Ok (inr tgt), w') /\
    (~ populate_due d (time_Now env (tick w')) ->
     exists w2, Lookup env n newName w' = (Ok (inr (FileNode a)), w2)).
Proof.
  intros Hd Hperm Hsign Hsign2.
  destruct (Symlink_after_creat env io n newName tgt w d br Hd Hperm Hsign)
    as (a & w' & Hrun & Hnew & Hf & Hchild & Hsigned & _ & Hn').
  rewrite Hsign2 in Hrun.
  exists a, w'. split; [done|]. split; [done|]. split; [done|]. split.
  - unfold Readlink. by rewrite (bind_Ok _ _ _ _ _ (get_file_Some _ _ _ Hf)).
  - intros Hdue. eexists.
    rewrite (Lookup_recent env n newName w' _ Hn') by done.
    by rewrite Hchild.
Qed.

Lemma Symlink_target_claim_fails_witness :
  exists a w',
    Symlink FsExamples.env_third_call_fails FsExamples.io_ok 1%positive "l" "../t"
      FsExamples.w_recent = (Ok (inl EIO), w') /\
    child_of w' 1%positive "l" = Some (FileNode a) /\
    Readlink a w' = (Ok (inr "../t"%string), w').
Proof.
  destruct (Symlink_target_claim_fails (H := FsExamples.string_blobref)
              FsExamples.env_third_call_fails FsExamples.io_ok 1%positive "l" "../t"
              FsExamples.w_recent
              (FsExamples.dir_with FsExamples.now0 "a") (Some "sha1-y"%string)
              "sign: connection refused"
              eq_refl eq_refl eq_refl eq_refl)
    as (a & w' & Hrun & _ & Hchild & Hread & _).
  exists a, w'. split; [exact Hrun|]. split; [exact Hchild | exact Hread].
Defined.

Section RenameMore.
Context `{Blobref} (env : Env).

(** [Rename] when both populates return nil, the old name is bound and
    both claims are accepted: what is left is the assignment in the
    destination's map, after the old name was deleted from the
    source's. *)
Lemma Rename_commit n req n2 w w1 w2 d d2 target ps :
  populate env n w = (Ok None, w1) ->
  populate env n2 w1 = (Ok None, w2) ->
  dirs w2 !! n = Some d ->
  dirs w2 !! n2 = Some d2 ->
  child_of w2 n (OldName req) = Some target ->
  permanode_of w2 target = Some ps ->
  let now := time_Now env (tick w2) in
  let link := SetClaimDate now
                (NewSetAttributeClaim (d_permanode d2) ("camliPath:" +:+ NewName req) ps) in
  let unlink := SetClaimDate now
                  (NewDelAttributeClaim (d_permanode d) ("camliPath:" +:+ OldName req)) in
  client_UploadAndSignBlob env (S (tick w2)) link = None ->
  client_UploadAndSignBlob env (S (S (tick w2))) unlink = None ->
  Rename env n req (MutNode (DirNode n2)) w =
    (assign_child n2 (NewName req) target ;; ret None)
      (with_dirs (alter (fun d => set_children (map_delete (OldName req) (children d)) d) n)
         (next_tick (with_signed unlink (next_tick (with_signed link (next_tick w2)))))).
Proof.
  intros Hp1 Hp2 Hd Hd2 Htarget Hps now link unlink Hs1 Hs2.
  destruct (Rename_after_populate env n req n2 w w1 w2 d Hp1 Hp2 Hd) as (_ & ->).
  rewrite Htarget.
  unfold bind at 1. unfold Now at 1. fold now.
  assert (dirs (next_tick w2) !! n2 = Some d2) as Hd2' by done.
  rewrite (bind_Ok _ _ _ _ _ (get_dir_Some _ _ _ Hd2')).
  assert (permanode_of (next_tick w2) target = Some ps) as Hps' by (by destruct target).
  rewrite (bind_Ok _ _ _ _ _ (permanodeString_run _ _ _ Hps')).
  fold link. unfold bind at 1. unfold UploadAndSignBlob at 1.
  change (tick (next_tick w2)) with (S (tick w2)). rewrite Hs1.
  fold unlink. unfold bind at 1. unfold UploadAndSignBlob at 1.
  change (tick (next_tick (with_signed link (next_tick w2)))) with (S (S (tick w2))).
  rewrite Hs2.
  set (w5 := next_tick (with_signed unlink (next_tick (with_signed link (next_tick w2))))).
  assert (dirs w5 !! n = Some d) as Hd5 by done.
  rewrite (bind_Ok _ _ _ _ _ (get_dir_Some _ _ _ Hd5)).
  assert (map_index (children d) (OldName req) = Some target) as Hstill.
  { revert Htarget. unfold child_of, children_of. by rewrite Hd. }
  destruct (decide _) as [_ | Hrace]; [|done].
  by rewrite (bind_Ok _ _ _ _ _ (modify_dir_Some _ _ _ _ Hd5)).
Qed.

End RenameMore.

(** X20. A successful [Rename] moves the binding and nothing else: the
    new name in the destination is bound to the very node the old name
    was bound to, the old name is unbound in the source (unless source
    and destination, and old and new name, are the same), and no file
    node changes, so a renamed file keeps the name and parent it was
    made with. *)
Theorem Rename_moves_binding `{Blobref} (env : Env) (n n2 : addr) (req : RenameRequest)
    (w w1 w2 : World) (d d2 : mutDir) (m2 : gmap string mutFileOrDir)
    (target : mutFileOrDir) (ps : string) :
  populate env n w = (Ok None, w1) ->
  populate env n2 w1 = (Ok None, w2) ->
  dirs w2 !! n = Some d ->
  dirs w2 !! n2 = Some d2 -> children d2 = Some m2 ->
  child_of w2 n (OldName req) = Some target ->
  permanode_of w2 target = Some ps ->
  client_UploadAndSignBlob env (S (tick w2))
    (SetClaimDate (time_Now env (tick w2))
       (NewSetAttributeClaim (d_permanode d2) ("camliPath:" +:+ NewName req) ps)) = None ->
  client_UploadAndSignBlob env (S (S (tick w2)))
    (SetClaimDate (time_Now env (tick w2))
       (NewDelAttributeClaim (d_permanode d) ("camliPath:" +:+ OldName req))) = None ->
  exists w',
    Rename env n req (MutNode (DirNode n2)) w = (Ok None, w') /\
    child_of w' n2 (NewName req) = Some target /\
    (n <> n2 \/ OldName req <> NewName req -> child_of w' n (OldName req) = None) /\
    (forall other, other <> OldName req -> other <> NewName req ->
       child_of w' n other = child_of w2 n other /\
       child_of w' n2 other = child_of w2 n2 other) /\
    files w' = files w2.
Proof.
  intros Hp1 Hp2 Hd Hd2 Hm2 Htarget Hps Hs1 Hs2.
  rewrite (Rename_commit env n req n2 w w1 w2 d d2 target ps Hp1 Hp2 Hd Hd2 Htarget Hps
             Hs1 Hs2).
  set (w5 := next_tick _). set (w6 := with_dirs _ w5).
  assert (exists m, children d = Some m /\ m !! OldName req = Some target) as (m & Hm & Hold).
  { revert Htarget. unfold child_of, children_of. rewrite Hd. simpl.
    destruct (children d) as [m|]; [eauto | done]. }
  assert (dirs w6 !! n = Some (set_children (Some (delete (OldName req) m)) d)) as Hn6.
  { subst w6 w5. simpl. rewrite lookup_alter_eq, Hd. simpl. by rewrite Hm. }
  destruct (decide (n = n2)) as [<- | Hne].
  - (* within one directory *)
    assert (d2 = d) as -> by congruence.
    rewrite (bind_Ok _ _ _ _ _
               (assign_child_run n (NewName req) target w6 _ _ Hn6 eq_refl)).
    eexists. split; [reflexivity|].
    unfold child_of, children_of. simpl. rewrite !lookup_alter_eq, Hd. simpl. rewrite Hm.
    simpl. split; [by rewrite lookup_insert_eq|]. split; [|split; [|done]].
    + intros [? | Hnames]; [done|].
      rewrite lookup_insert_ne by done. apply lookup_delete_eq.
    + intros other Ho Hn. rewrite lookup_insert_ne, lookup_delete_ne by done. done.
  - (* from one directory to another *)
    assert (dirs w6 !! n2 = Some d2) as Hn26.
    { subst w6 w5. simpl. by rewrite lookup_alter_ne. }
    rewrite (bind_Ok _ _ _ _ _
               (assign_child_run n2 (NewName req) target w6 _ _ Hn26 Hm2)).
    eexists. split; [reflexivity|].
    unfold child_of, children_of. simpl.
    rewrite lookup_alter_eq, lookup_alter_ne, Hd2 by done. simpl.
    rewrite lookup_alter_ne, lookup_alter_eq, Hd by done. simpl. rewrite Hm, Hm2. simpl.
    split; [by rewrite lookup_insert_eq|]. split; [|split; [|done]].
    + intros _. apply lookup_delete_eq.
    + intros other Ho Hn. by rewrite lookup_insert_ne, lookup_delete_ne.
Qed.

(** Renaming ["a"] to ["b"] in the directory of the example: ["b"] is
    bound to the file node, ["a"] to nothing, and the node still carries
    the name ["a"]. *)
Lemma Rename_moves_binding_witness :
  exists w' : @World FsExamples.string_blobref,
    Rename FsExamples.env_described 1%positive {| OldName := "a"; NewName := "b" |}
      (MutNode (DirNode 1%positive)) FsExamples.w_recent = (Ok None, w') /\
    child_of w' 1%positive "b" = Some (FileNode 1%positive) /\
    child_of w' 1%positive "a" = None /\
    (@f_name FsExamples.string_blobref <$> files w' !! 1%positive) = Some "a"%string.
Proof.
  destruct (Rename_moves_binding (H := FsExamples.string_blobref) FsExamples.env_described
              1%positive 1%positive {| OldName := "a"; NewName := "b" |}
              FsExamples.w_recent (next_tick FsExamples.w_recent)
              (next_tick (next_tick FsExamples.w_recent))
              (FsExamples.dir_with FsExamples.now0 "a")
              (FsExamples.dir_with FsExamples.now0 "a")
              {[ "a"%string := FileNode 1%positive ]}
              (FileNode 1%positive) "sha1-x"%string
              eq_refl eq_refl eq_refl eq_refl eq_refl eq_refl eq_refl eq_refl eq_refl)
    as (w' & Hrun & Hnew & Hold & _ & Hfiles).
  exists w'. split; [exact Hrun|]. split; [exact Hnew|]. split.
  - apply Hold. right. discriminate.
  - rewrite Hfiles. reflexivity.
Defined.

(** X21. [Rename] assigns into the destination's children map without
    making it: into a directory whose map is still nil (one that [Mkdir]
    made and no describe has answered for) it panics, after both claims
    were signed and the old name was deleted from the source. *)
Theorem Rename_into_nil_map_panics `{Blobref} (env : Env) (n n2 : addr)
    (req : RenameRequest) (w w1 w2 : World) (d d2 : mutDir)
    (target : mutFileOrDir) (ps : string) :
  populate env n w = (Ok None, w1) ->
  populate env n2 w1 = (Ok None, w2) ->
  dirs w2 !! n = Some d ->
  dirs w2 !! n2 = Some d2 -> children d2 = None ->
  child_of w2 n (OldName req) = Some target ->
  permanode_of w2 target = Some ps ->
  client_UploadAndSignBlob env (S (tick w2))
    (SetClaimDate (time_Now env (tick w2))
       (NewSetAttributeClaim (d_permanode d2) ("camliPath:" +:+ NewName req) ps)) = None ->
  client_UploadAndSignBlob env (S (S (tick w2)))
    (SetClaimDate (time_Now env (tick w2))
       (NewDelAttributeClaim (d_permanode d) ("camliPath:" +:+ OldName req))) = None ->
  exists w',
    Rename env n req (MutNode (DirNode n2)) w
      = (Panic "assignment to entry in nil map", w') /\
    signed w' = signed w2 ++
      [SetClaimDate (time_Now env (tick w2))
         (NewSetAttributeClaim (d_permanode d2) ("camliPath:" +:+ NewName req) ps);
       SetClaimDate (time_Now env (tick w2))
         (NewDelAttributeClaim (d_permanode d) ("camliPath:" +:+ OldName req))] /\
    child_of w' n (OldName req) = None /\
    child_of w' n2 (NewName req) = None.
Proof.
  intros Hp1 Hp2 Hd Hd2 Hm2 Htarget Hps Hs1 Hs2.
  rewrite (Rename_commit env n req n2 w w1 w2 d d2 target ps Hp1 Hp2 Hd Hd2 Htarget Hps
             Hs1 Hs2).
  set (w5 := next_tick _). set (w6 := with_dirs _ w5).
  assert (exists m, children d = Some m /\ m !! OldName req = Some target) as (m & Hm & Hold).
  { revert Htarget. unfold child_of, children_of. rewrite Hd. simpl.
    destruct (children d) as [m|]; [eauto | done]. }
  assert (n <> n2) as Hne by (intros <-; congruence).
  assert (dirs w6 !! n2 = Some d2) as Hn26.
  { subst w6 w5. simpl. by rewrite lookup_alter_ne. }
  unfold bind at 1. unfold assign_child.
  rewrite (bind_Ok _ _ _ _ _ (get_dir_Some _ _ _ Hn26)). rewrite Hm2.
  eexists. split; [reflexivity|]. split.
  { simpl. by rewrite <- app_assoc. }
  unfold child_of, children_of. simpl.
  rewrite lookup_alter_eq, Hd, lookup_alter_ne, Hd2 by done. simpl. rewrite Hm, Hm2.
  simpl. split; [apply lookup_delete_eq | done].
Qed.

(** Renaming ["a"] into the new directory ["sub"] of the example while
    the store cannot be described: the populate of ["sub"] returns nil
    with the map still nil, and [Rename] panics with both claims
    signed. *)
Lemma Rename_into_nil_map_panics_witness :
  exists w',
    Rename FsExamples.env_describe_fails 1%positive {| OldName := "a"; NewName := "b" |}
      (MutNode (DirNode 2%positive)) FsExamples.w_subdir
      = (Panic "assignment to entry in nil map", w') /\
    length (signed w') = 2%nat /\
    child_of w' 1%positive "a" = None.
Proof.
  destruct (Rename_into_nil_map_panics (H := FsExamples.string_blobref)
              FsExamples.env_describe_fails
              1%positive 2%positive {| OldName := "a"; NewName := "b" |}
              FsExamples.w_subdir (next_tick FsExamples.w_subdir)
              (populate FsExamples.env_describe_fails 2%positive
                 (next_tick FsExamples.w_subdir)).2
              FsExamples.dir_top (FsExamples.dir_sub FsExamples.now0)
              (FileNode 1%positive) "sha1-x"%string
              eq_refl eq_refl eq_refl eq_refl eq_refl eq_refl eq_refl eq_refl eq_refl)
    as (w' & Hrun & Hsigned & Hold & _).
  exists w'. split; [exact Hrun|]. split; [|exact Hold].
  rewrite Hsigned. reflexivity.
Defined.

Section ReadDirRun.
Context `{Blobref} (env : Env).

Lemma child_inode_run c w i :
  inode_of w c = Some i -> child_inode c w = (Ok i, w).
Proof.
  destruct c as [a | a]; simpl; unfold get_dir, get_file, bind, deref, ret.
  - destruct (dirs w !! a); simpl; [|done]. by intros [= <-].
  - destruct (files w !! a); simpl; [|done]. by intros [= <-].
Qed.

(** The inode [ReadDir] reports for a node is the one its [Attr]
    reports. *)
Lemma node_Attr_inode c w i :
  inode_of w c = Some i ->
  exists attr, node_Attr env c w = (Ok attr, w) /\ Inode attr = i.
Proof.
  destruct c as [a | a]; simpl.
  - destruct (dirs w !! a) as [d|] eqn:Hd; simpl; [|done]. intros [= <-].
    unfold mutDir_Attr. rewrite (bind_Ok _ _ _ _ _ (get_dir_Some _ _ _ Hd)).
    eexists. split; [reflexivity | done].
  - destruct (files w !! a) as [f|] eqn:Hf; simpl; [|done]. intros [= <-].
    destruct (mutFile_Attr_run env a w f Hf) as (attr & Hrun & Hino & _). eauto.
Qed.

(** The loop of [ReadDir] over entries whose nodes exist: one [Dirent]
    for each, in order, and only the log changes. *)
Lemma ReadDir_loop (l : list (string * mutFileOrDir)) w :
  (forall nc, nc ∈ l -> is_Some (inode_of w nc.2)) ->
  exists ents w',
    mapM (fun '(name, childNode) =>
            ino <- child_inode childNode ;;
            log_Printf "mutDir(%q) appending inode %x, %+v" ;;
            ret {| Name := name; Dirent_Inode := ino |}) l w = (Ok ents, w') /\
    Forall2 (fun e nc => Name e = nc.1 /\ inode_of w nc.2 = Some (Dirent_Inode e)) ents l /\
    dirs w' = dirs w /\ files w' = files w /\ handles w' = handles w /\
    tmpfiles w' = tmpfiles w /\ signed w' = signed w /\ described w' = described w /\
    tick w' = tick w.
Proof.
  revert w. induction l as [|[name c] l IH]; intros w Hall.
  - exists [], w. by repeat split.
  - destruct (Hall (name, c) ltac:(left)) as [i Hi].
    simpl. rewrite bind_assoc_run.
    rewrite (bind_Ok _ _ _ _ _ (child_inode_run _ _ _ Hi)).
    rewrite bind_assoc_run. unfold bind at 1. unfold log_Printf at 1.
    rewrite bind_ret_run.
    set (w1 := with_logged _ w).
    assert (forall c', inode_of w1 c' = inode_of w c') as Hsame by (by intros []).
    destruct (IH w1) as (ents & w' & Hrun & Hents & Hframe).
    { intros nc Hnc. rewrite Hsame. apply Hall. by right. }
    rewrite (bind_Ok _ _ _ _ _ Hrun).
    exists ({| Name := name; Dirent_Inode := i |} :: ents), w'.
    split; [done|]. split; [|exact Hframe].
    constructor; [done|].
    eapply Forall2_impl; [exact Hents|]. intros e nc [? ?]. by rewrite <- Hsame.
Qed.

End ReadDirRun.

(** X22. [ReadDir], when [populate] returns nil and the nodes of the
    children map exist, returns one entry for each name of the map and no
    other, no name twice; the inode of an entry is the one the [Attr] of
    the node bound to its name reports. Listing signs nothing and
    changes no node. *)
Theorem ReadDir_lists_children `{Blobref} (env : Env) (n : addr) (w w1 : World)
    (d : mutDir) :
  populate env n w = (Ok None, w1) ->
  dirs w1 !! n = Some d ->
  (forall name c, child_of w1 n name = Some c -> is_Some (inode_of w1 c)) ->
  exists ents w',
    ReadDir env n w = (Ok (inr ents), w') /\
    NoDup (Name <$> ents) /\
    (forall name, name ∈ Name <$> ents <-> is_Some (child_of w1 n name)) /\
    (forall e, e ∈ ents ->
       exists c attr, child_of w1 n (Name e) = Some c /\
                      node_Attr env c w' = (Ok attr, w') /\
                      Inode attr = Dirent_Inode e) /\
    dirs w' = dirs w1 /\ files w' = files w1 /\ signed w' = signed w1.
Proof.
  intros Hpop Hd Hnodes.
  set (m := default ∅ (children d)).
  assert (forall name, child_of w1 n name = m !! name) as Hchild.
  { intros name. unfold child_of, children_of. rewrite Hd. simpl. subst m.
    destruct (children d); simpl; [done | by rewrite lookup_empty]. }
  destruct (ReadDir_loop (map_to_list m) w1) as (ents & w' & Hrun & Hents & Hframe).
  { intros [name c] Hnc. apply (Hnodes name). rewrite Hchild.
    by apply elem_of_map_to_list in Hnc. }
  destruct Hframe as (Hdirs & Hfiles & _ & _ & Hsigned & _).
  exists ents, w'. unfold ReadDir.
  rewrite (bind_Ok _ _ _ _ _ Hpop). rewrite (bind_Ok _ _ _ _ _ (get_dir_Some _ _ _ Hd)).
  fold m. rewrite (bind_Ok _ _ _ _ _ Hrun).
  split; [done|].
  assert (Name <$> ents = (map_to_list m).*1) as Hnames.
  { clear -Hents. induction Hents as [|e nc ents l [He _] _ IH]; [done|].
    rewrite !fmap_cons. by rewrite He, IH. }
  split; [rewrite Hnames; apply NoDup_fst_map_to_list|].
  split; [|split; [|done]].
  - intros name. rewrite Hnames, Hchild. split.
    + intros ((name' & c) & -> & Hin)%list_elem_of_fmap.
      apply elem_of_map_to_list in Hin. eauto.
    + intros [c Hc]. apply list_elem_of_fmap. exists (name, c).
      split; [done|]. by apply elem_of_map_to_list.
  - intros e He.
    apply list_elem_of_lookup in He as [i Hi].
    destruct (Forall2_lookup_l _ _ _ i e Hents Hi) as ([name c] & Hnc & Hname & Hino).
    simpl in Hname, Hino.
    assert (inode_of w' c = Some (Dirent_Inode e)) as Hino'.
    { destruct c; simpl in *; by rewrite ?Hdirs, ?Hfiles. }
    destruct (node_Attr_inode env c w' _ Hino') as (attr & Hattr & Hi').
    exists c, attr. split; [|done].
    rewrite Hchild, Hname. apply elem_of_map_to_list.
    apply list_elem_of_lookup. eauto.
Qed.

(** Listing the directory of the example: the one entry ["a"], with the
    inode of the file node. *)
Lemma ReadDir_lists_children_witness :
  exists ents w',
    ReadDir FsExamples.env_described 1%positive FsExamples.w_recent
      = (Ok (inr ents), w') /\
    NoDup (Name <$> ents) /\
    (forall name, name ∈ Name <$> ents <->
                  is_Some (child_of (next_tick FsExamples.w_recent) 1%positive name)).
Proof.
  destruct (ReadDir_lists_children (H := FsExamples.string_blobref)
              FsExamples.env_described 1%positive FsExamples.w_recent
              (next_tick FsExamples.w_recent)
              (FsExamples.dir_with FsExamples.now0 "a") eq_refl eq_refl)
    as (ents & w' & Hrun & Hnodup & Hnames & _).
  - intros name c Hc.
    change (({[ "a"%string := FileNode 1%positive ]} : gmap string mutFileOrDir) !! name
            = Some c) in Hc.
    apply lookup_singleton_Some in Hc as [_ <-]. by eexists.
  - exists ents, w'. split; [exact Hrun|]. split; [exact Hnodup | exact Hnames].
Defined.

Lemma to_uint64_wrap64 z : 0 <= z < 2 ^ 64 -> to_uint64 (wrap64 z) = z.
Proof.
  intros Hz. unfold to_uint64, wrap64.
  rewrite Zminus_mod_idemp_l. replace (z + 2 ^ 63 - 2 ^ 63) with z by lia.
  by apply Z.mod_small.
Qed.

Section SetattrRun.
Context `{Blobref} (env : Env) (fc : FuseConsts).

(** A guarded field update of a file node. *)
Lemma guarded_modify_run (b : bool) n g w f :
  files w !! n = Some f ->
  exists w',
    (if b then modify_file n g else ret tt) w = (Ok tt, w') /\
    files w' !! n = Some (if b then g f else f) /\
    (forall a, a <> n -> files w' !! a = files w !! a) /\
    dirs w' = dirs w /\ handles w' = handles w /\ tmpfiles w' = tmpfiles w /\
    signed w' = signed w /\ described w' = described w /\ tick w' = tick w.
Proof.
  intros Hf. destruct b.
  - rewrite (modify_file_Some _ _ _ _ Hf). eexists. split; [reflexivity|]. simpl.
    rewrite lookup_alter_eq, Hf. repeat split; try done.
    intros a Ha. by rewrite lookup_alter_ne.
  - exists w. by repeat split.
Qed.

Lemma Setattr_run n req w f :
  files w !! n = Some f ->
  let f' :=
    (if negb (Z.land (Valid req) (SetattrSize fc) =? 0)
     then set_size (wrap64 (req_Size req)) else id)
      ((if negb (Z.land (Valid req) (SetattrAtime fc) =? 0)
        then set_atime (req_Atime req) else id)
         ((if negb (Z.land (Valid req) (SetattrMtime fc) =? 0)
           then set_mtime (req_Mtime req) else id) f)) in
  exists attr w',
    Setattr env fc n req w = (Ok (60 * Second, attr), w') /\
    mutFile_Attr env n w' = (Ok attr, w') /\
    files w' !! n = Some f' /\
    (forall a, a <> n -> files w' !! a = files w !! a) /\
    dirs w' = dirs w /\ handles w' = handles w /\ tmpfiles w' = tmpfiles w /\
    signed w' = signed w /\ described w' = described w /\ tick w' = tick w.
Proof.
  intros Hf f'. unfold Setattr.
  unfold bind at 1. unfold log_Printf at 1.
  set (w0 := with_logged _ w).
  assert (files w0 !! n = Some f) as Hf0 by done.
  destruct (guarded_modify_run (negb (Z.land (Valid req) (SetattrMtime fc) =? 0)) n
              (set_mtime (req_Mtime req)) w0 f Hf0)
    as (w1 & Hrun1 & Hf1 & Ho1 & Hd1 & Hh1 & Ht1 & Hs1 & Hde1 & Hti1).
  rewrite (bind_Ok _ _ _ _ _ Hrun1).
  destruct (guarded_modify_run (negb (Z.land (Valid req) (SetattrAtime fc) =? 0)) n
              (set_atime (req_Atime req)) w1 _ Hf1)
    as (w2 & Hrun2 & Hf2 & Ho2 & Hd2 & Hh2 & Ht2 & Hs2 & Hde2 & Hti2).
  rewrite (bind_Ok _ _ _ _ _ Hrun2).
  destruct (guarded_modify_run (negb (Z.land (Valid req) (SetattrSize fc) =? 0)) n
              (set_size (wrap64 (req_Size req))) w2 _ Hf2)
    as (w3 & Hrun3 & Hf3 & Ho3 & Hd3 & Hh3 & Ht3 & Hs3 & Hde3 & Hti3).
  rewrite (bind_Ok _ _ _ _ _ Hrun3).
  destruct (mutFile_Attr_run env n w3 _ Hf3) as (attr & Hattr & _).
  rewrite (bind_Ok _ _ _ _ _ Hattr).
  exists attr, w3. split; [done|]. split; [done|]. split.
  { rewrite Hf3. subst f'.
    by destruct (negb (_ =? 0)), (negb (_ =? 0)), (negb (_ =? 0)). }
  split.
  { intros a Ha. by rewrite Ho3, Ho2, Ho1. }
  rewrite Hd3, Hd2, Hd1, Hh3, Hh2, Hh1, Ht3, Ht2, Ht1, Hs3, Hs2, Hs1, Hde3, Hde2, Hde1,
    Hti3, Hti2, Hti1.
  done.
Qed.

End SetattrRun.

(** X23. [Setattr] with the size bit sets the size of the node to the
    requested one and answers with it, for every [uint64] size; it asks
    the store nothing, signs nothing and touches no scratch file, so the
    scratch file of an open handle keeps its length and the content blob
    of the node stays. *)
Theorem Setattr_size_in_memory_only `{Blobref} (env : Env) (fc : FuseConsts) (n : addr)
    (req : SetattrRequest) (w : World) (f : mutFile) :
  files w !! n = Some f ->
  0 <= req_Size req < 2 ^ 64 ->
  Z.land (Valid req) (SetattrSize fc) <> 0 ->
  exists attr w',
    Setattr env fc n req w = (Ok (60 * Second, attr), w') /\
    a_Size attr = req_Size req /\
    size_of w' n = Some (wrap64 (req_Size req)) /\
    content_of w' n = Some (content f) /\
    tmpfiles w' = tmpfiles w /\ signed w' = signed w /\ described w' = described w /\
    tick w' = tick w.
Proof.
  intros Hf Hsz Hbit.
  destruct (Setattr_run env fc n req w f Hf)
    as (attr & w' & Hrun & Hattr & Hf' & _ & _ & _ & Ht & Hs & Hd & Htick).
  apply Z.eqb_neq in Hbit. rewrite Hbit in Hf'. simpl in Hf'.
  destruct (mutFile_Attr_run env n w' _ Hf') as (attr' & Hattr' & _ & _ & Hsize & _).
  assert (attr' = attr) as -> by congruence.
  exists attr, w'. split; [done|]. split.
  { rewrite Hsize. simpl. by apply to_uint64_wrap64. }
  split; [unfold size_of; by rewrite Hf'|]. split; [|done].
  unfold content_of. rewrite Hf'. simpl.
  by destruct (negb (_ =? 0)), (negb (_ =? 0)).
Qed.

(** Setting the size of the five-byte file of the example to two: the
    node says two, the scratch file of the open handle still holds
    five. *)
Lemma Setattr_size_in_memory_only_witness :
  exists attr w',
    Setattr FsExamples.env_described FsExamples.fuse_consts 1%positive
      {| Valid := 8; req_Size := 2; req_Atime := 0; req_Mtime := 0 |} FsExamples.w_recent
      = (Ok (60 * Second, attr), w') /\
    a_Size attr = 2 /\
    size_of w' 1%positive = Some 2 /\
    (length <$> scratch_of w' 1%positive) = Some 5%nat.
Proof.
  destruct (Setattr_size_in_memory_only (H := FsExamples.string_blobref)
              FsExamples.env_described FsExamples.fuse_consts 1%positive
              {| Valid := 8; req_Size := 2; req_Atime := 0; req_Mtime := 0 |}
              FsExamples.w_recent (FsExamples.file_node "a" 5 0 0)
              eq_refl ltac:(simpl; lia) ltac:(discriminate))
    as (attr & w' & Hrun & Hsize & Hnode & _ & Htmp & _).
  exists attr, w'. split; [exact Hrun|]. split; [exact Hsize|]. split; [exact Hnode|].
  assert (handles w' = handles FsExamples.w_recent) as Hh.
  { revert Hrun. vm_compute. by intros [= _ <-]. }
  unfold scratch_of. rewrite Hh, Htmp. reflexivity.
Defined.

(** X24. [Setattr] changes the fields whose bit is set in the valid-mask
    and no other: with the size bit off the size stays, with the
    time bits off the times stay, and a request with no bit set changes
    no node at all. It never fails. *)
Theorem Setattr_respects_mask `{Blobref} (env : Env) (fc : FuseConsts) (n : addr)
    (req : SetattrRequest) (w : World) (f : mutFile) :
  files w !! n = Some f ->
  exists attr w' f',
    Setattr env fc n req w = (Ok (60 * Second, attr), w') /\
    mutFile_Attr env n w' = (Ok attr, w') /\
    files w' !! n = Some f' /\
    (Z.land (Valid req) (SetattrSize fc) = 0 -> size f' = size f) /\
    (Z.land (Valid req) (SetattrMtime fc) = 0 -> mtime f' = mtime f) /\
    (Z.land (Valid req) (SetattrAtime fc) = 0 -> atime f' = atime f) /\
    (Z.land (Valid req) (SetattrMtime fc) <> 0 -> mtime f' = req_Mtime req) /\
    (Z.land (Valid req) (SetattrAtime fc) <> 0 -> atime f' = req_Atime req) /\
    (Valid req = 0 -> files w' = files w).
Proof.
  intros Hf.
  destruct (Setattr_run env fc n req w f Hf)
    as (attr & w' & Hrun & Hattr & Hf' & Hother & _).
  eexists attr, w', _. split; [done|]. split; [done|]. split; [exact Hf'|].
  repeat split.
  - intros Hbit%Z.eqb_eq. rewrite Hbit. change (negb true) with false. cbv iota.
    repeat match goal with |- context [if ?b then _ else _] => destruct b end;
      reflexivity.
  - intros Hbit%Z.eqb_eq. rewrite Hbit. change (negb true) with false. cbv iota.
    repeat match goal with |- context [if ?b then _ else _] => destruct b end;
      reflexivity.
  - intros Hbit%Z.eqb_eq. rewrite Hbit. change (negb true) with false. cbv iota.
    repeat match goal with |- context [if ?b then _ else _] => destruct b end;
      reflexivity.
  - intros Hbit%Z.eqb_neq. rewrite Hbit. change (negb false) with true. cbv iota.
    repeat match goal with |- context [if ?b then _ else _] => destruct b end;
      reflexivity.
  - intros Hbit%Z.eqb_neq. rewrite Hbit. change (negb false) with true. cbv iota.
    repeat match goal with |- context [if ?b then _ else _] => destruct b end;
      reflexivity.
  - intros Hzero. apply map_eq. intros a. destruct (decide (a = n)) as [-> | Hne].
    + rewrite Hf', Hf, Hzero. by rewrite !Z.land_0_l.
    + by apply Hother.
Qed.

(** With no bit set in the valid-mask, [Setattr] answers with the
    attributes and changes no node. *)
Lemma Setattr_respects_mask_witness :
  exists attr w',
    Setattr FsExamples.env_described FsExamples.fuse_consts 1%positive
      {| Valid := 0; req_Size := 2; req_Atime := 7; req_Mtime := 7 |} FsExamples.w_recent
      = (Ok (60 * Second, attr), w') /\
    files w' = files FsExamples.w_recent.
Proof.
  destruct (Setattr_respects_mask (H := FsExamples.string_blobref)
              FsExamples.env_described FsExamples.fuse_consts 1%positive
              {| Valid := 0; req_Size := 2; req_Atime := 7; req_Mtime := 7 |}
              FsExamples.w_recent (FsExamples.file_node "a" 5 0 0) eq_refl)
    as (attr & w' & f' & Hrun & _ & _ & _ & _ & _ & _ & _ & Hsame).
  exists attr, w'. split; [exact Hrun | exact (Hsame eq_refl)].
Defined.

Section OpenRun.
Context `{Blobref} (env : Env) (io : EnvIO) (fc : FuseConsts).

(** [Open], up to the call of [newHandle]. *)
Lemma Open_run n reqFlags resFlags w s f :
  files w !! n = Some f ->
  let w0 := next_tick
              (with_logged "mutFile.Open: %v: content: %v dir=%v flags=%v mode=%v" w) in
  let flags := Z.ldiff resFlags (OpenDirectIO fc) in
  Open env io fc n reqFlags resFlags (w, s) =
    match schema_NewFileReader io (tick w) (content f) with
    | inl _ =>
        (Ok (inl EIO), (with_logged "mutFile.Open: %v" w0, incr_OpenError (incr_Open s)))
    | inr body =>
        if reqFlags =? 0 then
          (Ok (inr (NodeReader (content f) body, flags)),
           (with_logged "mutFile.Open returning read-only file" w0,
            incr_OpenRO (incr_Open s)))
        else
          let '(r, w') := newHandle env n (Some body)
                            (with_logged "mutFile.Open returning read-write filehandle" w0) in
          (match r with
           | Ok (inl ferr) => Ok (inl ferr)
           | Ok (inr h) => Ok (inr (MutFileHandle h, flags))
           | Panic msg => Panic msg
           end, (w', incr_OpenRW (incr_Open s)))
    end.
Proof.
  intros Hf w0 flags. unfold Open, Incr, lift, log_Printf, NewFileReader, bind, ret.
  cbn -[newHandle]. unfold get_file. rewrite Hf. cbn -[newHandle].
  destruct (schema_NewFileReader io (tick w) (content f)) as [e | body]; [done|].
  destruct (reqFlags =? 0); [done|]. cbn -[newHandle]. fold w0.
  destruct (newHandle env n (Some body) _) as [[[e | h] | msg] w'] eqn:Hn; done.
Qed.

(** [newHandle] with a body, when the temp file can be made and the copy
    gets through. *)
Lemma newHandle_body_ok n body w :
  ioutil_TempFile env (tick w) = None ->
  io_Copy env (S (tick w)) body = None ->
  exists h t w',
    newHandle env n (Some body) w = (Ok (inr h), w') /\
    handles w !! h = None /\ tmpfiles w !! t = None /\
    handles w' !! h = Some {| h_f := n; h_tmp := Some t |} /\
    tmpfiles w' !! t = Some {| is_open := true; is_linked := true; data := body;
                               offset := length body |} /\
    (forall t' tf, tmpfiles w !! t' = Some tf -> tmpfiles w' !! t' = Some tf) /\
    (forall h' hd, handles w !! h' = Some hd -> handles w' !! h' = Some hd) /\
    dirs w' = dirs w /\ files w' = files w /\ signed w' = signed w /\
    tick w' = S (S (tick w)).
Proof.
  intros Htmp Hcopy. unfold newHandle. unfold bind at 1. unfold TempFile at 1.
  rewrite Htmp.
  unfold bind at 1. unfold Copy, deref. rewrite bind_ret_run.
  change (tick (next_tick ?x)) with (S (tick x)). simpl tick. rewrite Hcopy.
  unfold bind at 1. unfold new_mutFileHandle.
  set (t := fresh (dom (tmpfiles w))). set (h := fresh (dom _)).
  assert (tmpfiles w !! t = None) as Hft by apply not_elem_of_dom, is_fresh.
  assert (handles w !! h = None) as Hfh by apply not_elem_of_dom, is_fresh.
  exists h, t. eexists. split; [reflexivity|]. simpl.
  split; [done|]. split; [done|]. split; [apply lookup_insert_eq|]. split.
  { by rewrite lookup_alter_eq, lookup_insert_eq. }
  split.
  { intros t' tf Htf. assert (t <> t') by congruence.
    by rewrite lookup_alter_ne, lookup_insert_ne. }
  split; [|done].
  intros h' hd Hh'. assert (h <> h') by congruence. by rewrite lookup_insert_ne.
Qed.

End OpenRun.

(** X25. Every [Open] of a file node returns, counts once in
    [mutFileOpen] and once in exactly one of [mutFileOpenError],
    [mutFileOpenRO] and [mutFileOpenRW]; and [mutFileOpenError] counts the
    opens whose file reader could not be made, no others: a read-write
    open that fails to make its scratch file returns EIO and is counted
    as read-write. *)
Theorem Open_counts_once `{Blobref} (env : Env) (io : EnvIO) (fc : FuseConsts) (n : addr)
    (reqFlags resFlags : Z) (w : World) (s : Stats) (f : mutFile) :
  files w !! n = Some f ->
  exists r w' s',
    Open env io fc n reqFlags resFlags (w, s) = (Ok r, (w', s')) /\
    mutFileOpen s' = S (mutFileOpen s) /\
    (mutFileOpenError s' + mutFileOpenRO s' + mutFileOpenRW s'
     = S (mutFileOpenError s + mutFileOpenRO s + mutFileOpenRW s))%nat /\
    (mutFileOpenError s' = S (mutFileOpenError s) <->
     exists e, schema_NewFileReader io (tick w) (content f) = inl e) /\
    (mutFileOpenRO s' = S (mutFileOpenRO s) <->
     (exists body, schema_NewFileReader io (tick w) (content f) = inr body) /\
     reqFlags = 0) /\
    (forall e, r = inl e -> e = EIO).
Proof.
  intros Hf. rewrite (Open_run env io fc n reqFlags resFlags w s f Hf).
  destruct (schema_NewFileReader io (tick w) (content f)) as [e | body].
  - eexists _, _, _. split; [reflexivity|]. simpl.
    split; [done|]. split; [lia|]. split; [split; eauto|]. split.
    + split; [lia|]. by intros [[? ?] _].
    + by intros ? [= <-].
  - destruct (Z.eqb_spec reqFlags 0) as [-> | Hrw].
    + eexists _, _, _. split; [reflexivity|]. simpl.
      split; [done|]. split; [lia|]. split.
      * split; [lia|]. by intros [? ?].
      * split; [split; eauto|]. by intros ? [= ].
    + destruct (newHandle_failure_frees_scratch env n (Some body)
                  (with_logged "mutFile.Open returning read-write filehandle"
                     (next_tick (with_logged
                        "mutFile.Open: %v: content: %v dir=%v flags=%v mode=%v" w))))
        as (r & w' & Hrun & Hr).
      rewrite Hrun.
      exists (match r with
              | inl ferr => inl ferr
              | inr h => inr (MutFileHandle h, Z.ldiff resFlags (OpenDirectIO fc))
              end), w', (incr_OpenRW (incr_Open s)).
      split; [by destruct r|]. simpl.
      split; [done|]. split; [lia|]. split.
      * split; [lia|]. by intros [? ?].
      * split; [split; [lia | by intros [_ ?]]|].
        destruct r as [e | h]; [|by intros ? [= ]].
        destruct Hr as [-> _]. by intros ? [= <-].
Qed.

(** A read-write open while no temp file can be made: EIO, counted as a
    read-write open and not as an error. *)
Lemma Open_counts_once_witness :
  exists w',
    Open FsExamples.env_tempfile_fails FsExamples.io_ok FsExamples.fuse_consts
      1%positive 2 1 (FsExamples.w_recent, FsExamples.no_opens)
    = (Ok (inl EIO),
       (w', {| mutFileOpen := 1; mutFileOpenError := 0;
               mutFileOpenRO := 0; mutFileOpenRW := 1 |})).
Proof.
  destruct (Open_counts_once (H := FsExamples.string_blobref)
              FsExamples.env_tempfile_fails FsExamples.io_ok FsExamples.fuse_consts
              1%positive 2 1 FsExamples.w_recent FsExamples.no_opens
              (FsExamples.file_node "a" 5 0 0) eq_refl)
    as (r & w' & s' & Hrun & _).
  exists w'. rewrite Hrun. revert Hrun. vm_compute. intros [= <- _ <-]. reflexivity.
Defined.

(** X26. A read-write [Open] seeds the scratch file with the content: when
    the reader, the temp file and the copy succeed, it returns a new
    handle on the node whose scratch file holds the bytes of the content
    blob, and a [Read] of that length at offset 0 returns them; no node
    changes. *)
Theorem Open_then_Read `{Blobref} (env : Env) (io : EnvIO) (fc : FuseConsts) (n : addr)
    (reqFlags resFlags : Z) (w : World) (s : Stats) (f : mutFile)
    (body : list Byte.byte) :
  files w !! n = Some f ->
  reqFlags <> 0 ->
  schema_NewFileReader io (tick w) (content f) = inr body ->
  ioutil_TempFile env (S (tick w)) = None ->
  io_Copy env (S (S (tick w))) body = None ->
  file_ReadAt io (S (S (S (tick w)))) = None ->
  exists h w1 s1 w2,
    Open env io fc n reqFlags resFlags (w, s)
      = (Ok (inr (MutFileHandle h, Z.ldiff resFlags (OpenDirectIO fc))), (w1, s1)) /\
    handles w !! h = None /\
    (h_f <$> (handles w1 !! h)) = Some n /\
    scratch_of w1 h = Some body /\
    Read io h (Z.of_nat (length body)) 0 w1 = (Ok (inr body), w2) /\
    files w1 = files w /\ dirs w1 = dirs w /\ signed w1 = signed w.
Proof.
  intros Hf Hrw Hreader Htmp Hcopy Hread.
  rewrite (Open_run env io fc n reqFlags resFlags w s f Hf). rewrite Hreader.
  destruct (Z.eqb_spec reqFlags 0) as [? | _]; [done|].
  set (w0 := with_logged _ _).
  destruct (newHandle_body_ok env n body w0 Htmp Hcopy)
    as (h & t & w1 & Hrun & Hh & Ht & Hh1 & Ht1 & _ & _ & Hdirs & Hfiles & Hsigned & Htick).
  rewrite Hrun.
  exists h, w1, (incr_OpenRW (incr_Open s)), (next_tick w1).
  split; [done|]. split; [done|]. split; [by rewrite Hh1|]. split.
  { unfold scratch_of. rewrite Hh1. simpl. by rewrite Ht1. }
  split; [|done].
  assert (file_ReadAt io (tick w1) = None) as Hread1 by (by rewrite Htick).
  rewrite (Read_ok io h _ 0 w1 _ t _ Hh1 eq_refl Ht1 eq_refl (Nat2Z.is_nonneg _)
             ltac:(lia) Hread1).
  simpl. by rewrite Nat2Z.id, drop_0, firstn_all.
Qed.

(** Opening the file of the example for writing and reading five bytes:
    the content, ["hello"]. *)
Lemma Open_then_Read_witness :
  exists h w1 s1 w2,
    Open FsExamples.env_described FsExamples.io_ok FsExamples.fuse_consts
      1%positive 2 1 (FsExamples.w_recent, FsExamples.no_opens)
      = (Ok (inr (MutFileHandle h, 0)), (w1, s1)) /\
    Read FsExamples.io_ok h 5 0 w1 = (Ok (inr FsExamples.hello), w2).
Proof.
  destruct (Open_then_Read (H := FsExamples.string_blobref)
              FsExamples.env_described FsExamples.io_ok FsExamples.fuse_consts
              1%positive 2 1 FsExamples.w_recent FsExamples.no_opens
              (FsExamples.file_node "a" 5 0 0) FsExamples.hello
              eq_refl ltac:(discriminate) eq_refl eq_refl eq_refl eq_refl)
    as (h & w1 & s1 & w2 & Hopen & _ & _ & _ & Hread & _).
  exists h, w1, s1, w2. split; [exact Hopen | exact Hread].
Defined.

(** X27. [Open] makes a handle and a scratch file only for a read-write
    open: when the file reader cannot be made it returns EIO, and for a
    read-only open (flags 0) it returns a reader over the content blob of
    the node; in both cases no handle, scratch file or node is made or
    changed. The flags of a successful open have the direct-I/O bit
    cleared. *)
Theorem Open_read_only_makes_no_handle `{Blobref} (env : Env) (io : EnvIO)
    (fc : FuseConsts) (n : addr) (reqFlags resFlags : Z) (w : World) (s : Stats)
    (f : mutFile) :
  files w !! n = Some f ->
  (exists e, schema_NewFileReader io (tick w) (content f) = inl e) \/ reqFlags = 0 ->
  exists r w' s',
    Open env io fc n reqFlags resFlags (w, s) = (Ok r, (w', s')) /\
    match schema_NewFileReader io (tick w) (content f) with
    | inl _ => r = inl EIO
    | inr body => r = inr (NodeReader (content f) body, Z.ldiff resFlags (OpenDirectIO fc))
    end /\
    (forall hdl flags, r = inr (hdl, flags) -> Z.land flags (OpenDirectIO fc) = 0) /\
    handles w' = handles w /\ tmpfiles w' = tmpfiles w /\
    files w' = files w /\ dirs w' = dirs w.
Proof.
  intros Hf Hcase. rewrite (Open_run env io fc n reqFlags resFlags w s f Hf).
  destruct (schema_NewFileReader io (tick w) (content f)) as [e | body].
  - eexists _, _, _. split; [reflexivity|]. split; [done|]. split; [|done].
    by intros ? ? [= ].
  - destruct Hcase as [[e ?] | ->]; [done|]. simpl.
    eexists _, _, _. split; [reflexivity|]. split; [done|]. split; [|done].
    intros ? ? [= <- <-]. apply Z.bits_inj'. intros i Hi.
    rewrite Z.land_spec, Z.ldiff_spec, Z.bits_0.
    by destruct (Z.testbit _ i), (Z.testbit _ i).
Qed.

Lemma Open_read_only_makes_no_handle_witness :
  exists w' s',
    Open FsExamples.env_described FsExamples.io_ok FsExamples.fuse_consts
      1%positive 0 1 (FsExamples.w_recent, FsExamples.no_opens)
      = (Ok (inr (NodeReader None FsExamples.hello, 0)), (w', s')) /\
    handles w' = handles FsExamples.w_recent /\
    tmpfiles w' = tmpfiles FsExamples.w_recent.
Proof.
  destruct (Open_read_only_makes_no_handle (H := FsExamples.string_blobref)
              FsExamples.env_described FsExamples.io_ok FsExamples.fuse_consts
              1%positive 0 1 FsExamples.w_recent FsExamples.no_opens
              (FsExamples.file_node "a" 5 0 0) eq_refl (or_intror eq_refl))
    as (r & w' & s' & Hrun & Hr & _ & Hh & Ht & _).
  exists w', s'. simpl in Hr. rewrite Hr in Hrun.
  split; [exact Hrun|]. split; [exact Hh | exact Ht].
Defined.

Lemma write_at_empty (bs : list Byte.byte) : write_at 0 bs [] = bs.
Proof. destruct bs; [done|]. unfold write_at. by rewrite drop_nil, app_nil_r. Qed.

Section CreateRun.
Context `{Blobref} (env : Env) (io : EnvIO) (fc : FuseConsts).

(** [Create] when the store accepts the entry and the temp file can be
    made. *)
Lemma Create_ok n name resFlags w d br :
  dirs w !! n = Some d ->
  client_UploadNewPermanode io (tick w) = inr br ->
  client_UploadAndSignBlob env (S (tick w))
    (NewSetAttributeClaim (d_permanode d) ("camliPath:" +:+ name) (BlobRef_String br))
    = None ->
  ioutil_TempFile env (S (S (tick w))) = None ->
  exists a h t w',
    Create env io fc n name resFlags w
      = (Ok (inr (FileNode a, h, Z.ldiff resFlags (OpenDirectIO fc))), w') /\
    files w !! a = None /\ handles w !! h = None /\
    files w' !! a = Some {| f_permanode := br; f_parent := Some n; f_name := name;
                            symLink := false; target := ""; content := None;
                            size := 0; mtime := 0; atime := 0 |} /\
    handles w' !! h = Some {| h_f := a; h_tmp := Some t |} /\
    tmpfiles w' !! t = Some {| is_open := true; is_linked := true; data := [];
                               offset := 0 |} /\
    signed w' = signed w ++
      [NewSetAttributeClaim (d_permanode d) ("camliPath:" +:+ name) (BlobRef_String br)] /\
    tick w' = S (S (S (tick w))).
Proof.
  intros Hd Hperm Hsign Htmp.
  destruct (creat_ok env io n name fileType w d br Hd Hperm Hsign)
    as (c & w1 & Hrun & Hnew & Hc & Hn1 & Hext & Hsigned & Hh1 & _ & _ & Htick).
  destruct c as [a | a]; [by destruct Hc|]. destruct Hc as (_ & Hf1).
  assert (ioutil_TempFile env (tick w1) = None) as Htmp1 by (by rewrite Htick).
  destruct (newHandle_nil_ok env a w1 Htmp1)
    as (h & t & w2 & Hrun2 & Hh & Ht & Hh2 & Ht2 & Hd2 & Hf2 & Hs2 & _ & Htick2).
  exists a, h, t, w2.
  unfold Create. rewrite (bind_Ok _ _ _ _ _ Hrun).
  change (as_mutFile (FileNode a)) with (ret (W := World) a) at 1.
  rewrite bind_ret_run. rewrite (bind_Ok _ _ _ _ _ Hrun2).
  split; [done|]. split; [exact Hnew|]. split; [by rewrite <- Hh1|].
  split; [by rewrite Hf2|]. split; [by rewrite Hh2, lookup_insert_eq|].
  split; [by rewrite Ht2, lookup_insert_eq|]. split; [by rewrite Hs2|].
  by rewrite Htick2, Htick.
Qed.

End CreateRun.

(** X28. A file created, written and released: after a successful
    [Create], a successful [Write] of [bs] at offset 0 on the handle and a
    successful [Release], the bytes uploaded are [bs], the node has their
    length as its size and the uploaded blob as its content, the handle is
    released, and two claims were signed: the directory entry and then
    [camliContent] of the new permanode. *)
Theorem Create_Write_Release `{Blobref} (env : Env) (io : EnvIO) (fc : FuseConsts)
    (n : addr) (name : string) (resFlags : Z) (bs : list Byte.byte) (w : World)
    (d : mutDir) (br cbr : option BlobRef) :
  dirs w !! n = Some d ->
  client_UploadNewPermanode io (tick w) = inr br ->
  client_UploadAndSignBlob env (S (tick w))
    (NewSetAttributeClaim (d_permanode d) ("camliPath:" +:+ name) (BlobRef_String br))
    = None ->
  ioutil_TempFile env (S (S (tick w))) = None ->
  file_WriteAt io (S (S (S (tick w)))) = None ->
  int64_range (Z.of_nat (length bs)) ->
  file_Seek env (S (S (S (S (tick w))))) = None ->
  schema_WriteFileFromReader env (S (S (S (S (S (tick w)))))) name bs = inr cbr ->
  exists a h flags w1 w2 w3,
    Create env io fc n name resFlags w = (Ok (inr (FileNode a, h, flags)), w1) /\
    Write io h bs 0 w1 = (Ok (inr (length bs)), w2) /\
    Release env h w2 = (Ok None, w3) /\
    size_of w3 a = Some (Z.of_nat (length bs)) /\
    content_of w3 a = Some cbr /\
    released w3 h /\
    signed w3 = signed w ++
      [NewSetAttributeClaim (d_permanode d) ("camliPath:" +:+ name) (BlobRef_String br);
       NewSetAttributeClaim br "camliContent" (BlobRef_String cbr)].
Proof.
  intros Hd Hperm Hsign Htmp Hwrite Hrange Hseek Hup.
  destruct (Create_ok env io fc n name resFlags w d br Hd Hperm Hsign Htmp)
    as (a & h & t & w1 & Hcreate & _ & _ & Hf1 & Hh1 & Ht1 & Hs1 & Htick1).
  assert (file_WriteAt io (tick w1) = None) as Hwrite1 by (by rewrite Htick1).
  destruct (Write_ok io h bs 0 w1 _ t _ _ Hh1 eq_refl Ht1 eq_refl Hf1 ltac:(lia) Hwrite1)
    as (w2 & Hwr & Ht2 & Hf2 & _ & Hh2 & _ & Hs2 & _ & Htick2).
  simpl in Hf2. rewrite Z.add_0_l, (wrap64_id _ Hrange) in Hf2.
  assert (tmpfiles w2 !! t = Some {| is_open := true; is_linked := true; data := bs;
                                      offset := 0 |}) as Ht2'.
  { rewrite Ht2, lookup_alter_eq, Ht1. simpl. unfold set_file_data. simpl.
    by rewrite write_at_empty. }
  assert (handles w2 !! h = Some {| h_f := a; h_tmp := Some t |}) as Hh2'
    by (by rewrite Hh2).
  assert (file_Seek env (tick w2) = None) as Hseek2 by (by rewrite Htick2, Htick1).
  destruct (Release_upload_ok env h w2 _ t _ _ cbr Hh2' eq_refl Hf2 Ht2' Hseek2)
    as (w3 & Hrel & Hh3 & _ & Hf3 & Hs3 & _).
  { simpl. by rewrite Htick2, Htick1. }
  exists a, h, (Z.ldiff resFlags (OpenDirectIO fc)), w1, w2, w3.
  split; [done|]. split; [done|]. split; [done|]. simpl in Hf3.
  split; [unfold size_of; by rewrite Hf3|].
  split; [unfold content_of; by rewrite Hf3|].
  split; [eexists; split; [exact Hh3 | done]|].
  rewrite Hs3, Hs2, Hs1. simpl. by rewrite <- app_assoc.
Qed.

(** Creating ["b"] in the directory of the example, writing ["hello"]
    and releasing: the node has five bytes and the uploaded content. *)
Lemma Create_Write_Release_witness :
  exists a h flags w1 w2 w3,
    Create FsExamples.env_described FsExamples.io_ok FsExamples.fuse_consts
      1%positive "b" 1 FsExamples.w_recent = (Ok (inr (FileNode a, h, flags)), w1) /\
    Write FsExamples.io_ok h FsExamples.hello 0 w1 = (Ok (inr 5%nat), w2) /\
    Release FsExamples.env_described h w2 = (Ok None, w3) /\
    size_of w3 a = Some 5 /\
    content_of w3 a = Some (Some "sha1-new"%string).
Proof.
  destruct (Create_Write_Release (H := FsExamples.string_blobref)
              FsExamples.env_described FsExamples.io_ok FsExamples.fuse_consts
              1%positive "b" 1 FsExamples.hello FsExamples.w_recent
              (FsExamples.dir_with FsExamples.now0 "a")
              (Some "sha1-y"%string) (Some "sha1-new"%string)
              eq_refl eq_refl eq_refl eq_refl eq_refl
              ltac:(unfold int64_range; simpl; lia) eq_refl eq_refl)
    as (a & h & flags & w1 & w2 & w3 & Hc & Hw & Hr & Hsz & Hct & _).
  exists a, h, flags, w1, w2, w3.
  split; [exact Hc|]. split; [exact Hw|]. split; [exact Hr|].
  split; [exact Hsz | exact Hct].
Defined.

(** X29. A describe that fails does not fail a [Lookup]: the lookup is
    answered from the children map as it is, the bound node or ENOENT,
    never EIO; and as the failed attempt is recorded as the last populate,
    the lookups of the next [populateInterval] ask the store nothing and
    answer the same way. *)
Theorem Lookup_answers_from_memory_when_describe_fails `{Blobref} (env : Env) (n : addr)
    (name : string) (w : World) (d : mutDir) (e : error) :
  dirs w !! n = Some d ->
  populate_due d (time_Now env (tick w)) ->
  client_Describe env (S (tick w)) {| req_BlobRef := d_permanode d; Depth := 3 |} = inl e ->
  exists w',
    Lookup env n name w =
      (Ok (match child_of w n name with Some c => inr c | None => inl ENOENT end), w') /\
    lastPop_of w' n = Some (time_Now env (tick w)) /\
    (forall name',
       time_Now env (tick w') < time_Now env (tick w) + populateInterval ->
       exists w'',
         Lookup env n name' w' =
           (Ok (match child_of w n name' with Some c => inr c | None => inl ENOENT end),
            w'') /\
         described w'' = described w').
Proof.
  intros Hd Hdue Hdesc.
  set (w1 := with_logged "mutDir.paths:"
       (next_tick (with_described {| req_BlobRef := d_permanode d; Depth := 3 |}
          (with_dirs (alter (set_lastPop (time_Now env (tick w))) n) (next_tick w))))).
  assert (dirs w1 !! n = Some (set_lastPop (time_Now env (tick w)) d)) as Hd1.
  { subst w1. simpl. by rewrite lookup_alter_eq, Hd. }
  assert (forall name', child_of w1 n name' = child_of w n name') as Hsame.
  { intros name'. unfold child_of, children_of. by rewrite Hd1, Hd. }
  exists (with_logged "mutDir(%q).Lookup(%q) = %#v, %v" w1). split; [|split].
  - unfold Lookup, deferring.
    rewrite (bind_Ok _ _ _ _ _ (populate_describe_fails env n w d e Hd Hdue Hdesc)).
    fold w1. rewrite (bind_Ok _ _ _ _ _ (get_dir_Some _ _ _ Hd1)).
    rewrite <- Hsame. unfold child_of, children_of. rewrite Hd1. simpl.
    by destruct (map_index (children d) name).
  - unfold lastPop_of. simpl. by rewrite lookup_alter_eq, Hd.
  - intros name' Hsoon.
    set (w2 := with_logged "mutDir(%q).Lookup(%q) = %#v, %v" w1) in *.
    assert (dirs w2 !! n = Some (set_lastPop (time_Now env (tick w)) d)) as Hd2 by done.
    assert (child_of w2 n name' = child_of w n name') as Hsame2 by apply Hsame.
    eexists. rewrite (Lookup_recent env n name' w2 _ Hd2).
    + rewrite Hsame2. split; [reflexivity | done].
    + unfold populate_due, Time_After, Time_Add. simpl.
      intros Hfalse. apply Z.ltb_ge in Hfalse.
      change (tick w2) with (S (S (tick w))) in Hsoon. lia.
Qed.

(** With a store that cannot be described, a [Lookup] in the stale
    directory of the example still finds ["x"]. *)
Lemma Lookup_answers_from_memory_when_describe_fails_witness :
  exists w',
    Lookup FsExamples.env_describe_fails 1%positive "x" FsExamples.w_stale
      = (Ok (inr (FileNode 1%positive)), w').
Proof.
  destruct (Lookup_answers_from_memory_when_describe_fails
              (H := FsExamples.string_blobref) FsExamples.env_describe_fails
              1%positive "x" FsExamples.w_stale (FsExamples.dir_with 0 "x")
              "describe: connection refused" eq_refl eq_refl eq_refl)
    as (w' & Hrun & _).
  exists w'. exact Hrun.
Defined.

End FsMore.
